(** * SwitchBot BLE port driver: advertisement parser, device cache and
      command dispatcher of [src/ports/sample_app_port.c].

    Bytes and machine integers are modelled as [Z] with the C conversions
    written out; byte buffers and fixed arrays are lists of [Z]; the global
    variables of the driver are one record threaded through every call. *)

From Stdlib Require Import ZArith Lia Bool.
From stdpp Require Import base tactics option list.

Local Open Scope Z_scope.

(** ** Machine integers *)

(** [(uint8_t) x] and [(uint16_t) x]. *)
Definition u8 (x : Z) : Z := x mod 256.
Definition u16 (x : Z) : Z := x mod 65536.

Definition is_byte (b : Z) : Prop := 0 <= b < 256.
Definition bytes (l : list Z) : Prop := Forall is_byte l.

(** ** SwitchBot constants *)

Definition SWITCHBOT_COMPANY_ID_LE0 : Z := 0x69.
Definition SWITCHBOT_COMPANY_ID_LE1 : Z := 0x09.
Definition SWITCHBOT_SVC_UUID16_LE0 : Z := 0x3d.
Definition SWITCHBOT_SVC_UUID16_LE1 : Z := 0xfd.

Definition OPCODE_PING : Z := 0x01.
Definition OPCODE_ECHO : Z := 0x02.
Definition OPCODE_BLE_START : Z := 0x10.
Definition OPCODE_BLE_STOP : Z := 0x11.
Definition OPCODE_LATEST : Z := 0x12.
Definition OPCODE_LATEST_FOR : Z := 0x13.

Definition MAX_DEVICES : Z := 12.
Definition MAX_BLE_DATA : Z := 31.

(** ** Reading a byte buffer

    A computation over an input buffer records the index of every byte it
    reads, and faults ([None]) when it reads outside the memory that backs the
    buffer or when a loop runs out of iterations. *)

Definition rd (A : Type) : Type := list Z -> option (A * list Z).

Definition rd_ret {A} (a : A) : rd A := fun tr => Some (a, tr).

Definition rd_bind {A B} (m : rd A) (k : A -> rd B) : rd B :=
  fun tr => match m tr with
            | Some (a, tr') => k a tr'
            | None => None
            end.

Definition rd_fault {A} : rd A := fun _ => None.

Notation "x <- m ;; k" := (rd_bind m (fun x => k))
  (at level 100, m at next level, right associativity).

(** [data[i]] *)
Definition load (data : list Z) (i : Z) : rd Z :=
  fun tr =>
    if bool_decide (0 <= i) then
      match data !! Z.to_nat i with
      | Some b => Some (b, tr ++ [i])
      | None => None
      end
    else None.

(** The [n] bytes at [p], [p + 1], ...: what [memcpy (_, data + p, n)] reads. *)
Definition slice (data : list Z) (p n : Z) : option (list Z) :=
  if bool_decide (0 <= p /\ 0 <= n /\ p + n <= Z.of_nat (length data)) then
    Some (take (Z.to_nat n) (drop (Z.to_nat p) data))
  else None.

(** ** Minimal ADV parser *)

(** The fields [mfg], [mfg_len], [svc] and [svc_len] of the C struct carry the
    prefix [adv_] here (the cache record has fields of the same names).
    [adv_mfg] and [adv_svc] point into the parsed buffer: [Some p] is
    [data + p], [None] is the null pointer left by [memset]. *)
Record adv_extract_t := {
  adv_mfg : option Z;
  adv_mfg_len : Z;
  adv_svc : option Z;
  adv_svc_len : Z;
  has_mfg : bool;
  has_svc : bool
}.

Definition adv_extract_init : adv_extract_t :=
  {| adv_mfg := None; adv_mfg_len := 0; adv_svc := None; adv_svc_len := 0;
     has_mfg := false; has_svc := false |}.

Definition set_adv_mfg (out : adv_extract_t) (val val_len : Z) : adv_extract_t :=
  {| adv_mfg := Some val; adv_mfg_len := val_len;
     adv_svc := adv_svc out; adv_svc_len := adv_svc_len out;
     has_mfg := true; has_svc := has_svc out |}.

Definition set_adv_svc (out : adv_extract_t) (val val_len : Z) : adv_extract_t :=
  {| adv_mfg := adv_mfg out; adv_mfg_len := adv_mfg_len out;
     adv_svc := Some (val + 2); adv_svc_len := u8 (val_len - 2);
     has_mfg := has_mfg out; has_svc := true |}.

(** The body of one iteration of the [while] loop, after the two [break]
    tests: the structure at [i] has length byte [len]. *)
Definition adv_structure (data : list Z) (i len : Z) (out : adv_extract_t)
  : rd adv_extract_t :=
  type <- load data (i + 1) ;;
  let val := i + 2 in
  let val_len := u8 (len - 1) in
  let out1 :=
    if (type =? 0xFF) && (2 <=? val_len) then set_adv_mfg out val val_len
    else out in
  if (type =? 0x16) && (2 <=? val_len) then
    v0 <- load data val ;;
    if v0 =? SWITCHBOT_SVC_UUID16_LE0 then
      v1 <- load data (val + 1) ;;
      if v1 =? SWITCHBOT_SVC_UUID16_LE1 then
        rd_ret (set_adv_svc out1 val val_len)
      else rd_ret out1
    else rd_ret out1
  else rd_ret out1.

(** [while (i < data_len) { ... }]; [fuel] bounds the number of iterations. *)
Fixpoint adv_loop (fuel : nat) (data : list Z) (data_len : Z) (i : Z)
    (out : adv_extract_t) : rd adv_extract_t :=
  if i <? data_len then
    match fuel with
    | O => rd_fault
    | S fuel' =>
        len <- load data i ;;
        if len =? 0 then rd_ret out
        else if u16 i + u16 len >=? u16 data_len then rd_ret out
        else
          out' <- adv_structure data i len out ;;
          adv_loop fuel' data data_len (u8 (i + 1 + len)) out'
    end
  else rd_ret out.

(** [data_len] is a [uint8_t] and every iteration advances [i] by two or
    more: 256 iterations are more than the loop can make. *)
Definition adv_extract (data : list Z) (data_len : Z) : rd adv_extract_t :=
  adv_loop 256 data data_len 0 adv_extract_init.

(** ** Cache (merge ADV_IND + SCAN_RSP) *)

Record device_cache_t := {
  addr : list Z;
  in_use : bool;
  rssi : Z;
  have_mfg : bool;
  mfg_len : Z;
  mfg : list Z;
  have_svc : bool;
  svc_len : Z;
  svc : list Z;
  device_id : Z;
  have_device_id : bool
}.

(** A zero-filled record: the static initial value and the result of
    [memset (&g_devices[i], 0, sizeof (g_devices[i]))]. *)
Definition zero_device : device_cache_t :=
  {| addr := replicate 6 0; in_use := false; rssi := 0;
     have_mfg := false; mfg_len := 0; mfg := replicate 31 0;
     have_svc := false; svc_len := 0; svc := replicate 31 0;
     device_id := 0; have_device_id := false |}.

#[export] Instance device_cache_inhabited : Inhabited device_cache_t :=
  populate zero_device.

#[export] Instance device_cache_eq_dec : EqDecision device_cache_t.
Proof. solve_decision. Defined.

Definition set_in_use_addr (d : device_cache_t) (a : list Z) : device_cache_t :=
  {| addr := a; in_use := true; rssi := rssi d;
     have_mfg := have_mfg d; mfg_len := mfg_len d; mfg := mfg d;
     have_svc := have_svc d; svc_len := svc_len d; svc := svc d;
     device_id := device_id d; have_device_id := have_device_id d |}.

Definition set_rssi (d : device_cache_t) (r : Z) : device_cache_t :=
  {| addr := addr d; in_use := in_use d; rssi := r;
     have_mfg := have_mfg d; mfg_len := mfg_len d; mfg := mfg d;
     have_svc := have_svc d; svc_len := svc_len d; svc := svc d;
     device_id := device_id d; have_device_id := have_device_id d |}.

Definition set_mfg (d : device_cache_t) (n : Z) (m : list Z) : device_cache_t :=
  {| addr := addr d; in_use := in_use d; rssi := rssi d;
     have_mfg := true; mfg_len := n; mfg := m;
     have_svc := have_svc d; svc_len := svc_len d; svc := svc d;
     device_id := device_id d; have_device_id := have_device_id d |}.

Definition set_svc (d : device_cache_t) (n : Z) (v : list Z) : device_cache_t :=
  {| addr := addr d; in_use := in_use d; rssi := rssi d;
     have_mfg := have_mfg d; mfg_len := mfg_len d; mfg := mfg d;
     have_svc := true; svc_len := n; svc := v;
     device_id := device_id d; have_device_id := have_device_id d |}.

Definition set_device_id (d : device_cache_t) (id : Z) : device_cache_t :=
  {| addr := addr d; in_use := in_use d; rssi := rssi d;
     have_mfg := have_mfg d; mfg_len := mfg_len d; mfg := mfg d;
     have_svc := have_svc d; svc_len := svc_len d; svc := svc d;
     device_id := id; have_device_id := true |}.

(** [memcpy (dst, src, n)] into a fixed array: the first [n] bytes of [dst]
    are replaced, the others stay. [src] holds the [n] bytes read. *)
Definition memcpy (dst src : list Z) : list Z :=
  src ++ drop (length src) dst.

(** [memcmp (a, b, 6) == 0] *)
Definition memcmp6 (a b : list Z) : bool :=
  bool_decide (take 6 a = take 6 b).

(** The global variables of the driver. [g_lock] is whether the mutex handle
    has been created; every critical section runs as one step. *)
Record globals := {
  g_devices : list device_cache_t;
  g_latest_index : Z;
  g_lock : bool;
  g_ble_started : bool
}.

Definition globals_init : globals :=
  {| g_devices := replicate (Z.to_nat MAX_DEVICES) zero_device;
     g_latest_index := -1; g_lock := false; g_ble_started := false |}.

Definition set_devices (g : globals) (ds : list device_cache_t) : globals :=
  {| g_devices := ds; g_latest_index := g_latest_index g;
     g_lock := g_lock g; g_ble_started := g_ble_started g |}.

Definition set_latest_index (g : globals) (i : Z) : globals :=
  {| g_devices := g_devices g; g_latest_index := i;
     g_lock := g_lock g; g_ble_started := g_ble_started g |}.

(** [g_devices[i]] and [g_devices[i] = d] *)
Definition dev (ds : list device_cache_t) (i : Z) : device_cache_t :=
  ds !!! Z.to_nat i.
Definition dev_set (ds : list device_cache_t) (i : Z) (d : device_cache_t)
  : list device_cache_t :=
  <[Z.to_nat i := d]> ds.

(** First loop of [cache_find_or_alloc]: [n] iterations from index [i]. *)
Fixpoint cache_find (ds : list device_cache_t) (a : list Z) (i : Z) (n : nat) : Z :=
  match n with
  | O => -1
  | S n' =>
      if in_use (dev ds i) && memcmp6 (addr (dev ds i)) a then i
      else cache_find ds a (i + 1) n'
  end.

(** Second loop of [cache_find_or_alloc]. *)
Fixpoint cache_alloc (ds : list device_cache_t) (a : list Z) (i : Z) (n : nat)
  : Z * list device_cache_t :=
  match n with
  | O => (-1, ds)
  | S n' =>
      if negb (in_use (dev ds i)) then
        (i, dev_set ds i (set_in_use_addr zero_device (take 6 a)))
      else cache_alloc ds a (i + 1) n'
  end.

Definition cache_find_or_alloc (a : list Z) (ds : list device_cache_t)
  : Z * list device_cache_t :=
  let i := cache_find ds a 0 (Z.to_nat MAX_DEVICES) in
  if 0 <=? i then (i, ds)
  else cache_alloc ds a 0 (Z.to_nat MAX_DEVICES).

Definition is_switchbot_mfg (m : list Z) (m_len : Z) : bool :=
  if m_len <? 2 then false
  else (m !!! 0%nat =? SWITCHBOT_COMPANY_ID_LE0)
       && (m !!! 1%nat =? SWITCHBOT_COMPANY_ID_LE1).

Definition update_device_id (d : device_cache_t) : device_cache_t :=
  if have_mfg d && (8 <=? mfg_len d) then
    set_device_id d
      (u16 (Z.lor (u16 (Z.shiftl (u16 (mfg d !!! 6%nat)) 8)) (u16 (mfg d !!! 7%nat))))
  else d.

(** The test shared by [maybe_mark_latest], [gap_event_cb] and the
    [OPCODE_LATEST_FOR] scan: both halves present and a SwitchBot company id. *)
Definition merged (d : device_cache_t) : bool :=
  have_mfg d && have_svc d && is_switchbot_mfg (mfg d) (mfg_len d).

Definition maybe_mark_latest (idx : Z) (g : globals) : bool * globals :=
  let d := dev (g_devices g) idx in
  if merged d then
    let g1 := set_devices g (dev_set (g_devices g) idx (update_device_id d)) in
    (true, set_latest_index g1 idx)
  else (false, g).

(** ** NimBLE gap callback *)

(** The fields of [struct ble_gap_disc_desc] the callback reads:
    [addr.val], [rssi], [data] and [length_data]. *)
Record ble_gap_disc_desc := {
  addr_val : list Z;
  desc_rssi : Z;
  data : list Z;
  length_data : Z
}.

Inductive ble_gap_event :=
  | BLE_GAP_EVENT_DISC (desc : ble_gap_disc_desc)
  | BLE_GAP_EVENT_DISC_COMPLETE
  | BLE_GAP_EVENT_OTHER.

(** What a call does outside the driver's own variables: calls into the radio
    stack and flash, and the [MERGED] log line with the record it prints. *)
Inductive effect :=
  | ble_gap_disc
  | ble_gap_disc_cancel
  | nvs_flash_erase
  | nimble_port_init
  | nimble_port_freertos_init
  | LOG_MERGED (d : device_cache_t).

Definition start_scan : list effect := [ble_gap_disc].
Definition stop_scan : list effect := [ble_gap_disc_cancel].

(** [memcpy (dst, src, n)] where [src] points into the event's buffer. *)
Definition memcpy_from (dst : list Z) (buf : list Z) (src : option Z) (n : Z)
  : option (list Z) :=
  match src with
  | Some p => match slice buf p n with
              | Some s => Some (memcpy dst s)
              | None => None
              end
  | None => None
  end.

(** The [BLE_GAP_EVENT_DISC] case between [xSemaphoreTake] and
    [xSemaphoreGive], for the slot [idx >= 0]. *)
Definition gap_disc_update (desc : ble_gap_disc_desc) (ex : adv_extract_t)
    (idx : Z) (g : globals) : option (globals * list effect) :=
  let d := dev (g_devices g) idx in
  let was_merged := merged d in
  let d1 := set_rssi d (desc_rssi desc) in
  d2 ← (if has_mfg ex && (adv_mfg_len ex <=? MAX_BLE_DATA) then
          m ← memcpy_from (mfg d1) (data desc) (adv_mfg ex) (adv_mfg_len ex);
          Some (set_mfg d1 (adv_mfg_len ex) m)
        else Some d1);
  d3 ← (if has_svc ex && (adv_svc_len ex <=? MAX_BLE_DATA) then
          v ← memcpy_from (svc d2) (data desc) (adv_svc ex) (adv_svc_len ex);
          Some (set_svc d2 (adv_svc_len ex) v)
        else Some d2);
  let g1 := set_devices g (dev_set (g_devices g) idx d3) in
  let '(merged_now, g2) := maybe_mark_latest idx g1 in
  Some (g2, if negb was_merged && merged_now
            then [LOG_MERGED (dev (g_devices g2) idx)] else []).

(** [None] is a read outside the event's buffer. The C function returns 0 in
    every case. *)
Definition gap_event_cb (event : ble_gap_event) (g : globals)
  : option (globals * list effect) :=
  match event with
  | BLE_GAP_EVENT_DISC desc =>
      match adv_extract (data desc) (length_data desc) [] with
      | None => None
      | Some (ex, _) =>
          if negb (has_mfg ex) && negb (has_svc ex) then Some (g, [])
          else
            let a := take 6 (addr_val desc) in
            let '(idx, ds) := cache_find_or_alloc a (g_devices g) in
            if 0 <=? idx then gap_disc_update desc ex idx (set_devices g ds)
            else Some (set_devices g ds, [])
      end
  | BLE_GAP_EVENT_DISC_COMPLETE => Some (g, start_scan)
  | BLE_GAP_EVENT_OTHER => Some (g, [])
  end.

(** ** Port call handling *)

Inductive term :=
  | term_binary (b : list Z)
  | term_other.

Inductive esp_err_t :=
  | ESP_OK
  | ESP_ERR_NVS_NO_FREE_PAGES
  | ESP_ERR_NVS_NEW_VERSION_FOUND
  | ESP_FAIL.

(** What flash answers to the first and to the second [nvs_flash_init]. *)
Record platform := {
  nvs_flash_init_1 : esp_err_t;
  nvs_flash_init_2 : esp_err_t
}.

Definition make_error (code : Z) : list Z := [0x01; code].

Definition make_ok_with_payload (payload : list Z) (payload_len : Z) : list Z :=
  0x00 :: (if 0 <? payload_len then take (Z.to_nat payload_len) payload else []).

Definition reply_latest (d : device_cache_t) : list Z :=
  [0x00] ++ take 6 (addr d) ++ [u8 (rssi d)]
    ++ [svc_len d] ++ take (Z.to_nat (svc_len d)) (svc d)
    ++ [mfg_len d] ++ take (Z.to_nat (mfg_len d)) (mfg d).

(** The scan of [OPCODE_LATEST_FOR]: [n] iterations from index [i]; returns
    [found] and the array, on which [update_device_id] has run. *)
Fixpoint latest_for_scan (wanted : Z) (ds : list device_cache_t) (i : Z) (n : nat)
  : Z * list device_cache_t :=
  match n with
  | O => (-1, ds)
  | S n' =>
      if negb (in_use (dev ds i)) then latest_for_scan wanted ds (i + 1) n'
      else if negb (have_mfg (dev ds i)) || negb (have_svc (dev ds i)) then
        latest_for_scan wanted ds (i + 1) n'
      else if negb (is_switchbot_mfg (mfg (dev ds i)) (mfg_len (dev ds i))) then
        latest_for_scan wanted ds (i + 1) n'
      else
        let ds' := dev_set ds i (update_device_id (dev ds i)) in
        if have_device_id (dev ds' i) && (device_id (dev ds' i) =? wanted)
        then (i, ds')
        else latest_for_scan wanted ds' (i + 1) n'
  end.

Definition set_started (g : globals) : globals :=
  {| g_devices := g_devices g; g_latest_index := g_latest_index g;
     g_lock := true; g_ble_started := true |}.

Definition is_ok (e : esp_err_t) : bool :=
  match e with ESP_OK => true | _ => false end.

Definition needs_erase (e : esp_err_t) : bool :=
  match e with
  | ESP_ERR_NVS_NO_FREE_PAGES | ESP_ERR_NVS_NEW_VERSION_FOUND => true
  | _ => false
  end.

Definition handle_call (env : platform) (req : term) (g : globals)
  : list Z * globals * list effect :=
  match req with
  | term_other => (make_error 0x10, g, [])
  | term_binary bin =>
      let len := Z.of_nat (length bin) in
      if len <? 1 then (make_error 0x11, g, [])
      else
        let opcode := bin !!! 0%nat in
        if opcode =? OPCODE_PING then
          (make_ok_with_payload [0x50; 0x4F; 0x4E; 0x47] 4, g, [])
        else if opcode =? OPCODE_ECHO then
          (make_ok_with_payload (drop 1 bin) (len - 1), g, [])
        else if opcode =? OPCODE_BLE_START then
          if negb (g_ble_started g) then
            let erase := needs_erase (nvs_flash_init_1 env) in
            let err := if erase then nvs_flash_init_2 env else nvs_flash_init_1 env in
            let fx := if erase then [nvs_flash_erase] else [] in
            if negb (is_ok err) then (make_error 0x30, g, fx)
            else (make_ok_with_payload [0x01] 1, set_started g,
                  fx ++ [nimble_port_init; nimble_port_freertos_init])
          else (make_ok_with_payload [0x01] 1, g, start_scan)
        else if opcode =? OPCODE_BLE_STOP then
          if negb (g_ble_started g) then (make_error 0x32, g, [])
          else (make_ok_with_payload [0x01] 1, g, stop_scan)
        else if opcode =? OPCODE_LATEST then
          if negb (g_ble_started g) then (make_error 0x40, g, [])
          else
            let idx := g_latest_index g in
            if idx <? 0 then (make_error 0x41, g, [])
            else (reply_latest (dev (g_devices g) idx), g, [])
        else if opcode =? OPCODE_LATEST_FOR then
          if negb (g_ble_started g) then (make_error 0x40, g, [])
          else if len <? 1 + 2 then (make_error 0x42, g, [])
          else
            let wanted :=
              u16 (Z.lor (u16 (Z.shiftl (u16 (bin !!! 1%nat)) 8))
                         (u16 (bin !!! 2%nat))) in
            let '(found, ds) :=
              latest_for_scan wanted (g_devices g) 0 (Z.to_nat MAX_DEVICES) in
            if found <? 0 then (make_error 0x43, set_devices g ds, [])
            else (reply_latest (dev ds found), set_devices g ds, [])
        else (make_error 0x12, g, [])
  end.

(** ** The driver as a transition system

    The radio stack delivers gap events and the scheduler delivers port
    calls; each is one step on the globals. *)

Inductive input :=
  | in_event (event : ble_gap_event)
  | in_call (env : platform) (req : term).

(** What the outside sees of a step: the reply of a call, and the effects. *)
Definition step (i : input) (g : globals)
  : option (globals * option (list Z) * list effect) :=
  match i with
  | in_event event =>
      match gap_event_cb event g with
      | Some (g', fx) => Some (g', None, fx)
      | None => None
      end
  | in_call env req =>
      let '(reply, g', fx) := handle_call env req g in
      Some (g', Some reply, fx)
  end.

Fixpoint run (ins : list input) (g : globals) : option globals :=
  match ins with
  | [] => Some g
  | i :: ins' =>
      match step i g with
      | Some (g', _, _) => run ins' g'
      | None => None
      end
  end.

(** ** AD structures, as the format describes them

    A buffer is a concatenation of structures [length][type][value...], where
    [length] counts the type byte and the value bytes. *)

Abbreviation zlen l := (Z.of_nat (length l)).

Record ad_structure := {
  ad_type : Z;
  ad_value : list Z
}.

Definition ad_encode (s : ad_structure) : list Z :=
  (1 + zlen (ad_value s)) :: ad_type s :: ad_value s.

Definition ad_encode_all (ss : list ad_structure) : list Z :=
  concat (ad_encode <$> ss).

(** Where the iteration stops: the end of the buffer, a zero length byte, or
    a length byte that announces more bytes than are left. *)
Definition ad_stops (tail : list Z) : Prop :=
  match tail with
  | [] => True
  | l :: rest => l = 0 \/ zlen rest < l
  end.

Definition ad_is_mfg (s : ad_structure) : bool :=
  (ad_type s =? 0xFF) && (2 <=? zlen (ad_value s)).

(** Service data whose value starts with the UUID 0xFD3D, little-endian. *)
Definition ad_is_target_svc (s : ad_structure) : bool :=
  (ad_type s =? 0x16) && (2 <=? zlen (ad_value s))
  && bool_decide (take 2 (ad_value s) = [0x3d; 0xfd]).

(** The fields after the structure [s], whose value starts at offset [off]. *)
Definition ad_field (off : Z) (s : ad_structure) (out : adv_extract_t)
  : adv_extract_t :=
  let out1 :=
    if ad_is_mfg s then set_adv_mfg out off (zlen (ad_value s)) else out in
  if ad_is_target_svc s then
    {| adv_mfg := adv_mfg out1; adv_mfg_len := adv_mfg_len out1;
       adv_svc := Some (off + 2); adv_svc_len := zlen (ad_value s) - 2;
       has_mfg := has_mfg out1; has_svc := true |}
  else out1.

(** The fields after the structures [ss], the first of which starts at
    offset [i]. *)
Fixpoint ad_fields (i : Z) (ss : list ad_structure) (out : adv_extract_t)
  : adv_extract_t :=
  match ss with
  | [] => out
  | s :: ss' =>
      ad_fields (i + 2 + zlen (ad_value s)) ss' (ad_field (i + 2) s out)
  end.

(** The slices of [out] lie inside the first [n] bytes of the buffer. *)
Definition adv_in_bounds (n : Z) (out : adv_extract_t) : Prop :=
  (has_mfg out = true ->
     exists p, adv_mfg out = Some p /\ 0 <= p /\ 2 <= adv_mfg_len out /\
               p + adv_mfg_len out <= n)
  /\ (has_svc out = true ->
     exists p, adv_svc out = Some p /\ 0 <= p /\ 0 <= adv_svc_len out /\
               p + adv_svc_len out <= n).

(** ** Well-formed inputs and states *)

(** A discovery event as the radio stack delivers it: a six-byte address, a
    signed byte of signal strength, and a buffer of at least the declared
    length. *)
Definition wf_desc (desc : ble_gap_disc_desc) : Prop :=
  length (addr_val desc) = 6%nat /\
  -128 <= desc_rssi desc <= 127 /\
  bytes (data desc) /\
  0 <= length_data desc <= 255 /\
  length_data desc <= zlen (data desc).

Definition wf_event (event : ble_gap_event) : Prop :=
  match event with
  | BLE_GAP_EVENT_DISC desc => wf_desc desc
  | _ => True
  end.

Definition wf_input (i : input) : Prop :=
  match i with
  | in_event event => wf_event event
  | in_call _ _ => True
  end.

(** The states the driver can be in: from the initial values of the globals,
    any sequence of well-formed events and port calls. *)
Definition reachable (g : globals) : Prop :=
  exists ins, Forall wf_input ins /\ run ins globals_init = Some g.

(** The bytes an event carries for a field: the [n] bytes at [src]. *)
Definition field_bytes (buf : list Z) (src : option Z) (n : Z) : list Z :=
  match src with
  | Some p => take (Z.to_nat n) (drop (Z.to_nat p) buf)
  | None => []
  end.

(** The record of the event's address after the three conditional stores of
    [gap_event_cb], before [maybe_mark_latest]. *)
Definition disc_record (desc : ble_gap_disc_desc) (ex : adv_extract_t)
    (d : device_cache_t) : device_cache_t :=
  let d1 := set_rssi d (desc_rssi desc) in
  let d2 :=
    if has_mfg ex && (adv_mfg_len ex <=? MAX_BLE_DATA) then
      set_mfg d1 (adv_mfg_len ex)
        (memcpy (mfg d1) (field_bytes (data desc) (adv_mfg ex) (adv_mfg_len ex)))
    else d1 in
  if has_svc ex && (adv_svc_len ex <=? MAX_BLE_DATA) then
    set_svc d2 (adv_svc_len ex)
      (memcpy (svc d2) (field_bytes (data desc) (adv_svc ex) (adv_svc_len ex)))
  else d2.

(** The [BLE_GAP_EVENT_DISC] case once the parser has returned [ex] and
    every read of the buffer is in range. *)
Definition disc_update (desc : ble_gap_disc_desc) (ex : adv_extract_t)
    (idx : Z) (g : globals) : globals * list effect :=
  let d := dev (g_devices g) idx in
  let g1 := set_devices g (dev_set (g_devices g) idx (disc_record desc ex d)) in
  let '(merged_now, g2) := maybe_mark_latest idx g1 in
  (g2, if negb (merged d) && merged_now
       then [LOG_MERGED (dev (g_devices g2) idx)] else []).

Definition disc_step (desc : ble_gap_disc_desc) (ex : adv_extract_t)
    (g : globals) : globals * list effect :=
  if negb (has_mfg ex) && negb (has_svc ex) then (g, [])
  else
    let '(idx, ds) := cache_find_or_alloc (take 6 (addr_val desc)) (g_devices g) in
    if 0 <=? idx then disc_update desc ex idx (set_devices g ds)
    else (set_devices g ds, []).

(** What the [OPCODE_LATEST_FOR] scan tests on a slot. *)
Definition id_matches (wanted : Z) (d : device_cache_t) : bool :=
  in_use d && merged d
  && have_device_id (update_device_id d)
  && (device_id (update_device_id d) =? wanted).

(** The reply of a call. *)
Definition reply_of (r : list Z * globals * list effect) : list Z := r.1.1.
Definition globals_of (r : list Z * globals * list effect) : globals := r.1.2.

(** The two shapes of the reply envelope. *)
Definition is_success (reply : list Z) : Prop :=
  exists payload, reply = 0x00 :: payload.
Definition is_error (reply : list Z) : Prop :=
  exists code, reply = [0x01; code].

(** A platform on which flash initialises at once. *)
Definition platform_ok : platform :=
  {| nvs_flash_init_1 := ESP_OK; nvs_flash_init_2 := ESP_OK |}.

(** The id a [LATEST_FOR] request asks for. *)
Definition wanted_id (b1 b2 : Z) : Z :=
  u16 (Z.lor (u16 (Z.shiftl (u16 b1) 8)) (u16 b2)).

(** ** Sample advertisements *)

Definition addr_A : list Z := [0x00; 0x11; 0x22; 0x33; 0x44; 0x55].
Definition addr_B : list Z := [0x66; 0x77; 0x88; 0x99; 0xAA; 0xBB].

(** A discovery event whose buffer is exactly [l]. *)
Definition disc (a : list Z) (r : Z) (l : list Z) : ble_gap_event :=
  BLE_GAP_EVENT_DISC
    {| addr_val := a; desc_rssi := r; data := l; length_data := zlen l |}.

(** Manufacturer data of eight bytes with the SwitchBot company id and
    bytes 6 and 7 equal to 0x12 0x34. *)
Definition adv_mfg8 : list Z :=
  [0x09; 0xFF; 0x69; 0x09; 0x01; 0x02; 0x03; 0x04; 0x12; 0x34].
(** Manufacturer data of two bytes: the SwitchBot company id alone. *)
Definition adv_mfg2 : list Z := [0x03; 0xFF; 0x69; 0x09].
(** Manufacturer data of another company (0x004C). *)
Definition adv_mfg_other : list Z := [0x05; 0xFF; 0x4C; 0x00; 0x10; 0x05].
(** Service data for UUID 0xFD3D with payload AA BB. *)
Definition adv_svc2 : list Z := [0x05; 0x16; 0x3d; 0xfd; 0xAA; 0xBB].
(** Flags only: neither manufacturer nor service data. *)
Definition adv_flags : list Z := [0x02; 0x01; 0x06].

(** [RADIO_START] on a platform whose flash initialises. *)
Definition radio_start : input := in_call platform_ok (term_binary [OPCODE_BLE_START]).

(** A reading of address A completed after [RADIO_START], followed by
    manufacturer data of two bytes, or of another company, for A. *)
Definition run_completed : list input :=
  [radio_start;
   in_event (disc addr_A (-60) adv_mfg8);
   in_event (disc addr_A (-58) adv_svc2)].
Definition run_short_payload : list input :=
  run_completed ++ [in_event (disc addr_A (-57) adv_mfg2)].
Definition run_other_company : list input :=
  run_completed ++ [in_event (disc addr_A (-57) adv_mfg_other)].

(** An event that carries manufacturer data alone, within the cap and with
    the SwitchBot company id; an event that carries service data alone,
    within the cap. *)
Definition mfg_only (desc : ble_gap_disc_desc) : Prop :=
  exists ex tr rest,
    adv_extract (data desc) (length_data desc) [] = Some (ex, tr) /\
    has_mfg ex = true /\ has_svc ex = false /\
    adv_mfg_len ex <= MAX_BLE_DATA /\
    field_bytes (data desc) (adv_mfg ex) (adv_mfg_len ex)
      = SWITCHBOT_COMPANY_ID_LE0 :: SWITCHBOT_COMPANY_ID_LE1 :: rest.

Definition svc_only (desc : ble_gap_disc_desc) : Prop :=
  exists ex tr,
    adv_extract (data desc) (length_data desc) [] = Some (ex, tr) /\
    has_mfg ex = false /\ has_svc ex = true /\
    adv_svc_len ex <= MAX_BLE_DATA.

(** ** The addresses in the table *)

(** Whether the parser finds a field in the event's buffer. *)
Definition carries_field (desc : ble_gap_disc_desc) : bool :=
  match adv_extract (data desc) (length_data desc) [] with
  | Some (ex, _) => has_mfg ex || has_svc ex
  | None => false
  end.

(** The address an input brings to [cache_find_or_alloc], if any. *)
Definition ingested_addr (i : input) : option (list Z) :=
  match i with
  | in_event (BLE_GAP_EVENT_DISC desc) =>
      if carries_field desc then Some (take 6 (addr_val desc)) else None
  | _ => None
  end.

Definition ingested_addrs (ins : list input) : list (list Z) :=
  omap ingested_addr ins.

(** The table of addresses after one more address: a new address is appended
    while fewer than twelve are held. *)
Definition add_slot (tbl : list (list Z)) (a : list Z) : list (list Z) :=
  if decide (a ∈ tbl) then tbl
  else if decide (zlen tbl < MAX_DEVICES) then tbl ++ [a]
  else tbl.

(** The device array holds the addresses [tbl], in order, in its first
    slots, and its other slots are free. *)
Definition holds (ds : list device_cache_t) (tbl : list (list Z)) : Prop :=
  length ds = 12%nat /\
  zlen tbl <= MAX_DEVICES /\
  NoDup tbl /\
  (forall a, a ∈ tbl -> take 6 a = a) /\
  forall j, 0 <= j < MAX_DEVICES ->
    in_use (dev ds j) = bool_decide (j < zlen tbl) /\
    forall a, tbl !! Z.to_nat j = Some a -> addr (dev ds j) = a.

(** Twelve events for twelve addresses, each with service data. *)
Definition sample_addr (k : Z) : list Z := [k; 0; 0; 0; 0; 0].
Definition sample_fill : list input :=
  (fun k => in_event (disc (sample_addr k) (-60) adv_svc2)) <$> seqZ 0 12.

(** The cache after [sample_fill]. *)
Definition sample_full : globals :=
  default globals_init (run sample_fill globals_init).

(** ** Invariants of the cache *)

(** The arrays of a record keep their sizes, the stored lengths stay within
    [MAX_BLE_DATA], and every stored value fits its C type. *)
Definition wf_device (d : device_cache_t) : Prop :=
  length (addr d) = 6%nat /\
  length (mfg d) = 31%nat /\ length (svc d) = 31%nat /\
  0 <= mfg_len d <= MAX_BLE_DATA /\ 0 <= svc_len d <= MAX_BLE_DATA /\
  bytes (mfg d) /\ bytes (svc d) /\
  -128 <= rssi d <= 127 /\ 0 <= device_id d < 65536.

(** What holds of the globals in every reachable state. *)
Definition cache_inv (g : globals) : Prop :=
  length (g_devices g) = 12%nat /\
  (forall j, 0 <= j < MAX_DEVICES -> wf_device (dev (g_devices g) j)) /\
  (forall j, 0 <= j < MAX_DEVICES ->
     in_use (dev (g_devices g) j) = false -> dev (g_devices g) j = zero_device) /\
  -1 <= g_latest_index g < MAX_DEVICES /\
  (0 <= g_latest_index g ->
     in_use (dev (g_devices g) (g_latest_index g)) = true /\
     have_mfg (dev (g_devices g) (g_latest_index g)) = true /\
     have_svc (dev (g_devices g) (g_latest_index g)) = true) /\
  (forall j, 0 <= j < MAX_DEVICES ->
     merged (dev (g_devices g) j) = true -> 0 <= g_latest_index g).

(** Nothing is freed or forgotten between [g] and [g']: slots in use stay
    in use with their address, flags that are set stay set, and a latest
    index stays. *)
Definition grows (g g' : globals) : Prop :=
  (forall j, 0 <= j < MAX_DEVICES ->
     (in_use (dev (g_devices g) j) = true ->
        in_use (dev (g_devices g') j) = true /\
        addr (dev (g_devices g') j) = addr (dev (g_devices g) j)) /\
     (have_mfg (dev (g_devices g) j) = true ->
        have_mfg (dev (g_devices g') j) = true) /\
     (have_svc (dev (g_devices g) j) = true ->
        have_svc (dev (g_devices g') j) = true) /\
     (have_device_id (dev (g_devices g) j) = true ->
        have_device_id (dev (g_devices g') j) = true)) /\
  (0 <= g_latest_index g -> 0 <= g_latest_index g') /\
  (g_ble_started g = true -> g_ble_started g' = true).

(** ** Native handler *)

(** A mailbox message as [port_parse_gen_message] classifies it: a call with
    the caller's pid, the reference and the request, or anything else. *)
Inductive message :=
  | GenCallMessage (pid ref : Z) (req : term)
  | GenOtherMessage.

Inductive NativeHandlerResult :=
  | NativeContinue
  | NativeTerminate.

(** [port_send_reply (ctx, pid, ref, reply)] *)
Record sent_reply := {
  to_pid : Z;
  to_ref : Z;
  reply_term : list Z
}.

(** One invocation: the mailbox left, the globals, the replies sent and the
    effects of the call. *)
Definition sample_app_port_native_handler (env : platform)
    (mailbox : list message) (g : globals)
  : NativeHandlerResult * list message * globals * list sent_reply * list effect :=
  match mailbox with
  | [] => (NativeContinue, [], g, [], [])
  | msg :: mailbox' =>
      match msg with
      | GenOtherMessage => (NativeContinue, mailbox', g, [], [])
      | GenCallMessage pid ref req =>
          let '(reply, g', fx) := handle_call env req g in
          (NativeContinue, mailbox', g',
           [{| to_pid := pid; to_ref := ref; reply_term := reply |}], fx)
      end
  end.

(** [n] invocations in a row: the mailbox, the globals and every reply sent,
    in order. *)
Fixpoint native_handler_iter (env : platform) (n : nat)
    (mailbox : list message) (g : globals)
  : list message * globals * list sent_reply :=
  match n with
  | O => (mailbox, g, [])
  | S n' =>
      let '(_, mailbox', g', sent, _) :=
        sample_app_port_native_handler env mailbox g in
      let '(mailbox'', g'', sent') := native_handler_iter env n' mailbox' g' in
      (mailbox'', g'', sent ++ sent')
  end.

(** The callers a mailbox holds, in order. *)
Definition callers (mailbox : list message) : list (Z * Z) :=
  omap (fun m => match m with
                 | GenCallMessage pid ref _ => Some (pid, ref)
                 | GenOtherMessage => None
                 end) mailbox.

(** The cache after [run_completed]. *)
Definition sample_completed : globals :=
  default globals_init (run run_completed globals_init).

(** What the parser returns on [adv_mfg8]. *)
Definition ex_mfg8 : adv_extract_t :=
  {| adv_mfg := Some 2; adv_mfg_len := 8; adv_svc := None; adv_svc_len := 0;
     has_mfg := true; has_svc := false |}.

(** The descriptor of [disc a r l]. *)
Definition desc_of (a : list Z) (r : Z) (l : list Z) : ble_gap_disc_desc :=
  {| addr_val := a; desc_rssi := r; data := l; length_data := zlen l |}.

(** The cache after [RADIO_START] and the manufacturer advertisement of
    [run_completed], before the service advertisement. *)
Definition sample_half : globals :=
  default globals_init (run (take 2 run_completed) globals_init).

(** Addresses A and then B each complete a reading: the index is B's
    slot 1 while A's record in slot 0 is still a valid merged reading. *)
Definition run_two_completed : list input :=
  [in_event (disc addr_A (-60) adv_mfg8);
   in_event (disc addr_A (-58) adv_svc2);
   in_event (disc addr_B (-70) adv_mfg8);
   in_event (disc addr_B (-71) adv_svc2)].
Definition sample_two : globals :=
  default globals_init (run run_two_completed globals_init).

(** * Properties *)

(** ** The parser follows the structures of the buffer *)

Lemma load_Some data i b tr :
  0 <= i -> data !! Z.to_nat i = Some b -> load data i tr = Some (b, tr ++ [i]).
Proof.
  intros Hi Hb. unfold load. rewrite bool_decide_true by done. by rewrite Hb.
Qed.

Lemma u8_small x : 0 <= x < 256 -> u8 x = x.
Proof. intros. unfold u8. by apply Z.mod_small. Qed.

Lemma u16_small x : 0 <= x < 65536 -> u16 x = x.
Proof. intros. unfold u16. by apply Z.mod_small. Qed.

Section parser.
Variables (data : list Z) (data_len : Z).
Hypothesis data_len_u8 : 0 <= data_len <= 255.
Hypothesis data_len_le : data_len <= zlen data.
Hypothesis data_bytes : bytes data.

Let buf := take (Z.to_nat data_len) data.

Lemma buf_lookup (k : nat) b : buf !! k = Some b -> data !! k = Some b.
Proof.
  unfold buf. intros H. apply lookup_take_Some in H. tauto.
Qed.

Lemma buf_length : zlen buf = data_len.
Proof using data_len_u8 data_len_le. unfold buf. rewrite length_take. lia. Qed.

Lemma buf_bytes : bytes buf.
Proof using data_bytes. unfold buf, bytes in *. by apply Forall_take. Qed.

(** One iteration on a complete structure. *)
Lemma adv_loop_structure fuel pre s rest out tr :
  buf = pre ++ ad_encode s ++ rest ->
  exists extra,
    Forall (fun j => zlen pre <= j < zlen pre + 2 + zlen (ad_value s)) extra /\
    adv_loop (S fuel) data data_len (zlen pre) out tr =
    adv_loop fuel data data_len (zlen pre + 2 + zlen (ad_value s))
      (ad_field (zlen pre + 2) s out) (tr ++ extra).
Proof.
  intros Hbuf.
  destruct s as [type value]. cbn [ad_type ad_value] in *.
  pose proof buf_length as Hbl. rewrite Hbuf in Hbl.
  rewrite !length_app in Hbl. cbn [ad_encode ad_value ad_type length] in *.
  assert (Hat : forall (k : nat) b,
    (ad_encode {| ad_type := type; ad_value := value |} ++ rest) !! k = Some b ->
    data !! Z.to_nat (zlen pre + Z.of_nat k) = Some b).
  { intros k b Hk. apply buf_lookup. rewrite Hbuf.
    replace (Z.to_nat (zlen pre + Z.of_nat k)) with (length pre + k)%nat by lia.
    by rewrite lookup_app_r, Nat.add_comm, Nat.add_sub by lia. }
  cbn [adv_loop].
  replace (zlen pre <? data_len) with true by (symmetry; apply Z.ltb_lt; lia).
  unfold rd_bind at 1.
  rewrite (load_Some data (zlen pre) (1 + zlen value)); [|lia|].
  2:{ specialize (Hat 0%nat (1 + zlen value)). rewrite Z.add_0_r in Hat. by apply Hat. }
  replace (1 + zlen value =? 0) with false by (symmetry; apply Z.eqb_neq; lia).
  rewrite !u16_small by lia.
  replace (zlen pre + (1 + zlen value) >=? data_len) with false
    by (symmetry; rewrite Z.geb_leb; apply Z.leb_gt; lia).
  rewrite (u8_small (zlen pre + 1 + (1 + zlen value))) by lia.
  replace (zlen pre + 1 + (1 + zlen value)) with (zlen pre + 2 + zlen value) by lia.
  unfold rd_bind at 1. unfold adv_structure. unfold rd_bind at 1.
  rewrite (load_Some data (zlen pre + 1) type); [|lia|].
  2:{ by apply (Hat 1%nat). }
  replace (1 + zlen value - 1) with (zlen value) by lia.
  rewrite (u8_small (zlen value)) by lia.
  unfold ad_field, ad_is_mfg, ad_is_target_svc. cbn [ad_type ad_value].
  set (out1 := if (type =? 255) && (2 <=? zlen value) then _ else out).
  destruct ((type =? 22) && (2 <=? zlen value)) eqn:Hsvc; cbn [andb].
  - apply andb_true_iff in Hsvc as [_ Hn]. apply Z.leb_le in Hn.
    destruct value as [|v0 [|v1 value']]; cbn [length] in Hn; try lia.
    unfold rd_bind at 1.
    rewrite (load_Some data (zlen pre + 2) v0); [|lia|].
    2:{ by apply (Hat 2%nat). }
    cbn [take]. 
    destruct (v0 =? SWITCHBOT_SVC_UUID16_LE0) eqn:H0.
    + unfold rd_bind at 1.
      rewrite (load_Some data (zlen pre + 2 + 1) v1); [|lia|].
      2:{ replace (zlen pre + 2 + 1) with (zlen pre + Z.of_nat 3) by lia.
          by apply (Hat 3%nat). }
      apply Z.eqb_eq in H0. unfold SWITCHBOT_SVC_UUID16_LE0 in H0. subst v0.
      destruct (v1 =? SWITCHBOT_SVC_UUID16_LE1) eqn:H1.
      * apply Z.eqb_eq in H1. unfold SWITCHBOT_SVC_UUID16_LE1 in H1. subst v1.
        rewrite bool_decide_true by done.
        exists [zlen pre; zlen pre + 1; zlen pre + 2; zlen pre + 2 + 1]. split.
        { repeat constructor; cbn [length]; lia. }
        unfold rd_ret, set_adv_svc.
        rewrite (u8_small (zlen (61 :: 253 :: value') - 2))
          by (cbn [length] in *; lia).
        by rewrite <- !(assoc_L (++)).
      * apply Z.eqb_neq in H1. unfold SWITCHBOT_SVC_UUID16_LE1 in H1.
        rewrite bool_decide_false by congruence.
        exists [zlen pre; zlen pre + 1; zlen pre + 2; zlen pre + 2 + 1]. split.
        { repeat constructor; cbn [length]; lia. }
        unfold rd_ret. by rewrite <- !(assoc_L (++)).
    + apply Z.eqb_neq in H0. unfold SWITCHBOT_SVC_UUID16_LE0 in H0.
      rewrite bool_decide_false by congruence.
      exists [zlen pre; zlen pre + 1; zlen pre + 2]. split.
      { repeat constructor; cbn [length]; lia. }
      unfold rd_ret. by rewrite <- !(assoc_L (++)).
  - exists [zlen pre; zlen pre + 1]. split.
    { repeat constructor; lia. }
    unfold rd_ret. by rewrite <- !(assoc_L (++)).
Qed.

(** The iteration that stops. *)
Lemma adv_loop_stops fuel pre tail out tr :
  buf = pre ++ tail -> ad_stops tail ->
  exists extra,
    Forall (fun j => zlen pre <= j < data_len) extra /\
    adv_loop (S fuel) data data_len (zlen pre) out tr = Some (out, tr ++ extra).
Proof using data_len_u8 data_len_le data_bytes.
  intros Hbuf Hstop.
  pose proof buf_length as Hbl. pose proof buf_bytes as Hby.
  rewrite Hbuf in Hbl, Hby. rewrite length_app in Hbl.
  destruct tail as [|l rest]; cbn [adv_loop].
  - cbn [length] in Hbl.
    replace (zlen pre <? data_len) with false by (symmetry; apply Z.ltb_ge; lia).
    exists []. split; [constructor|]. unfold rd_ret. by rewrite app_nil_r.
  - cbn [length] in Hbl.
    replace (zlen pre <? data_len) with true by (symmetry; apply Z.ltb_lt; lia).
    assert (Hl : is_byte l).
    { apply Forall_app in Hby as [_ Hby]. by apply Forall_cons in Hby as [? _]. }
    unfold is_byte in Hl.
    unfold rd_bind at 1.
    rewrite (load_Some data (zlen pre) l); [|lia|].
    2:{ apply buf_lookup. rewrite Hbuf, Nat2Z.id.
        by rewrite lookup_app_r, Nat.sub_diag by lia. }
    exists [zlen pre]. split; [repeat constructor; lia|].
    destruct (l =? 0) eqn:H0; [done|].
    apply Z.eqb_neq in H0. cbn [ad_stops] in Hstop.
    rewrite !u16_small by lia.
    replace (zlen pre + l >=? data_len) with true; [done|].
    symmetry. rewrite Z.geb_leb. apply Z.leb_le. lia.
Qed.

Lemma ad_encode_length s : length (ad_encode s) = S (S (length (ad_value s))).
Proof. reflexivity. Qed.

(** The whole loop: the structures of the buffer in turn, then the stop. *)
Lemma adv_loop_structs ss : forall fuel pre tail out tr,
  buf = pre ++ ad_encode_all ss ++ tail -> ad_stops tail ->
  (length ss < fuel)%nat ->
  exists extra,
    Forall (fun j => zlen pre <= j < data_len) extra /\
    adv_loop fuel data data_len (zlen pre) out tr =
      Some (ad_fields (zlen pre) ss out, tr ++ extra).
Proof using data_len_u8 data_len_le data_bytes.
  induction ss as [|s ss IH]; intros fuel pre tail out tr Hbuf Hstop Hfuel.
  - destruct fuel as [|fuel]; [cbn [length] in Hfuel; lia|].
    cbn [ad_fields]. by apply (adv_loop_stops fuel pre tail).
  - destruct fuel as [|fuel]; [lia|].
    unfold ad_encode_all in Hbuf. rewrite fmap_cons in Hbuf. cbn [concat] in Hbuf.
    rewrite <- (assoc_L (++)) in Hbuf.
    destruct (adv_loop_structure fuel pre s _ out tr Hbuf) as (e1 & He1 & ->).
    pose proof buf_length as Hbl. rewrite Hbuf in Hbl.
    rewrite !length_app, ad_encode_length in Hbl.
    rewrite (assoc_L (++)) in Hbuf.
    destruct (IH fuel (pre ++ ad_encode s) tail (ad_field (zlen pre + 2) s out)
                (tr ++ e1) Hbuf Hstop) as (e2 & He2 & Heq).
    { cbn [length] in Hfuel. lia. }
    rewrite length_app, ad_encode_length in Heq, He2.
    replace (Z.of_nat (length pre + S (S (length (ad_value s))))) with
      (zlen pre + 2 + zlen (ad_value s)) in Heq, He2 by lia.
    exists (e1 ++ e2). split.
    + apply Forall_app. split.
      * eapply Forall_impl; [exact He1|]. cbn. intros; lia.
      * eapply Forall_impl; [exact He2|]. cbn. intros; lia.
    + cbn [ad_fields]. rewrite Heq. by rewrite (assoc_L (++)).
Qed.
End parser.

(** Every buffer of bytes splits into complete structures and a stop. *)
Lemma ad_decompose (b : list Z) :
  bytes b -> exists ss tail, b = ad_encode_all ss ++ tail /\ ad_stops tail.
Proof.
  remember (length b) as n eqn:Hn. revert b Hn.
  induction n as [n IH] using lt_wf_ind. intros b -> Hb.
  destruct b as [|l rest]; [by exists [], []|].
  apply Forall_cons in Hb as [Hl Hrest]. unfold is_byte in Hl.
  destruct (decide (l = 0 \/ zlen rest < l)) as [Hs|Hs].
  { by exists [], (l :: rest). }
  destruct rest as [|type rest1]; [cbn [length] in Hs; lia|].
  cbn [length] in Hs.
  apply Forall_cons in Hrest as [_ Hrest1].
  destruct (IH (length (drop (Z.to_nat (l - 1)) rest1))) with
    (b := drop (Z.to_nat (l - 1)) rest1) as (ss & tail & Hd & Hstop).
  { cbn [length]. rewrite length_drop. lia. }
  { done. }
  { by apply Forall_drop. }
  exists ({| ad_type := type; ad_value := take (Z.to_nat (l - 1)) rest1 |} :: ss), tail.
  split; [|done].
  unfold ad_encode_all. rewrite fmap_cons. cbn [concat].
  fold (ad_encode_all ss). rewrite <- (assoc_L (++)), <- Hd.
  unfold ad_encode. cbn [ad_type ad_value app].
  rewrite length_take, take_drop. f_equal. lia.
Qed.

Lemma ad_encode_all_app l1 l2 :
  ad_encode_all (l1 ++ l2) = ad_encode_all l1 ++ ad_encode_all l2.
Proof. unfold ad_encode_all. by rewrite fmap_app, concat_app. Qed.

Lemma ad_encode_all_cons s ss :
  ad_encode_all (s :: ss) = ad_encode s ++ ad_encode_all ss.
Proof. reflexivity. Qed.

Lemma ad_encode_all_length ss :
  2 * zlen ss <= zlen (ad_encode_all ss).
Proof.
  induction ss as [|s ss IH]; [done|].
  rewrite ad_encode_all_cons, length_app, ad_encode_length. cbn [length]. lia.
Qed.

(** The parser returns the fields of the structures of the buffer, and reads
    nothing at or after [data_len]. *)
Lemma adv_extract_structs data data_len ss tail :
  bytes data -> 0 <= data_len <= 255 -> data_len <= zlen data ->
  take (Z.to_nat data_len) data = ad_encode_all ss ++ tail -> ad_stops tail ->
  exists tr,
    adv_extract data data_len [] = Some (ad_fields 0 ss adv_extract_init, tr) /\
    Forall (fun j => 0 <= j < data_len) tr.
Proof.
  intros Hb Hlen Hle Hbuf Hstop.
  destruct (adv_loop_structs data data_len Hlen Hle Hb ss 256 [] tail
              adv_extract_init [] Hbuf Hstop) as (tr & Htr & Heq).
  - pose proof (ad_encode_all_length ss) as H2.
    pose proof (buf_length data data_len Hlen Hle) as Hbl.
    rewrite Hbuf, length_app in Hbl. lia.
  - exists tr. split; [exact Heq|exact Htr].
Qed.

Lemma adv_in_bounds_mono n m out :
  n <= m -> adv_in_bounds n out -> adv_in_bounds m out.
Proof.
  intros Hnm [Hm Hs]. split; intros H.
  - destruct (Hm H) as (p & ? & ? & ? & ?). exists p. repeat split; try done. lia.
  - destruct (Hs H) as (p & ? & ? & ? & ?). exists p. repeat split; try done. lia.
Qed.

Lemma ad_field_in_bounds i s out :
  0 <= i -> adv_in_bounds i out ->
  adv_in_bounds (i + 2 + zlen (ad_value s)) (ad_field (i + 2) s out).
Proof.
  intros Hi Hout.
  apply (adv_in_bounds_mono _ (i + 2 + zlen (ad_value s))) in Hout; [|lia].
  assert (H1 : adv_in_bounds (i + 2 + zlen (ad_value s))
                 (if ad_is_mfg s then set_adv_mfg out (i + 2) (zlen (ad_value s))
                  else out)).
  { destruct (ad_is_mfg s) eqn:Hm; [|done].
    apply andb_true_iff in Hm as [_ Hn]. apply Z.leb_le in Hn.
    destruct Hout as [_ Hs]. split; cbn; [|done].
    intros _. exists (i + 2). repeat split; try done; lia. }
  unfold ad_field. destruct (ad_is_target_svc s) eqn:Hsv; [|done].
  apply andb_true_iff in Hsv as [Hsv _]. apply andb_true_iff in Hsv as [_ Hn].
  apply Z.leb_le in Hn.
  destruct H1 as [Hm _]. split; cbn; [done|].
  intros _. exists (i + 2 + 2). repeat split; try done; lia.
Qed.

Lemma ad_fields_in_bounds ss : forall i out,
  0 <= i -> adv_in_bounds i out ->
  adv_in_bounds (i + zlen (ad_encode_all ss)) (ad_fields i ss out).
Proof.
  induction ss as [|s ss IH]; intros i out Hi Hout.
  - cbn. by rewrite Z.add_0_r.
  - cbn [ad_fields]. rewrite ad_encode_all_cons, length_app, ad_encode_length.
    replace (i + Z.of_nat (S (S (length (ad_value s))) + length (ad_encode_all ss)))
      with (i + 2 + zlen (ad_value s) + zlen (ad_encode_all ss)) by lia.
    apply IH; [lia|]. by apply ad_field_in_bounds.
Qed.

Lemma adv_extract_init_in_bounds n : adv_in_bounds n adv_extract_init.
Proof. split; cbn; discriminate. Qed.

Lemma ad_fields_app l1 l2 : forall i out,
  ad_fields i (l1 ++ l2) out =
  ad_fields (i + zlen (ad_encode_all l1)) l2 (ad_fields i l1 out).
Proof.
  induction l1 as [|s l1 IH]; intros i out.
  - cbn. by rewrite Z.add_0_r.
  - cbn [app ad_fields]. rewrite IH. f_equal.
    rewrite ad_encode_all_cons, length_app, ad_encode_length. lia.
Qed.

Lemma ad_field_has_svc off s out :
  has_svc (ad_field off s out) = has_svc out || ad_is_target_svc s.
Proof.
  unfold ad_field. destruct (ad_is_target_svc s), (ad_is_mfg s); cbn;
    by rewrite ?orb_true_r, ?orb_false_r.
Qed.

Lemma ad_fields_has_svc ss : forall i out,
  has_svc (ad_fields i ss out) = has_svc out || existsb ad_is_target_svc ss.
Proof.
  induction ss as [|s ss IH]; intros i out; cbn [ad_fields existsb].
  - by rewrite orb_false_r.
  - by rewrite IH, ad_field_has_svc, orb_assoc.
Qed.

(** Structures that are not target service data leave the service slice. *)
Lemma ad_fields_svc_unchanged ss : forall i out,
  Forall (fun s => ad_is_target_svc s = false) ss ->
  adv_svc (ad_fields i ss out) = adv_svc out /\
  adv_svc_len (ad_fields i ss out) = adv_svc_len out.
Proof.
  induction ss as [|s ss IH]; intros i out Hss; [done|].
  apply Forall_cons in Hss as [Hs Hss]. cbn [ad_fields].
  destruct (IH (i + 2 + zlen (ad_value s)) (ad_field (i + 2) s out) Hss) as [-> ->].
  unfold ad_field. rewrite Hs. by destruct (ad_is_mfg s).
Qed.

(** The last target service-data structure decides the service slice. *)
Lemma ad_fields_svc_last pre s post i out :
  ad_is_target_svc s = true ->
  Forall (fun x => ad_is_target_svc x = false) post ->
  adv_svc (ad_fields i (pre ++ s :: post) out)
    = Some (i + zlen (ad_encode_all pre) + 4) /\
  adv_svc_len (ad_fields i (pre ++ s :: post) out) = zlen (ad_value s) - 2.
Proof.
  intros Hs Hpost. rewrite ad_fields_app. cbn [ad_fields].
  destruct (ad_fields_svc_unchanged post
              (i + zlen (ad_encode_all pre) + 2 + zlen (ad_value s))
              (ad_field (i + zlen (ad_encode_all pre) + 2) s (ad_fields i pre out))
              Hpost) as [-> ->].
  unfold ad_field. rewrite Hs. cbn. split; [f_equal; lia|done].
Qed.

Lemma existsb_last_split {A} (f : A -> bool) (l : list A) :
  existsb f l = true ->
  exists pre x post, l = pre ++ x :: post /\ f x = true /\
                     Forall (fun y => f y = false) post.
Proof.
  induction l as [|a l IH]; [discriminate|]. cbn [existsb]. intros H.
  destruct (existsb f l) eqn:Hl.
  - destruct (IH eq_refl) as (pre & x & post & -> & Hx & Hpost).
    by exists (a :: pre), x, post.
  - rewrite orb_false_r in H. exists [], a, l. repeat split; [done|].
    apply Forall_forall. intros y Hy.
    destruct (f y) eqn:Hfy; [|done].
    assert (existsb f l = true); [|congruence].
    apply existsb_exists. exists y. split; [|done]. by apply list_elem_of_In.
Qed.

Lemma ad_is_target_svc_spec s :
  ad_is_target_svc s = true <->
  ad_type s = 0x16 /\ 2 <= zlen (ad_value s) /\ take 2 (ad_value s) = [0x3d; 0xfd].
Proof.
  unfold ad_is_target_svc.
  rewrite !andb_true_iff, bool_decide_eq_true, Z.eqb_eq, Z.leb_le. tauto.
Qed.

Lemma adv_extract_ok data data_len :
  bytes data -> 0 <= data_len <= 255 -> data_len <= zlen data ->
  exists out tr,
    adv_extract data data_len [] = Some (out, tr) /\
    Forall (fun j => 0 <= j < data_len) tr /\
    adv_in_bounds data_len out.
Proof.
  intros Hb Hlen Hle.
  destruct (ad_decompose (take (Z.to_nat data_len) data)) as (ss & tail & Hbuf & Hstop).
  { by apply Forall_take. }
  destruct (adv_extract_structs data data_len ss tail Hb Hlen Hle Hbuf Hstop)
    as (tr & Heq & Htr).
  exists (ad_fields 0 ss adv_extract_init), tr. repeat split; try done.
  - pose proof (ad_fields_in_bounds ss 0 adv_extract_init) as [Hm _].
    { done. } { apply adv_extract_init_in_bounds. }
    intros H. destruct (Hm H) as (p & ? & ? & ? & ?). exists p.
    repeat split; try done.
    pose proof (buf_length data data_len Hlen Hle) as Hbl.
    rewrite Hbuf, length_app in Hbl. lia.
  - pose proof (ad_fields_in_bounds ss 0 adv_extract_init) as [_ Hs].
    { done. } { apply adv_extract_init_in_bounds. }
    intros H. destruct (Hs H) as (p & ? & ? & ? & ?). exists p.
    repeat split; try done.
    pose proof (buf_length data data_len Hlen Hle) as Hbl.
    rewrite Hbuf, length_app in Hbl. lia.
Qed.

(** C4. The parser returns on every buffer, reads only bytes at indices
    below the declared length, and returns slices that lie below it; when the
    buffer is a run of complete structures followed by a stop (the end, a zero
    length byte, or a trailing structure whose length byte announces more
    bytes than are left), the result is the one the parser gives on the
    complete structures alone. *)
Theorem adv_extract_truncation_safe data data_len :
  bytes data -> 0 <= data_len <= 255 -> data_len <= zlen data ->
  exists out tr,
    adv_extract data data_len [] = Some (out, tr) /\
    Forall (fun j => 0 <= j < data_len) tr /\
    adv_in_bounds data_len out /\
    forall ss tail,
      take (Z.to_nat data_len) data = ad_encode_all ss ++ tail ->
      ad_stops tail ->
      out = ad_fields 0 ss adv_extract_init /\
      exists tr',
        adv_extract (ad_encode_all ss) (zlen (ad_encode_all ss)) [] = Some (out, tr').
Proof.
  intros Hb Hlen Hle.
  destruct (adv_extract_ok data data_len Hb Hlen Hle) as (out & tr & Heq & Htr & Hin).
  exists out, tr. repeat split; try done; try apply Hin.
  - destruct (adv_extract_structs data data_len ss tail Hb Hlen Hle H H0)
      as (tr2 & Heq2 & _). congruence.
  - destruct (adv_extract_structs data data_len ss tail Hb Hlen Hle H H0)
      as (tr2 & Heq2 & _).
    assert (out = ad_fields 0 ss adv_extract_init) as -> by congruence.
    pose proof (buf_length data data_len Hlen Hle) as Hbl.
    cbv zeta in Hbl. rewrite H, length_app in Hbl.
    destruct (adv_extract_structs (ad_encode_all ss) (zlen (ad_encode_all ss)) ss [])
      as (tr' & Heq' & _); try done.
    + assert (Hbuf : bytes (take (Z.to_nat data_len) data)) by by apply Forall_take.
      rewrite H in Hbuf. by apply Forall_app in Hbuf as [? _].
    + lia.
    + by rewrite Nat2Z.id, firstn_all, app_nil_r.
    + by exists tr'.
Qed.

Lemma adv_extract_truncation_safe_witness :
  exists out tr,
    adv_extract [0x05; 0x16; 0x3d; 0xfd; 0xAA; 0xBB; 0x09; 0xFF; 0x69] 9 []
      = Some (out, tr) /\
    Forall (fun j => 0 <= j < 9) tr /\
    adv_in_bounds 9 out /\
    forall ss tail,
      take (Z.to_nat 9) [0x05; 0x16; 0x3d; 0xfd; 0xAA; 0xBB; 0x09; 0xFF; 0x69]
        = ad_encode_all ss ++ tail ->
      ad_stops tail ->
      out = ad_fields 0 ss adv_extract_init /\
      exists tr',
        adv_extract (ad_encode_all ss) (zlen (ad_encode_all ss)) [] = Some (out, tr').
Proof.
  apply (adv_extract_truncation_safe
           [0x05; 0x16; 0x3d; 0xfd; 0xAA; 0xBB; 0x09; 0xFF; 0x69] 9).
  - repeat constructor; unfold is_byte; lia.
  - lia.
  - cbn; lia.
Defined.

Lemma slice_app (a b c : list Z) : slice (a ++ b ++ c) (zlen a) (zlen b) = Some b.
Proof.
  unfold slice. rewrite bool_decide_true by (rewrite !length_app; lia).
  f_equal. rewrite !Nat2Z.id, drop_app_length. by rewrite take_app_length.
Qed.

(** The bytes of a field of a structure of the buffer, [k] bytes into its
    value. *)
Lemma slice_structure data data_len pre s rest k :
  take (Z.to_nat data_len) data = pre ++ ad_encode s ++ rest ->
  (k <= length (ad_value s))%nat ->
  slice data (zlen pre + 2 + Z.of_nat k) (zlen (ad_value s) - Z.of_nat k)
    = Some (drop k (ad_value s)).
Proof.
  intros Hbuf Hk.
  set (a := pre ++ [1 + zlen (ad_value s); ad_type s] ++ take k (ad_value s)).
  assert (Hd : data = a ++ drop k (ad_value s)
                        ++ (rest ++ drop (Z.to_nat data_len) data)).
  { rewrite <- (take_drop (Z.to_nat data_len) data) at 1. rewrite Hbuf.
    unfold a, ad_encode. rewrite <- !(assoc_L (++)). cbn [app].
    by rewrite (assoc_L (++) (take k _)), take_drop. }
  rewrite Hd.
  replace (zlen pre + 2 + Z.of_nat k) with (zlen a).
  2:{ unfold a. rewrite !length_app, length_take. cbn [length]. lia. }
  replace (zlen (ad_value s) - Z.of_nat k) with (zlen (drop k (ad_value s))).
  2:{ rewrite length_drop. lia. }
  apply slice_app.
Qed.

(** C5. The parser reports a service payload exactly when a complete
    structure of the buffer has type 0x16, a value of at least two bytes and
    the value starts with 0x3D 0xFD; the payload is then the value of the last
    such structure without its first two bytes; when no type-0x16 structure
    starts with 0x3D 0xFD, whatever its length, no service payload is
    reported. *)
Theorem adv_extract_service_uuid_gate data data_len :
  bytes data -> 0 <= data_len <= 255 -> data_len <= zlen data ->
  exists out tr,
    adv_extract data data_len [] = Some (out, tr) /\
    (exists ss tail,
       take (Z.to_nat data_len) data = ad_encode_all ss ++ tail /\ ad_stops tail) /\
    forall ss tail,
      take (Z.to_nat data_len) data = ad_encode_all ss ++ tail ->
      ad_stops tail ->
      (has_svc out = true <->
         exists s, s ∈ ss /\ ad_type s = 0x16 /\ 2 <= zlen (ad_value s) /\
                   take 2 (ad_value s) = [0x3d; 0xfd]) /\
      (has_svc out = true ->
         exists pre s post p,
           ss = pre ++ s :: post /\ ad_is_target_svc s = true /\
           Forall (fun x => ad_is_target_svc x = false) post /\
           adv_svc out = Some p /\
           adv_svc_len out = zlen (ad_value s) - 2 /\
           slice data p (adv_svc_len out) = Some (drop 2 (ad_value s))) /\
      (Forall (fun s => ad_type s = 0x16 -> take 2 (ad_value s) <> [0x3d; 0xfd]) ss ->
         has_svc out = false).
Proof.
  intros Hb Hlen Hle.
  destruct (adv_extract_ok data data_len Hb Hlen Hle) as (out & tr & Heq & _ & _).
  exists out, tr. split; [done|]. split.
  { apply ad_decompose. by apply Forall_take. }
  intros ss tail Hbuf Hstop.
  destruct (adv_extract_structs data data_len ss tail Hb Hlen Hle Hbuf Hstop)
    as (tr2 & Heq2 & _).
  assert (out = ad_fields 0 ss adv_extract_init) as -> by congruence.
  assert (Hiff : has_svc (ad_fields 0 ss adv_extract_init) = true <->
                 exists s, s ∈ ss /\ ad_is_target_svc s = true).
  { rewrite ad_fields_has_svc. cbn [adv_extract_init has_svc orb].
    rewrite existsb_exists. split; intros (s & Hs & Ht); exists s;
      (split; [by apply list_elem_of_In|done]). }
  split; [|split].
  - rewrite Hiff. split; intros (s & Hs & Ht); exists s; split; try done;
      by apply ad_is_target_svc_spec.
  - intros Hsvc. rewrite ad_fields_has_svc in Hsvc.
    cbn [adv_extract_init has_svc orb] in Hsvc.
    destruct (existsb_last_split _ _ Hsvc) as (pre & s & post & -> & Hs & Hpost).
    destruct (ad_fields_svc_last pre s post 0 adv_extract_init Hs Hpost) as [Hp Hl].
    exists pre, s, post, (0 + zlen (ad_encode_all pre) + 4).
    repeat split; try done.
    rewrite Hl. rewrite ad_encode_all_app, ad_encode_all_cons in Hbuf.
    rewrite <- !(assoc_L (++)) in Hbuf.
    apply ad_is_target_svc_spec in Hs as (_ & Hn & _).
    pose proof (slice_structure data data_len _ s _ 2 Hbuf) as Hsl.
    replace (0 + zlen (ad_encode_all pre) + 4)
      with (zlen (ad_encode_all pre) + 2 + Z.of_nat 2) by lia.
    apply Hsl. lia.
  - intros Hall. apply not_true_is_false. rewrite Hiff.
    intros (s & Hs & Ht). apply ad_is_target_svc_spec in Ht as (Hty & _ & Hu).
    rewrite Forall_forall in Hall. by apply (Hall s Hs Hty).
Qed.

Lemma adv_extract_service_uuid_gate_witness :
  exists out tr,
    adv_extract [0x05; 0x16; 0x3d; 0xfd; 0xAA; 0xBB] 6 [] = Some (out, tr) /\
    (exists ss tail,
       take (Z.to_nat 6) [0x05; 0x16; 0x3d; 0xfd; 0xAA; 0xBB]
         = ad_encode_all ss ++ tail /\ ad_stops tail) /\
    forall ss tail,
      take (Z.to_nat 6) [0x05; 0x16; 0x3d; 0xfd; 0xAA; 0xBB]
        = ad_encode_all ss ++ tail ->
      ad_stops tail ->
      (has_svc out = true <->
         exists s, s ∈ ss /\ ad_type s = 0x16 /\ 2 <= zlen (ad_value s) /\
                   take 2 (ad_value s) = [0x3d; 0xfd]) /\
      (has_svc out = true ->
         exists pre s post p,
           ss = pre ++ s :: post /\ ad_is_target_svc s = true /\
           Forall (fun x => ad_is_target_svc x = false) post /\
           adv_svc out = Some p /\
           adv_svc_len out = zlen (ad_value s) - 2 /\
           slice [0x05; 0x16; 0x3d; 0xfd; 0xAA; 0xBB] p (adv_svc_len out)
             = Some (drop 2 (ad_value s))) /\
      (Forall (fun s => ad_type s = 0x16 -> take 2 (ad_value s) <> [0x3d; 0xfd]) ss ->
         has_svc out = false).
Proof.
  apply (adv_extract_service_uuid_gate [0x05; 0x16; 0x3d; 0xfd; 0xAA; 0xBB] 6).
  - repeat constructor; unfold is_byte; lia.
  - lia.
  - cbn; lia.
Defined.

(** ** The device array *)

Lemma dev_set_length ds i d : length (dev_set ds i d) = length ds.
Proof. apply length_insert. Qed.

Lemma dev_set_same ds i d :
  0 <= i < zlen ds -> dev (dev_set ds i d) i = d.
Proof.
  intros Hi. unfold dev, dev_set.
  apply list_lookup_total_insert_eq. lia.
Qed.

Lemma dev_set_other ds i j d :
  0 <= i -> 0 <= j -> i <> j -> dev (dev_set ds i d) j = dev ds j.
Proof.
  intros Hi Hj Hij. unfold dev, dev_set.
  apply list_lookup_total_insert_ne. lia.
Qed.

Lemma set_devices_id g : set_devices g (g_devices g) = g.
Proof. by destruct g. Qed.

Lemma cache_find_spec ds a n : forall i,
  let r := cache_find ds a i n in
  (r = -1 /\
   forall j, i <= j < i + Z.of_nat n ->
     in_use (dev ds j) && memcmp6 (addr (dev ds j)) a = false)
  \/ (i <= r < i + Z.of_nat n /\
      in_use (dev ds r) = true /\ memcmp6 (addr (dev ds r)) a = true /\
      forall j, i <= j < r ->
        in_use (dev ds j) && memcmp6 (addr (dev ds j)) a = false).
Proof.
  induction n as [|n IH]; intros i; cbn [cache_find].
  - left. split; [done|]. intros; lia.
  - destruct (in_use (dev ds i) && memcmp6 (addr (dev ds i)) a) eqn:Hi.
    + right. apply andb_true_iff in Hi as [? ?].
      repeat split; try done; try lia.
    + destruct (IH (i + 1)) as [[Hr Hall]|(Hr & Hu & Hm & Hall)].
      * left. split; [done|]. intros j Hj.
        destruct (decide (j = i)) as [->|]; [done|]. apply Hall. lia.
      * right. repeat split; try done; try lia. intros j Hj.
        destruct (decide (j = i)) as [->|]; [done|]. apply Hall. lia.
Qed.

Lemma cache_alloc_spec ds a n : forall i,
  0 <= i ->
  let r := cache_alloc ds a i n in
  (r = (-1, ds) /\
   forall j, i <= j < i + Z.of_nat n -> in_use (dev ds j) = true)
  \/ (i <= r.1 < i + Z.of_nat n /\
      in_use (dev ds r.1) = false /\
      r.2 = dev_set ds r.1 (set_in_use_addr zero_device (take 6 a)) /\
      forall j, i <= j < r.1 -> in_use (dev ds j) = true).
Proof.
  induction n as [|n IH]; intros i Hi; cbn [cache_alloc].
  - left. split; [done|]. intros; lia.
  - destruct (in_use (dev ds i)) eqn:Hu; cbn [negb].
    + destruct (IH (i + 1)) as [[Hr Hall]|(Hr & Hf & Hs & Hall)]; [lia| |].
      * left. split; [done|]. intros j Hj.
        destruct (decide (j = i)) as [->|]; [done|]. apply Hall. lia.
      * right. repeat split; try done; try lia. intros j Hj.
        destruct (decide (j = i)) as [->|]; [done|]. apply Hall. lia.
    + right. cbn [fst snd]. repeat split; try done; try lia.
Qed.

Lemma cache_find_or_alloc_spec a ds :
  let '(idx, ds') := cache_find_or_alloc a ds in
  (idx = -1 /\ ds' = ds /\
   forall j, 0 <= j < MAX_DEVICES ->
     in_use (dev ds j) = true /\ memcmp6 (addr (dev ds j)) a = false)
  \/ (0 <= idx < MAX_DEVICES /\ ds' = ds /\
      in_use (dev ds idx) = true /\ memcmp6 (addr (dev ds idx)) a = true /\
      forall j, 0 <= j < idx ->
        in_use (dev ds j) && memcmp6 (addr (dev ds j)) a = false)
  \/ (0 <= idx < MAX_DEVICES /\
      ds' = dev_set ds idx (set_in_use_addr zero_device (take 6 a)) /\
      in_use (dev ds idx) = false /\
      (forall j, 0 <= j < idx -> in_use (dev ds j) = true) /\
      forall j, 0 <= j < MAX_DEVICES ->
        in_use (dev ds j) && memcmp6 (addr (dev ds j)) a = false).
Proof.
  unfold cache_find_or_alloc.
  pose proof (cache_find_spec ds a (Z.to_nat MAX_DEVICES) 0) as Hf. cbv zeta in Hf.
  replace (0 + Z.of_nat (Z.to_nat MAX_DEVICES)) with MAX_DEVICES in Hf by done.
  destruct Hf as [[Hr Hnone]|(Hr & Hu & Hm & Hfirst)].
  - rewrite Hr. cbn [Z.leb Z.compare].
    pose proof (cache_alloc_spec ds a (Z.to_nat MAX_DEVICES) 0) as Ha.
    cbv zeta in Ha.
    replace (0 + Z.of_nat (Z.to_nat MAX_DEVICES)) with MAX_DEVICES in Ha by done.
    destruct Ha as [[Hr2 Hall]|(Hr2 & Hfree & Hds & Hall)]; [done| |].
    + rewrite Hr2. left. repeat split; try done.
      * by apply Hall.
      * specialize (Hnone j H). rewrite (Hall j H) in Hnone. done.
    + destruct (cache_alloc ds a 0 (Z.to_nat MAX_DEVICES)) as [idx ds'].
      cbn [fst snd] in *. right. right. repeat split; try done; try lia.
  - replace (0 <=? cache_find ds a 0 (Z.to_nat MAX_DEVICES)) with true
      by (symmetry; apply Z.leb_le; lia).
    right. left. repeat split; try done; lia.
Qed.

(** ** The discovery callback *)

Lemma memcpy_from_in_bounds dst buf p n :
  0 <= p -> 0 <= n -> p + n <= zlen buf ->
  memcpy_from dst buf (Some p) n = Some (memcpy dst (field_bytes buf (Some p) n)).
Proof.
  intros. unfold memcpy_from, slice, field_bytes.
  by rewrite bool_decide_true by done.
Qed.

Lemma gap_disc_update_in_bounds desc ex idx g :
  wf_desc desc -> adv_in_bounds (length_data desc) ex ->
  gap_disc_update desc ex idx g = Some (disc_update desc ex idx g).
Proof.
  intros (_ & _ & _ & Hlen & Hle) [Hm Hs].
  unfold gap_disc_update, disc_update, disc_record.
  destruct (has_mfg ex) eqn:Hhm; cbn [andb].
  - destruct (Hm eq_refl) as (p & Hp & ? & ? & ?). rewrite Hp.
    destruct (adv_mfg_len ex <=? MAX_BLE_DATA) eqn:Hcap.
    + rewrite memcpy_from_in_bounds by lia. cbn [mbind option_bind].
      destruct (has_svc ex) eqn:Hhs; cbn [andb].
      * destruct (Hs eq_refl) as (q & Hq & ? & ? & ?). rewrite Hq.
        destruct (adv_svc_len ex <=? MAX_BLE_DATA) eqn:Hcap2.
        -- rewrite memcpy_from_in_bounds by lia. cbn [mbind option_bind].
           by destruct (maybe_mark_latest _ _).
        -- cbn [mbind option_bind]. by destruct (maybe_mark_latest _ _).
      * cbn [mbind option_bind]. by destruct (maybe_mark_latest _ _).
    + cbn [mbind option_bind].
      destruct (has_svc ex) eqn:Hhs; cbn [andb].
      * destruct (Hs eq_refl) as (q & Hq & ? & ? & ?). rewrite Hq.
        destruct (adv_svc_len ex <=? MAX_BLE_DATA) eqn:Hcap2.
        -- rewrite memcpy_from_in_bounds by lia. cbn [mbind option_bind].
           by destruct (maybe_mark_latest _ _).
        -- cbn [mbind option_bind]. by destruct (maybe_mark_latest _ _).
      * cbn [mbind option_bind]. by destruct (maybe_mark_latest _ _).
  - cbn [mbind option_bind].
    destruct (has_svc ex) eqn:Hhs; cbn [andb].
    + destruct (Hs eq_refl) as (q & Hq & ? & ? & ?). rewrite Hq.
      destruct (adv_svc_len ex <=? MAX_BLE_DATA) eqn:Hcap2.
      * rewrite memcpy_from_in_bounds by lia. cbn [mbind option_bind].
        by destruct (maybe_mark_latest _ _).
      * cbn [mbind option_bind]. by destruct (maybe_mark_latest _ _).
    + cbn [mbind option_bind]. by destruct (maybe_mark_latest _ _).
Qed.

(** The callback returns on every well-formed discovery event. *)
Lemma gap_event_cb_disc desc g :
  wf_desc desc ->
  exists ex tr,
    adv_extract (data desc) (length_data desc) [] = Some (ex, tr) /\
    adv_in_bounds (length_data desc) ex /\
    gap_event_cb (BLE_GAP_EVENT_DISC desc) g = Some (disc_step desc ex g).
Proof.
  intros Hwf. pose proof Hwf as (_ & _ & Hb & Hlen & Hle).
  destruct (adv_extract_ok _ _ Hb Hlen Hle) as (ex & tr & Heq & _ & Hin).
  exists ex, tr. repeat split; try done; try apply Hin.
  unfold gap_event_cb, disc_step. rewrite Heq.
  destruct (negb (has_mfg ex) && negb (has_svc ex)); [done|].
  destruct (cache_find_or_alloc _ _) as [idx ds].
  destruct (0 <=? idx); [|done].
  by apply gap_disc_update_in_bounds.
Qed.

(** ** Port calls *)

Lemma make_ok_with_payload_all payload :
  make_ok_with_payload payload (zlen payload) = 0x00 :: payload.
Proof.
  unfold make_ok_with_payload. destruct payload as [|b payload]; [done|].
  replace (0 <? zlen (b :: payload)) with true
    by (symmetry; apply Z.ltb_lt; cbn [length]; lia).
  by rewrite Nat2Z.id, firstn_all.
Qed.

(** C9. [ECHO] replies with the success byte followed by the bytes of the
    request after the opcode, unchanged, and touches nothing else; so the
    body DE AD BE EF comes back as it is, and an empty body gives an empty
    payload. *)
Theorem handle_call_echo :
  (forall env body g,
     handle_call env (term_binary (OPCODE_ECHO :: body)) g = (0x00 :: body, g, []))
  /\ (forall env g,
        reply_of (handle_call env (term_binary [0x02; 0xDE; 0xAD; 0xBE; 0xEF]) g)
          = [0x00; 0xDE; 0xAD; 0xBE; 0xEF])
  /\ (forall env g,
        reply_of (handle_call env (term_binary [0x02]) g) = [0x00]).
Proof.
  assert (H : forall env body g,
    handle_call env (term_binary (OPCODE_ECHO :: body)) g = (0x00 :: body, g, [])).
  { intros env body g. unfold handle_call.
    replace (zlen (OPCODE_ECHO :: body) <? 1) with false
      by (symmetry; apply Z.ltb_ge; cbn [length]; lia).
    cbn [lookup_total list_lookup_total]. cbn [OPCODE_ECHO OPCODE_PING Z.eqb Pos.eqb].
    cbn [drop]. replace (zlen (OPCODE_ECHO :: body) - 1) with (zlen body)
      by (cbn [length]; lia).
    by rewrite make_ok_with_payload_all. }
  split; [exact H|]. split; intros env g.
  - pose proof (H env [0xDE; 0xAD; 0xBE; 0xEF] g) as E.
    unfold OPCODE_ECHO in E. by rewrite E.
  - pose proof (H env [] g) as E. unfold OPCODE_ECHO in E. by rewrite E.
Qed.

Lemma update_device_id_fields d :
  addr (update_device_id d) = addr d /\
  in_use (update_device_id d) = in_use d /\
  rssi (update_device_id d) = rssi d /\
  have_mfg (update_device_id d) = have_mfg d /\
  mfg_len (update_device_id d) = mfg_len d /\
  mfg (update_device_id d) = mfg d /\
  have_svc (update_device_id d) = have_svc d /\
  svc_len (update_device_id d) = svc_len d /\
  svc (update_device_id d) = svc d.
Proof.
  unfold update_device_id. by destruct (have_mfg d && (8 <=? mfg_len d)).
Qed.

Lemma update_device_id_merged d : merged (update_device_id d) = merged d.
Proof.
  unfold merged.
  destruct (update_device_id_fields d) as (_ & _ & _ & -> & -> & -> & -> & _).
  done.
Qed.

Lemma update_device_id_idemp d :
  update_device_id (update_device_id d) = update_device_id d.
Proof.
  unfold update_device_id at 1.
  destruct (update_device_id_fields d) as (_ & _ & _ & -> & -> & -> & _).
  unfold update_device_id.
  destruct (have_mfg d && (8 <=? mfg_len d)) eqn:H; [|done].
  by destruct d.
Qed.

Lemma reply_latest_success d : is_success (reply_latest d).
Proof. unfold reply_latest. eexists. reflexivity. Qed.

Lemma make_error_error code : is_error (make_error code).
Proof. by exists code. Qed.

Lemma make_ok_success payload n : is_success (make_ok_with_payload payload n).
Proof. unfold make_ok_with_payload. eexists. reflexivity. Qed.

(** The scan of [OPCODE_LATEST_FOR]: it stops at the first slot that is in
    use, merged and carries the wanted id, and on the way it only refreshes
    the derived id of merged records. *)
Lemma latest_for_scan_spec wanted n : forall ds i,
  0 <= i -> i + Z.of_nat n <= zlen ds ->
  let r := latest_for_scan wanted ds i n in
  length r.2 = length ds /\
  (forall j, 0 <= j ->
     dev r.2 j = dev ds j \/ dev r.2 j = update_device_id (dev ds j)) /\
  ((r.1 = -1 /\
    forall j, i <= j < i + Z.of_nat n -> id_matches wanted (dev ds j) = false)
   \/ (i <= r.1 < i + Z.of_nat n /\
       id_matches wanted (dev ds r.1) = true /\
       dev r.2 r.1 = update_device_id (dev ds r.1) /\
       forall j, i <= j < r.1 -> id_matches wanted (dev ds j) = false)).
Proof.
  induction n as [|n IH]; intros ds i Hi Hlen; cbn [latest_for_scan].
  { cbn. repeat split; auto. left. split; [done|]. intros; lia. }
  assert (Hskip : forall (Hno : id_matches wanted (dev ds i) = false),
    let r := latest_for_scan wanted ds (i + 1) n in
    length r.2 = length ds /\
    (forall j, 0 <= j ->
       dev r.2 j = dev ds j \/ dev r.2 j = update_device_id (dev ds j)) /\
    ((r.1 = -1 /\
      forall j, i <= j < i + Z.of_nat (S n) -> id_matches wanted (dev ds j) = false)
     \/ (i <= r.1 < i + Z.of_nat (S n) /\
         id_matches wanted (dev ds r.1) = true /\
         dev r.2 r.1 = update_device_id (dev ds r.1) /\
         forall j, i <= j < r.1 -> id_matches wanted (dev ds j) = false))).
  { intros Hno. destruct (IH ds (i + 1)) as (Hl & Hd & Hr); [lia|lia|].
    cbv zeta. repeat split; try done.
    destruct Hr as [[Hr Hall]|(Hr & Hm & Hu & Hall)].
    - left. split; [done|]. intros j Hj.
      destruct (decide (j = i)) as [->|]; [done|]. apply Hall. lia.
    - right. repeat split; try done; try lia. intros j Hj.
      destruct (decide (j = i)) as [->|]; [done|]. apply Hall. lia. }
  destruct (in_use (dev ds i)) eqn:Hu; cbn [negb].
  2:{ apply Hskip. unfold id_matches. by rewrite Hu. }
  destruct (negb (have_mfg (dev ds i)) || negb (have_svc (dev ds i))) eqn:Hh.
  { apply Hskip. unfold id_matches, merged.
    destruct (have_mfg (dev ds i)), (have_svc (dev ds i)); try done;
      by rewrite ?andb_false_r. }
  destruct (is_switchbot_mfg (mfg (dev ds i)) (mfg_len (dev ds i))) eqn:Hsb;
    cbn [negb].
  2:{ apply Hskip. unfold id_matches, merged. rewrite Hsb.
      by rewrite ?andb_false_r. }
  assert (Hmerged : merged (dev ds i) = true).
  { unfold merged. rewrite Hsb.
    by destruct (have_mfg (dev ds i)), (have_svc (dev ds i)). }
  rewrite dev_set_same by lia.
  destruct (have_device_id (update_device_id (dev ds i))
            && (device_id (update_device_id (dev ds i)) =? wanted)) eqn:Hid.
  - cbn [fst snd]. rewrite dev_set_length. split; [done|]. split.
    + intros j Hj. destruct (decide (j = i)) as [->|].
      * right. apply dev_set_same. lia.
      * left. apply dev_set_other; lia.
    + right. repeat split; try lia.
      * unfold id_matches. rewrite Hu, Hmerged. cbn [andb]. exact Hid.
      * apply dev_set_same. lia.
  - set (ds1 := dev_set ds i (update_device_id (dev ds i))).
    destruct (IH ds1 (i + 1)) as (Hl & Hd & Hr).
    { lia. } { unfold ds1. rewrite dev_set_length. lia. }
    assert (Hsame : forall j, 0 <= j -> j <> i -> dev ds1 j = dev ds j).
    { intros j Hj Hne. unfold ds1. apply dev_set_other; lia. }
    assert (Hat : dev ds1 i = update_device_id (dev ds i)).
    { unfold ds1. apply dev_set_same. lia. }
    cbv zeta. split; [|split].
    + rewrite Hl. unfold ds1. apply dev_set_length.
    + intros j Hj. destruct (decide (j = i)) as [->|Hne].
      * right. destruct (Hd i Hj) as [->| ->]; [done|].
        rewrite Hat. apply update_device_id_idemp.
      * rewrite <- (Hsame j Hj Hne). apply Hd. done.
    + assert (Hno : id_matches wanted (dev ds i) = false).
      { unfold id_matches. rewrite Hu, Hmerged. cbn [andb]. exact Hid. }
      destruct Hr as [[Hr Hall]|(Hr & Hm & Hup & Hall)].
      * left. split; [done|]. intros j Hj.
        destruct (decide (j = i)) as [->|]; [done|].
        rewrite <- (Hsame j) by lia. apply Hall. lia.
      * right. rewrite (Hsame _) in Hm, Hup by lia.
        repeat split; try done; try lia. intros j Hj.
        destruct (decide (j = i)) as [->|]; [done|].
        rewrite <- (Hsame j) by lia. apply Hall. lia.
Qed.

Ltac hc_cons :=
  unfold handle_call;
  match goal with
  | |- context [zlen (?op :: ?body) <? 1] =>
      replace (zlen (op :: body) <? 1) with false
        by (symmetry; apply Z.ltb_ge; cbn [length]; lia)
  end;
  cbn [lookup_total list_lookup_total].

Ltac hc_opcode :=
  cbn [OPCODE_PING OPCODE_ECHO OPCODE_BLE_START OPCODE_BLE_STOP OPCODE_LATEST
       OPCODE_LATEST_FOR Z.eqb Pos.eqb].

Lemma handle_call_envelope env req g :
  is_success (reply_of (handle_call env req g))
  \/ is_error (reply_of (handle_call env req g)).
Proof.
  destruct req as [bin|]; [|right; apply make_error_error].
  destruct bin as [|op body]; [right; apply make_error_error|].
  hc_cons. unfold reply_of.
  repeat case_match; cbn [fst snd];
    first [ left; apply make_ok_success
          | left; apply reply_latest_success
          | right; apply make_error_error ].
Qed.

Lemma handle_call_unknown env op body g :
  op <> OPCODE_PING -> op <> OPCODE_ECHO -> op <> OPCODE_BLE_START ->
  op <> OPCODE_BLE_STOP -> op <> OPCODE_LATEST -> op <> OPCODE_LATEST_FOR ->
  handle_call env (term_binary (op :: body)) g = (make_error 0x12, g, []).
Proof.
  intros. hc_cons.
  by rewrite !(proj2 (Z.eqb_neq _ _)) by done.
Qed.

Lemma handle_call_not_started env body g :
  g_ble_started g = false ->
  handle_call env (term_binary (OPCODE_BLE_STOP :: body)) g = ([0x01; 0x32], g, []) /\
  handle_call env (term_binary (OPCODE_LATEST :: body)) g = ([0x01; 0x40], g, []) /\
  handle_call env (term_binary (OPCODE_LATEST_FOR :: body)) g = ([0x01; 0x40], g, []).
Proof.
  intros Hs. repeat split; hc_cons; hc_opcode; by rewrite Hs.
Qed.

Lemma handle_call_latest env body g :
  g_ble_started g = true ->
  handle_call env (term_binary (OPCODE_LATEST :: body)) g =
    (if g_latest_index g <? 0 then [0x01; 0x41]
     else reply_latest (dev (g_devices g) (g_latest_index g)), g, []).
Proof.
  intros Hs. hc_cons; hc_opcode. rewrite Hs. cbn [negb].
  by destruct (g_latest_index g <? 0).
Qed.

Lemma handle_call_latest_for_short env body g :
  g_ble_started g = true -> zlen body < 2 ->
  handle_call env (term_binary (OPCODE_LATEST_FOR :: body)) g = ([0x01; 0x42], g, []).
Proof.
  intros Hs Hb. hc_cons; hc_opcode. rewrite Hs. cbn [negb].
  replace (zlen (OPCODE_LATEST_FOR :: body) <? 1 + 2) with true; [done|].
  symmetry. apply Z.ltb_lt. cbn [length]. lia.
Qed.

Lemma handle_call_latest_for env b1 b2 body g :
  g_ble_started g = true ->
  handle_call env (term_binary (OPCODE_LATEST_FOR :: b1 :: b2 :: body)) g =
    let r := latest_for_scan (wanted_id b1 b2) (g_devices g) 0 (Z.to_nat MAX_DEVICES) in
    (if r.1 <? 0 then [0x01; 0x43] else reply_latest (dev r.2 r.1),
     set_devices g r.2, []).
Proof.
  intros Hs. hc_cons; hc_opcode. rewrite Hs. cbn [negb].
  replace (zlen (OPCODE_LATEST_FOR :: b1 :: b2 :: body) <? 1 + 2) with false
    by (symmetry; apply Z.ltb_ge; cbn [length]; lia).
  fold (wanted_id b1 b2). cbv zeta.
  destruct (latest_for_scan _ _ _ _) as [found ds]. cbn [fst snd].
  by destruct (found <? 0).
Qed.

Lemma handle_call_latest_for_not_found env b1 b2 body g :
  g_ble_started g = true -> length (g_devices g) = 12%nat ->
  (forall j, 0 <= j < MAX_DEVICES ->
     id_matches (wanted_id b1 b2) (dev (g_devices g) j) = false) ->
  reply_of (handle_call env (term_binary (OPCODE_LATEST_FOR :: b1 :: b2 :: body)) g)
    = [0x01; 0x43].
Proof.
  intros Hs Hlen Hno. rewrite handle_call_latest_for by done. cbv zeta.
  unfold reply_of. cbn [fst snd].
  destruct (latest_for_scan_spec (wanted_id b1 b2) (Z.to_nat MAX_DEVICES)
              (g_devices g) 0) as (_ & _ & Hr).
  { done. } { rewrite Hlen. done. }
  destruct Hr as [[-> _]|(Hr & Hm & _)]; [done|].
  rewrite Hno in Hm; [done|]. unfold MAX_DEVICES in *. lia.
Qed.

(** C7, as the code has it. Every reply is the success byte followed by a
    payload or the error byte followed by one code byte; a request that is not
    a binary gets code 0x10, an empty one 0x11, an unknown opcode 0x12. Before
    [RADIO_START] has succeeded, [RADIO_STOP] gets code 0x32 while [LATEST]
    and [LATEST_FOR] get code 0x40: two codes, not one. Once started, [LATEST]
    with no completed reading gets 0x41, [LATEST_FOR] with a body shorter than
    two bytes gets 0x42, and [LATEST_FOR] with no matching record gets 0x43. *)
Theorem handle_call_reply_codes :
  (forall env req g,
     is_success (reply_of (handle_call env req g))
     \/ is_error (reply_of (handle_call env req g)))
  /\ (forall env g,
        reply_of (handle_call env term_other g) = [0x01; 0x10] /\
        reply_of (handle_call env (term_binary []) g) = [0x01; 0x11])
  /\ (forall env op body g,
        op <> OPCODE_PING -> op <> OPCODE_ECHO -> op <> OPCODE_BLE_START ->
        op <> OPCODE_BLE_STOP -> op <> OPCODE_LATEST -> op <> OPCODE_LATEST_FOR ->
        reply_of (handle_call env (term_binary (op :: body)) g) = [0x01; 0x12])
  /\ (forall env body g,
        g_ble_started g = false ->
        reply_of (handle_call env (term_binary (OPCODE_BLE_STOP :: body)) g)
          = [0x01; 0x32] /\
        reply_of (handle_call env (term_binary (OPCODE_LATEST :: body)) g)
          = [0x01; 0x40] /\
        reply_of (handle_call env (term_binary (OPCODE_LATEST_FOR :: body)) g)
          = [0x01; 0x40])
  /\ (forall env body g,
        g_ble_started g = true -> g_latest_index g < 0 ->
        reply_of (handle_call env (term_binary (OPCODE_LATEST :: body)) g)
          = [0x01; 0x41])
  /\ (forall env body g,
        g_ble_started g = true -> zlen body < 2 ->
        reply_of (handle_call env (term_binary (OPCODE_LATEST_FOR :: body)) g)
          = [0x01; 0x42])
  /\ (forall env b1 b2 body g,
        g_ble_started g = true -> length (g_devices g) = 12%nat ->
        (forall j, 0 <= j < MAX_DEVICES ->
           id_matches (wanted_id b1 b2) (dev (g_devices g) j) = false) ->
        reply_of (handle_call env (term_binary (OPCODE_LATEST_FOR :: b1 :: b2 :: body)) g)
          = [0x01; 0x43]).
Proof.
  split; [exact handle_call_envelope|].
  split; [by intros env g|].
  split.
  { intros env op body g ? ? ? ? ? ?. by rewrite handle_call_unknown. }
  split.
  { intros env body g Hs.
    destruct (handle_call_not_started env body g Hs) as (-> & -> & ->). done. }
  split.
  { intros env body g Hs Hidx. rewrite handle_call_latest by done.
    unfold reply_of. cbn [fst snd].
    by replace (g_latest_index g <? 0) with true by (symmetry; apply Z.ltb_lt; lia). }
  split.
  { intros env body g Hs Hb. by rewrite handle_call_latest_for_short. }
  intros env b1 b2 body g. apply handle_call_latest_for_not_found.
Qed.

(** Before [RADIO_START], [RADIO_STOP] and [LATEST] answer with different
    error codes. *)
Lemma not_started_codes_differ :
  reply_of (handle_call platform_ok (term_binary [OPCODE_BLE_STOP]) globals_init)
    = [0x01; 0x32]
  /\ reply_of (handle_call platform_ok (term_binary [OPCODE_LATEST]) globals_init)
    = [0x01; 0x40]
  /\ reply_of (handle_call platform_ok (term_binary [OPCODE_LATEST_FOR]) globals_init)
    = [0x01; 0x40].
Proof. by vm_compute. Qed.

(** ** The started flag *)

Lemma handle_call_started env req g :
  g_ble_started g = true ->
  g_ble_started (globals_of (handle_call env req g)) = true.
Proof.
  intros Hs. destruct req as [bin|]; [|done].
  destruct bin as [|op body]; [done|].
  hc_cons. unfold globals_of. rewrite Hs.
  repeat case_match; cbn [fst snd]; done.
Qed.

Lemma maybe_mark_latest_started idx g :
  g_ble_started (maybe_mark_latest idx g).2 = g_ble_started g.
Proof. unfold maybe_mark_latest. by destruct (merged _). Qed.

Lemma gap_event_cb_started event g g' fx :
  gap_event_cb event g = Some (g', fx) -> g_ble_started g' = g_ble_started g.
Proof.
  destruct event as [desc| |]; cbn [gap_event_cb]; try (by intros [= <- _]).
  destruct (adv_extract _ _ _) as [[ex tr]|]; [|done].
  destruct (negb (has_mfg ex) && negb (has_svc ex)); [by intros [= <- _]|].
  destruct (cache_find_or_alloc _ _) as [idx ds].
  destruct (0 <=? idx); [|by intros [= <- _]].
  unfold gap_disc_update.
  intros H. repeat (case_match; simplify_option_eq); try done;
  match goal with
  | Hm : maybe_mark_latest ?i ?g0 = (_, ?g2) |- g_ble_started ?g2 = _ =>
      pose proof (maybe_mark_latest_started i g0) as Hst; rewrite Hm in Hst;
      exact Hst
  end.
Qed.

Lemma step_started i g g' out fx :
  step i g = Some (g', out, fx) ->
  g_ble_started g = true -> g_ble_started g' = true.
Proof.
  destruct i as [event|env req]; cbn [step].
  - destruct (gap_event_cb event g) as [[g1 fx1]|] eqn:He; [|done].
    intros [= <- _ _] Hs. by rewrite (gap_event_cb_started _ _ _ _ He).
  - pose proof (handle_call_started env req g) as Hc.
    destruct (handle_call env req g) as [[reply g1] fx1].
    intros [= <- _ _] Hs. by apply Hc.
Qed.

Lemma run_started ins : forall g g',
  run ins g = Some g' -> g_ble_started g = true -> g_ble_started g' = true.
Proof.
  induction ins as [|i ins IH]; intros g g'; cbn [run].
  - by intros [= <-].
  - destruct (step i g) as [[[g1 out] fx]|] eqn:Hstep; [|done].
    intros Hrun Hs. apply (IH g1 g' Hrun). by apply (step_started i g g1 out fx).
Qed.

Lemma handle_call_start_success env body g :
  reply_of (handle_call env (term_binary (OPCODE_BLE_START :: body)) g) = [0x00; 0x01] ->
  g_ble_started (globals_of (handle_call env (term_binary (OPCODE_BLE_START :: body)) g))
    = true.
Proof.
  hc_cons; hc_opcode. unfold reply_of, globals_of.
  destruct (g_ble_started g) eqn:Hs; cbn [negb fst snd]; [done|].
  by destruct (negb (is_ok _)).
Qed.

Lemma handle_call_never_not_started env req g :
  g_ble_started g = true ->
  reply_of (handle_call env req g) <> [0x01; 0x32] /\
  reply_of (handle_call env req g) <> [0x01; 0x40].
Proof.
  intros Hs. destruct req as [bin|]; [|done].
  destruct bin as [|op body]; [done|].
  hc_cons. unfold reply_of. rewrite Hs.
  repeat case_match; cbn [fst snd]; done.
Qed.

(** C10. Once a [RADIO_START] request has been answered with success, the
    started flag is set after every later sequence of events and calls,
    [RADIO_STOP] included: [RADIO_STOP] then answers success, cancels discovery
    and leaves the globals as they are; no request is answered with a
    not-started code (0x32 or 0x40); and [LATEST] still answers from the
    cache. *)
Theorem started_flag_monotone env0 body0 g0 ins g :
  reply_of (handle_call env0 (term_binary (OPCODE_BLE_START :: body0)) g0)
    = [0x00; 0x01] ->
  run ins (globals_of (handle_call env0 (term_binary (OPCODE_BLE_START :: body0)) g0))
    = Some g ->
  g_ble_started g = true
  /\ (forall env body,
        handle_call env (term_binary (OPCODE_BLE_STOP :: body)) g
          = ([0x00; 0x01], g, [ble_gap_disc_cancel]))
  /\ (forall env req,
        reply_of (handle_call env req g) <> [0x01; 0x32] /\
        reply_of (handle_call env req g) <> [0x01; 0x40])
  /\ (forall env body,
        0 <= g_latest_index g ->
        reply_of (handle_call env (term_binary (OPCODE_LATEST :: body)) g)
          = reply_latest (dev (g_devices g) (g_latest_index g))).
Proof.
  intros Hstart Hrun.
  assert (Hs : g_ble_started g = true).
  { apply (run_started ins _ g Hrun). by apply handle_call_start_success. }
  split; [done|]. split; [|split].
  - intros env body. hc_cons; hc_opcode. by rewrite Hs.
  - intros env req. by apply handle_call_never_not_started.
  - intros env body Hidx. rewrite handle_call_latest by done.
    unfold reply_of. cbn [fst snd].
    by replace (g_latest_index g <? 0) with false by (symmetry; apply Z.ltb_ge; lia).
Qed.

Lemma started_flag_monotone_witness :
  g_ble_started (set_started globals_init) = true
  /\ (forall env body,
        handle_call env (term_binary (OPCODE_BLE_STOP :: body)) (set_started globals_init)
          = ([0x00; 0x01], set_started globals_init, [ble_gap_disc_cancel]))
  /\ (forall env req,
        reply_of (handle_call env req (set_started globals_init)) <> [0x01; 0x32] /\
        reply_of (handle_call env req (set_started globals_init)) <> [0x01; 0x40])
  /\ (forall env body,
        0 <= g_latest_index (set_started globals_init) ->
        reply_of (handle_call env (term_binary (OPCODE_LATEST :: body))
                    (set_started globals_init))
          = reply_latest (dev (g_devices (set_started globals_init))
                              (g_latest_index (set_started globals_init)))).
Proof.
  apply (started_flag_monotone platform_ok [] globals_init
           [in_call platform_ok (term_binary [OPCODE_BLE_STOP]);
            in_call platform_ok (term_binary [OPCODE_LATEST])]
           (set_started globals_init)).
  - reflexivity.
  - reflexivity.
Defined.

(** ** One discovery event on the cache *)

Lemma disc_record_keys desc ex d :
  addr (disc_record desc ex d) = addr d /\
  in_use (disc_record desc ex d) = in_use d /\
  rssi (disc_record desc ex d) = desc_rssi desc.
Proof.
  unfold disc_record.
  by destruct (has_mfg ex && _), (has_svc ex && _).
Qed.

Lemma disc_record_no_fields desc ex d :
  has_mfg ex = false -> has_svc ex = false ->
  disc_record desc ex d = set_rssi d (desc_rssi desc).
Proof. intros Hm Hs. unfold disc_record. by rewrite Hm, Hs. Qed.

(** What [gap_event_cb] leaves in the slot [idx] and in [g_latest_index]. *)
Lemma disc_update_spec desc ex idx g :
  0 <= idx < zlen (g_devices g) ->
  let d := dev (g_devices g) idx in
  let d3 := disc_record desc ex d in
  let r := disc_update desc ex idx g in
  dev (g_devices r.1) idx = (if merged d3 then update_device_id d3 else d3) /\
  (forall j, 0 <= j -> j <> idx -> dev (g_devices r.1) j = dev (g_devices g) j) /\
  length (g_devices r.1) = length (g_devices g) /\
  g_latest_index r.1 = (if merged d3 then idx else g_latest_index g) /\
  g_ble_started r.1 = g_ble_started g /\
  r.2 = (if negb (merged d) && merged d3
         then [LOG_MERGED (update_device_id d3)] else []).
Proof.
  intros Hidx. cbv zeta. unfold disc_update, maybe_mark_latest.
  cbn [g_devices set_devices].
  rewrite dev_set_same by lia.
  destruct (merged (disc_record desc ex (dev (g_devices g) idx))) eqn:Hm;
    cbn [fst snd g_devices g_latest_index g_ble_started set_devices set_latest_index].
  - rewrite dev_set_same by (rewrite dev_set_length; lia).
    repeat split; try done.
    + intros j Hj Hne. rewrite !dev_set_other by lia. done.
    + by rewrite !dev_set_length.
  - rewrite dev_set_same by lia. rewrite andb_false_r.
    repeat split; try done.
    + intros j Hj Hne. rewrite !dev_set_other by lia. done.
    + by rewrite !dev_set_length.
Qed.

Lemma cache_find_or_alloc_length a ds :
  length (cache_find_or_alloc a ds).2 = length ds.
Proof.
  pose proof (cache_find_or_alloc_spec a ds) as H.
  destruct (cache_find_or_alloc a ds) as [idx ds']. cbn [snd].
  destruct H as [(_ & -> & _)|[(_ & -> & _)|(_ & -> & _)]]; try done.
  apply dev_set_length.
Qed.

(** The slot [cache_find_or_alloc] returns holds the address looked up. *)
Lemma cache_find_or_alloc_slot a ds :
  length ds = 12%nat ->
  let r := cache_find_or_alloc a ds in
  0 <= r.1 ->
  r.1 < MAX_DEVICES /\
  in_use (dev r.2 r.1) = true /\
  take 6 (addr (dev r.2 r.1)) = take 6 a /\
  forall j, 0 <= j -> j <> r.1 -> dev r.2 j = dev ds j.
Proof.
  intros Hlen. cbv zeta.
  pose proof (cache_find_or_alloc_spec a ds) as H.
  destruct (cache_find_or_alloc a ds) as [idx ds']. cbn [fst snd]. intros Hidx.
  destruct H as [(-> & _)|[(Hr & -> & Hu & Hm & _)|(Hr & -> & _)]]; [lia| |].
  - repeat split; try done; try lia.
    unfold memcmp6 in Hm. by apply bool_decide_eq_true in Hm.
  - unfold MAX_DEVICES in *.
    rewrite dev_set_same by lia. cbn [in_use addr set_in_use_addr].
    repeat split; try done; try lia.
    + by rewrite take_take.
    + intros j Hj Hne. apply dev_set_other; lia.
Qed.

(** C8, as the code has it. A discovery event whose advertisement yields a
    manufacturer or a service field, and whose address has or gets a slot,
    sets that record's rssi to the event's rssi; an event that yields neither
    field, or whose address gets no slot, leaves the globals as they are. *)
Theorem gap_event_cb_rssi desc g :
  wf_desc desc -> length (g_devices g) = 12%nat ->
  exists ex tr g' fx,
    adv_extract (data desc) (length_data desc) [] = Some (ex, tr) /\
    gap_event_cb (BLE_GAP_EVENT_DISC desc) g = Some (g', fx) /\
    (has_mfg ex = false -> has_svc ex = false -> g' = g /\ fx = []) /\
    (has_mfg ex = true \/ has_svc ex = true ->
       let r := cache_find_or_alloc (take 6 (addr_val desc)) (g_devices g) in
       (0 <= r.1 ->
          in_use (dev (g_devices g') r.1) = true /\
          take 6 (addr (dev (g_devices g') r.1)) = addr_val desc /\
          rssi (dev (g_devices g') r.1) = desc_rssi desc) /\
       (r.1 < 0 -> g' = g /\ fx = [])).
Proof.
  intros Hwf Hlen.
  destruct (gap_event_cb_disc desc g Hwf) as (ex & tr & Hex & _ & Hcb).
  exists ex, tr, (disc_step desc ex g).1, (disc_step desc ex g).2.
  split; [done|]. split; [by destruct (disc_step desc ex g)|].
  unfold disc_step. split.
  - intros -> ->. done.
  - intros Hf.
    replace (negb (has_mfg ex) && negb (has_svc ex)) with false
      by (destruct Hf as [-> | ->]; by rewrite ?andb_false_r).
    pose proof (cache_find_or_alloc_slot (take 6 (addr_val desc)) (g_devices g) Hlen)
      as Hslot.
    pose proof (cache_find_or_alloc_length (take 6 (addr_val desc)) (g_devices g))
      as Hl.
    pose proof (cache_find_or_alloc_spec (take 6 (addr_val desc)) (g_devices g))
      as Hspec.
    cbv zeta in *.
    destruct (cache_find_or_alloc _ _) as [idx ds]. cbn [fst snd] in *. split.
    + intros Hidx. replace (0 <=? idx) with true by (symmetry; by apply Z.leb_le).
      destruct (Hslot Hidx) as (Hlt & Hu & Ha & _).
      pose proof (disc_update_spec desc ex idx (set_devices g ds)) as Hup.
      cbv zeta in Hup. cbn [g_devices set_devices] in Hup.
      destruct Hup as (Hd & _); [unfold MAX_DEVICES in *; lia|].
      rewrite Hd.
      destruct (disc_record_keys desc ex (dev ds idx)) as (Hka & Hku & Hkr).
      destruct Hwf as (Hal & _).
      assert (Ht : take 6 (addr_val desc) = addr_val desc)
        by (apply take_ge; lia).
      rewrite !Ht in Ha.
      destruct (merged _).
      * destruct (update_device_id_fields (disc_record desc ex (dev ds idx)))
          as (-> & -> & -> & _).
        by rewrite Hka, Hku, Hkr, Hu, Ha.
      * by rewrite Hka, Hku, Hkr, Hu, Ha.
    + intros Hidx.
      replace (0 <=? idx) with false by (symmetry; apply Z.leb_gt; lia).
      destruct Hspec as [(_ & -> & _)|[(? & _)|(? & _)]]; try lia.
      cbn [fst snd]. by rewrite set_devices_id.
Qed.

Lemma gap_event_cb_rssi_witness :
  exists ex tr g' fx,
    adv_extract adv_svc2 6 [] = Some (ex, tr) /\
    gap_event_cb (disc addr_A (-58) adv_svc2) globals_init = Some (g', fx) /\
    (has_mfg ex = false -> has_svc ex = false -> g' = globals_init /\ fx = []) /\
    (has_mfg ex = true \/ has_svc ex = true ->
       let r := cache_find_or_alloc (take 6 addr_A) (g_devices globals_init) in
       (0 <= r.1 ->
          in_use (dev (g_devices g') r.1) = true /\
          take 6 (addr (dev (g_devices g') r.1)) = addr_A /\
          rssi (dev (g_devices g') r.1) = -58) /\
       (r.1 < 0 -> g' = globals_init /\ fx = [])).
Proof.
  apply (gap_event_cb_rssi
           {| addr_val := addr_A; desc_rssi := -58; data := adv_svc2;
              length_data := 6 |} globals_init).
  - repeat split; try (cbn; lia). repeat constructor; unfold is_byte; lia.
  - reflexivity.
Defined.

(** An event that carries neither field leaves the rssi of its address's
    record: after a manufacturer event at -60, a flags-only event at -58 for
    the same address changes nothing. *)
Lemma rssi_not_updated_without_fields :
  (g ← run [in_event (disc addr_A (-60) adv_mfg8)] globals_init;
   r ← gap_event_cb (disc addr_A (-58) adv_flags) g;
   Some (take 6 (addr (dev (g_devices g) 0)), rssi (dev (g_devices g) 0),
         rssi (dev (g_devices r.1) 0), bool_decide (g_devices r.1 = g_devices g)))
  = Some (addr_A, -60, -60, true).
Proof. by vm_compute. Qed.

(** ** Looking an address up again *)

Lemma cache_find_first ds a n : forall i idx,
  i <= idx < i + Z.of_nat n ->
  in_use (dev ds idx) && memcmp6 (addr (dev ds idx)) a = true ->
  (forall j, i <= j < idx ->
     in_use (dev ds j) && memcmp6 (addr (dev ds j)) a = false) ->
  cache_find ds a i n = idx.
Proof.
  induction n as [|n IH]; intros i idx Hidx Hm Hfirst; [lia|].
  cbn [cache_find]. destruct (decide (idx = i)) as [->|Hne].
  - by rewrite Hm.
  - rewrite (Hfirst i) by lia. apply IH; [lia|done|]. intros j Hj. apply Hfirst. lia.
Qed.

(** The first match of the slot returned, in the array returned. *)
Lemma cache_find_or_alloc_first a ds :
  length ds = 12%nat ->
  let r := cache_find_or_alloc a ds in
  0 <= r.1 ->
  r.1 < MAX_DEVICES /\
  in_use (dev r.2 r.1) && memcmp6 (addr (dev r.2 r.1)) a = true /\
  forall j, 0 <= j < r.1 ->
    in_use (dev r.2 j) && memcmp6 (addr (dev r.2 j)) a = false.
Proof.
  intros Hlen. cbv zeta.
  pose proof (cache_find_or_alloc_spec a ds) as H.
  destruct (cache_find_or_alloc a ds) as [idx ds']. cbn [fst snd]. intros Hidx.
  destruct H as [(-> & _)|[(Hr & -> & Hu & Hm & Hfirst)|(Hr & -> & _ & _ & Hno)]];
    [lia| |].
  - split; [lia|]. split; [by rewrite Hu, Hm|done].
  - unfold MAX_DEVICES in *. split; [lia|]. split.
    + rewrite dev_set_same by lia. cbn [in_use addr set_in_use_addr andb].
      unfold memcmp6. apply bool_decide_eq_true. by rewrite take_take.
    + intros j Hj. rewrite dev_set_other by lia. apply Hno. lia.
Qed.

(** A second lookup of the same address, after the records kept their
    addresses and [in_use] flags, returns the same slot and allocates
    nothing. *)
Lemma cache_find_or_alloc_again a ds ds2 :
  length ds = 12%nat ->
  let r := cache_find_or_alloc a ds in
  0 <= r.1 ->
  (forall j, 0 <= j < MAX_DEVICES ->
     in_use (dev ds2 j) = in_use (dev r.2 j) /\ addr (dev ds2 j) = addr (dev r.2 j)) ->
  cache_find_or_alloc a ds2 = (r.1, ds2).
Proof.
  intros Hlen. cbv zeta. intros Hidx Hkeys.
  destruct (cache_find_or_alloc_first a ds Hlen Hidx) as (Hlt & Hm & Hfirst).
  assert (Hfind : cache_find ds2 a 0 (Z.to_nat MAX_DEVICES)
                  = (cache_find_or_alloc a ds).1).
  { apply cache_find_first.
    - unfold MAX_DEVICES in *. lia.
    - destruct (Hkeys (cache_find_or_alloc a ds).1) as [-> ->]; [lia|done].
    - intros j Hj. destruct (Hkeys j) as [-> ->]; [lia|]. by apply Hfirst. }
  unfold cache_find_or_alloc at 1. rewrite Hfind.
  by replace (0 <=? (cache_find_or_alloc a ds).1) with true
    by (symmetry; by apply Z.leb_le).
Qed.

Lemma is_switchbot_mfg_memcpy dst rest n :
  2 <= n ->
  is_switchbot_mfg (memcpy dst (0x69 :: 0x09 :: rest)) n = true.
Proof.
  intros Hn. unfold is_switchbot_mfg.
  by replace (n <? 2) with false by (symmetry; apply Z.ltb_ge; lia).
Qed.

(** ** Ingesting one event *)

Lemma gap_event_cb_ingest desc g ex tr :
  wf_desc desc -> length (g_devices g) = 12%nat ->
  adv_extract (data desc) (length_data desc) [] = Some (ex, tr) ->
  has_mfg ex = true \/ has_svc ex = true ->
  let r := cache_find_or_alloc (take 6 (addr_val desc)) (g_devices g) in
  0 <= r.1 ->
  let d := dev r.2 r.1 in
  let d3 := disc_record desc ex d in
  exists g',
    gap_event_cb (BLE_GAP_EVENT_DISC desc) g
      = Some (g', if negb (merged d) && merged d3
                  then [LOG_MERGED (update_device_id d3)] else []) /\
    dev (g_devices g') r.1 = (if merged d3 then update_device_id d3 else d3) /\
    (forall j, 0 <= j -> j <> r.1 -> dev (g_devices g') j = dev (g_devices g) j) /\
    length (g_devices g') = 12%nat /\
    g_latest_index g' = (if merged d3 then r.1 else g_latest_index g) /\
    g_ble_started g' = g_ble_started g.
Proof.
  intros Hwf Hlen Hex Hf. cbv zeta. intros Hidx.
  destruct (gap_event_cb_disc desc g Hwf) as (ex' & tr' & Hex' & _ & Hcb).
  assert (ex' = ex) as -> by congruence.
  rewrite Hcb. unfold disc_step.
  replace (negb (has_mfg ex) && negb (has_svc ex)) with false
    by (destruct Hf as [-> | ->]; by rewrite ?andb_false_r).
  pose proof (cache_find_or_alloc_slot (take 6 (addr_val desc)) (g_devices g) Hlen)
    as Hslot.
  pose proof (cache_find_or_alloc_length (take 6 (addr_val desc)) (g_devices g))
    as Hl.
  cbv zeta in Hslot.
  destruct (cache_find_or_alloc _ _) as [idx ds]. cbn [fst snd] in *.
  destruct (Hslot Hidx) as (Hlt & _ & _ & Hother).
  replace (0 <=? idx) with true by (symmetry; by apply Z.leb_le).
  pose proof (disc_update_spec desc ex idx (set_devices g ds)) as Hup.
  cbv zeta in Hup. cbn [g_devices g_latest_index g_ble_started set_devices] in Hup.
  destruct Hup as (Hd & Ho & Hle & Hli & Hst & Hfx); [unfold MAX_DEVICES in *; lia|].
  exists (disc_update desc ex idx (set_devices g ds)).1.
  rewrite <- Hfx. split; [by destruct (disc_update _ _ _ _)|].
  repeat split; try done.
  - intros j Hj Hne. rewrite Ho by done. by apply Hother.
  - by rewrite Hle, Hl.
Qed.

Lemma mfg_only_record desc ex tr rest d :
  has_mfg ex = true -> has_svc ex = false -> adv_mfg_len ex <= MAX_BLE_DATA ->
  field_bytes (data desc) (adv_mfg ex) (adv_mfg_len ex)
    = SWITCHBOT_COMPANY_ID_LE0 :: SWITCHBOT_COMPANY_ID_LE1 :: rest ->
  adv_extract (data desc) (length_data desc) [] = Some (ex, tr) ->
  let d3 := disc_record desc ex d in
  have_mfg d3 = true /\ have_svc d3 = have_svc d /\
  is_switchbot_mfg (mfg d3) (mfg_len d3) = true.
Proof.
  intros Hm Hs Hcap Hbytes _. cbv zeta. unfold disc_record.
  rewrite Hm, Hs. cbn [andb].
  replace (adv_mfg_len ex <=? MAX_BLE_DATA) with true
    by (symmetry; by apply Z.leb_le).
  cbn [have_mfg have_svc mfg mfg_len set_mfg set_rssi]. repeat split.
  rewrite Hbytes. apply is_switchbot_mfg_memcpy.
  assert (Hl : (2 <= length (field_bytes (data desc) (adv_mfg ex) (adv_mfg_len ex)))%nat).
  { rewrite Hbytes. cbn [length]. lia. }
  unfold field_bytes in Hl. destruct (adv_mfg ex); [|cbn [length] in Hl; lia].
  rewrite length_take in Hl. lia.
Qed.

Lemma svc_only_record desc ex d :
  has_mfg ex = false -> has_svc ex = true -> adv_svc_len ex <= MAX_BLE_DATA ->
  let d3 := disc_record desc ex d in
  have_mfg d3 = have_mfg d /\ have_svc d3 = true /\
  mfg d3 = mfg d /\ mfg_len d3 = mfg_len d.
Proof.
  intros Hm Hs Hcap. cbv zeta. unfold disc_record.
  rewrite Hm, Hs. cbn [andb].
  by replace (adv_svc_len ex <=? MAX_BLE_DATA) with true
    by (symmetry; by apply Z.leb_le).
Qed.

(** Manufacturer data, then service data, then the same service data again,
    for one address whose record has no service half yet: [MERGED] is logged
    by the second event only. *)
Lemma merge_logged_once g d1 d2 :
  wf_desc d1 -> wf_desc d2 -> length (g_devices g) = 12%nat ->
  addr_val d2 = addr_val d1 -> mfg_only d1 -> svc_only d2 ->
  let r := cache_find_or_alloc (take 6 (addr_val d1)) (g_devices g) in
  0 <= r.1 -> have_svc (dev r.2 r.1) = false ->
  exists g1 g2 g3 d,
    gap_event_cb (BLE_GAP_EVENT_DISC d1) g = Some (g1, []) /\
    gap_event_cb (BLE_GAP_EVENT_DISC d2) g1 = Some (g2, [LOG_MERGED d]) /\
    gap_event_cb (BLE_GAP_EVENT_DISC d2) g2 = Some (g3, []) /\
    g_latest_index g1 = g_latest_index g /\
    g_latest_index g2 = r.1 /\ g_latest_index g3 = r.1.
Proof.
  intros Hwf1 Hwf2 Hlen Haddr (ex1 & tr1 & rest & Hex1 & Hm1 & Hs1 & Hcap1 & Hb1)
    (ex2 & tr2 & Hex2 & Hm2 & Hs2 & Hcap2).
  cbv zeta. intros Hidx Hnosvc.
  set (a := take 6 (addr_val d1)) in *.
  set (r := cache_find_or_alloc a (g_devices g)) in *.
  destruct (cache_find_or_alloc_slot a (g_devices g) Hlen Hidx)
    as (Hlt & _ & _ & Hother).
  fold r in Hlt, Hother.
  (* first event *)
  destruct (gap_event_cb_ingest d1 g ex1 tr1 Hwf1 Hlen Hex1 (or_introl Hm1) Hidx)
    as (g1 & Hcb1 & Hd1 & Ho1 & Hl1 & Hli1 & _).
  fold a in Hcb1, Hd1, Ho1, Hli1. fold r in Hcb1, Hd1, Ho1, Hli1.
  set (da := disc_record d1 ex1 (dev r.2 r.1)) in *.
  destruct (mfg_only_record d1 ex1 tr1 rest (dev r.2 r.1) Hm1 Hs1 Hcap1 Hb1 Hex1)
    as (Hhm & Hhs & Hsb).
  fold da in Hhm, Hhs, Hsb.
  assert (Hma : merged da = false).
  { unfold merged. rewrite Hhs, Hnosvc. by rewrite andb_false_r. }
  rewrite Hma in Hcb1, Hd1, Hli1. rewrite andb_false_r in Hcb1.
  assert (Hk1 : forall j, 0 <= j < MAX_DEVICES ->
    in_use (dev (g_devices g1) j) = in_use (dev r.2 j) /\
    addr (dev (g_devices g1) j) = addr (dev r.2 j)).
  { intros j Hj. destruct (decide (j = r.1)) as [->|Hne].
    - rewrite Hd1. unfold da.
      by destruct (disc_record_keys d1 ex1 (dev r.2 r.1)) as (-> & -> & _).
    - rewrite Ho1 by lia. rewrite Hother by lia. done. }
  pose proof (cache_find_or_alloc_again a (g_devices g) (g_devices g1) Hlen Hidx Hk1)
    as Hag1. fold r in Hag1.
  (* second event *)
  assert (Hidx1 : 0 <= (cache_find_or_alloc (take 6 (addr_val d2)) (g_devices g1)).1).
  { rewrite Haddr. fold a. by rewrite Hag1. }
  destruct (gap_event_cb_ingest d2 g1 ex2 tr2 Hwf2 Hl1 Hex2 (or_intror Hs2) Hidx1)
    as (g2 & Hcb2 & Hd2 & Ho2 & Hl2 & Hli2 & _).
  rewrite Haddr in Hcb2, Hd2, Ho2, Hli2. fold a in Hcb2, Hd2, Ho2, Hli2.
  rewrite Hag1 in Hcb2, Hd2, Ho2, Hli2. cbn [fst snd] in Hcb2, Hd2, Ho2, Hli2.
  rewrite Hd1 in Hcb2, Hd2, Hli2.
  set (db := disc_record d2 ex2 da) in *.
  destruct (svc_only_record d2 ex2 da Hm2 Hs2 Hcap2) as (Hbm & Hbs & Hbmfg & Hbl).
  fold db in Hbm, Hbs, Hbmfg, Hbl.
  assert (Hmb : merged db = true).
  { unfold merged. by rewrite Hbm, Hbs, Hbmfg, Hbl, Hhm, Hsb. }
  rewrite Hma, Hmb in Hcb2. rewrite Hmb in Hd2, Hli2. cbn [negb andb] in Hcb2.
  assert (Hk2 : forall j, 0 <= j < MAX_DEVICES ->
    in_use (dev (g_devices g2) j) = in_use (dev r.2 j) /\
    addr (dev (g_devices g2) j) = addr (dev r.2 j)).
  { intros j Hj. destruct (decide (j = r.1)) as [->|Hne].
    - rewrite Hd2.
      destruct (update_device_id_fields db) as (-> & -> & _). unfold db.
      destruct (disc_record_keys d2 ex2 da) as (-> & -> & _). unfold da.
      by destruct (disc_record_keys d1 ex1 (dev r.2 r.1)) as (-> & -> & _).
    - rewrite Ho2 by lia. by apply Hk1. }
  pose proof (cache_find_or_alloc_again a (g_devices g) (g_devices g2) Hlen Hidx Hk2)
    as Hag2. fold r in Hag2.
  (* third event *)
  assert (Hidx2 : 0 <= (cache_find_or_alloc (take 6 (addr_val d2)) (g_devices g2)).1).
  { rewrite Haddr. fold a. by rewrite Hag2. }
  destruct (gap_event_cb_ingest d2 g2 ex2 tr2 Hwf2 Hl2 Hex2 (or_intror Hs2) Hidx2)
    as (g3 & Hcb3 & Hd3 & _ & _ & Hli3 & _).
  rewrite Haddr in Hcb3, Hd3, Hli3. fold a in Hcb3, Hd3, Hli3.
  rewrite Hag2 in Hcb3, Hd3, Hli3. cbn [fst snd] in Hcb3, Hd3, Hli3.
  rewrite Hd2 in Hcb3, Hli3.
  rewrite update_device_id_merged, Hmb in Hcb3. cbn [negb andb] in Hcb3.
  set (dc := disc_record d2 ex2 (update_device_id db)) in *.
  assert (Hmc : merged dc = true).
  { destruct (svc_only_record d2 ex2 (update_device_id db) Hm2 Hs2 Hcap2)
      as (Hcm & Hcs & Hcmfg & Hcl).
    fold dc in Hcm, Hcs, Hcmfg, Hcl.
    unfold merged. rewrite Hcm, Hcs, Hcmfg, Hcl.
    destruct (update_device_id_fields db) as (_ & _ & _ & -> & -> & -> & _).
    by rewrite Hbm, Hbmfg, Hbl, Hhm, Hsb. }
  rewrite Hmc in Hli3.
  exists g1, g2, g3, (update_device_id db). by repeat split.
Qed.

(** C1, as the code has it. An event that reaches a slot sets
    [g_latest_index] to that slot whenever the record is a valid merged
    reading after the event, also when it already was one before, and leaves
    the index alone otherwise; only the [MERGED] report is edge-triggered: it
    appears when the record was not valid before and is valid after. For
    manufacturer data that begins with the SwitchBot company id 69 09, then
    service data, then the same service data again, both payloads of at most
    31 bytes, to one address that is held in or gets a slot and whose record
    had no service half, the report appears once, on the second event. *)
Theorem latest_index_level_triggered desc g :
  wf_desc desc -> length (g_devices g) = 12%nat ->
  exists ex tr g' fx,
    adv_extract (data desc) (length_data desc) [] = Some (ex, tr) /\
    gap_event_cb (BLE_GAP_EVENT_DISC desc) g = Some (g', fx) /\
    (has_mfg ex = true \/ has_svc ex = true ->
     let r := cache_find_or_alloc (take 6 (addr_val desc)) (g_devices g) in
     0 <= r.1 ->
     let was_merged := merged (dev r.2 r.1) in
     let merged_now := merged (dev (g_devices g') r.1) in
     g_latest_index g' = (if merged_now then r.1 else g_latest_index g) /\
     fx = (if negb was_merged && merged_now
           then [LOG_MERGED (dev (g_devices g') r.1)] else [])) /\
    (forall g0 d1 d2,
       wf_desc d1 -> wf_desc d2 -> length (g_devices g0) = 12%nat ->
       addr_val d2 = addr_val d1 -> mfg_only d1 -> svc_only d2 ->
       let r := cache_find_or_alloc (take 6 (addr_val d1)) (g_devices g0) in
       0 <= r.1 -> have_svc (dev r.2 r.1) = false ->
       exists g1 g2 g3 d,
         gap_event_cb (BLE_GAP_EVENT_DISC d1) g0 = Some (g1, []) /\
         gap_event_cb (BLE_GAP_EVENT_DISC d2) g1 = Some (g2, [LOG_MERGED d]) /\
         gap_event_cb (BLE_GAP_EVENT_DISC d2) g2 = Some (g3, [])).
Proof.
  intros Hwf Hlen.
  destruct (gap_event_cb_disc desc g Hwf) as (ex & tr & Hex & _ & Hcb).
  exists ex, tr, (disc_step desc ex g).1, (disc_step desc ex g).2.
  split; [done|]. split; [by destruct (disc_step desc ex g)|]. split.
  - intros Hf. cbv zeta. intros Hidx.
    destruct (gap_event_cb_ingest desc g ex tr Hwf Hlen Hex Hf Hidx)
      as (g' & Hcb' & Hd & _ & _ & Hli & _).
    rewrite Hcb in Hcb'. injection Hcb' as Hstep. rewrite Hstep. cbn [fst snd].
    rewrite Hd, Hli.
    destruct (merged (disc_record desc ex _)) eqn:Hm.
    + by rewrite update_device_id_merged, Hm.
    + by rewrite Hm, andb_false_r.
  - intros g0 d1 d2 Hwf1 Hwf2 Hlen0 Haddr Hmo Hso. cbv zeta. intros Hidx Hns.
    destruct (merge_logged_once g0 d1 d2 Hwf1 Hwf2 Hlen0 Haddr Hmo Hso Hidx Hns)
      as (g1 & g2 & g3 & d & H1 & H2 & H3 & _).
    by exists g1, g2, g3, d.
Qed.

Lemma desc_of_svc2_wf r : -128 <= r <= 127 -> wf_desc (desc_of addr_A r adv_svc2).
Proof.
  intros Hr. repeat split; try (cbn; lia). repeat constructor; unfold is_byte; lia.
Qed.

Lemma latest_index_level_triggered_witness :
  (exists g',
     merged (dev (g_devices sample_two) 0) = true /\
     g_latest_index sample_two = 1 /\
     gap_event_cb (disc addr_A (-55) adv_svc2) sample_two = Some (g', []) /\
     merged (dev (g_devices g') 0) = true /\
     g_latest_index g' = 0) /\
  (exists g1 g2 g3 d,
     gap_event_cb (disc addr_A (-60) adv_mfg8) globals_init = Some (g1, []) /\
     gap_event_cb (disc addr_A (-58) adv_svc2) g1 = Some (g2, [LOG_MERGED d]) /\
     gap_event_cb (disc addr_A (-58) adv_svc2) g2 = Some (g3, [])).
Proof.
  destruct (latest_index_level_triggered (desc_of addr_A (-55) adv_svc2) sample_two)
    as (ex & tr & g' & fx & Hex & Hcb & Hgen & Hseq).
  { apply desc_of_svc2_wf. lia. }
  { reflexivity. }
  split.
  - assert (Hsvc : has_svc ex = true).
    { vm_compute in Hex. by injection Hex as <- _. }
    cbv zeta in Hgen.
    destruct (Hgen (or_intror Hsvc)) as [Hli Hfx]; [by vm_compute|].
    change (cache_find_or_alloc (take 6 (addr_val (desc_of addr_A (-55) adv_svc2)))
              (g_devices sample_two))
      with (cache_find_or_alloc (take 6 addr_A) (g_devices sample_two)) in Hli, Hfx.
    assert (Hslot : cache_find_or_alloc (take 6 addr_A) (g_devices sample_two)
                    = (0, g_devices sample_two)) by (by vm_compute).
    rewrite Hslot in Hli, Hfx. cbn [fst snd] in Hli, Hfx.
    assert (Hwas : merged (dev (g_devices sample_two) 0) = true) by (by vm_compute).
    rewrite Hwas in Hfx. cbn [negb andb] in Hfx. subst fx.
    assert (Hnow : merged (dev (g_devices g') 0) = true).
    { vm_compute in Hcb. injection Hcb as <-. by vm_compute. }
    rewrite Hnow in Hli.
    exists g'. split_and!; [exact Hwas|by vm_compute|exact Hcb|exact Hnow|exact Hli].
  - apply (Hseq globals_init (desc_of addr_A (-60) adv_mfg8)
             (desc_of addr_A (-58) adv_svc2)).
    + repeat split; try (cbn; lia). repeat constructor; unfold is_byte; lia.
    + apply desc_of_svc2_wf. lia.
    + reflexivity.
    + reflexivity.
    + eexists _, _, _. split_and!.
      * vm_compute. reflexivity.
      * reflexivity.
      * reflexivity.
      * by vm_compute.
      * reflexivity.
    + eexists _, _. split_and!.
      * vm_compute. reflexivity.
      * reflexivity.
      * reflexivity.
      * by vm_compute.
    + by vm_compute.
    + reflexivity.
Defined.

(** The index moves back to a record that was already valid. After address A
    and then address B have each completed a reading, the index is B's slot 1;
    one more event for A, whose record is valid before the event, logs nothing
    and moves the index to slot 0. *)
Lemma latest_index_moves_back :
  (g ← run [in_event (disc addr_A (-60) adv_mfg8);
            in_event (disc addr_A (-58) adv_svc2);
            in_event (disc addr_B (-70) adv_mfg8);
            in_event (disc addr_B (-71) adv_svc2)] globals_init;
   r ← gap_event_cb (disc addr_A (-55) adv_svc2) g;
   Some (merged (dev (g_devices g) 0), merged (dev (g_devices g) 1),
         g_latest_index g, g_latest_index r.1, r.2))
  = Some (true, true, 1, 0, []).
Proof. by vm_compute. Qed.

(** The three-event scenario on the sample events, from the empty cache. *)
Lemma merge_logged_once_sample :
  (r1 ← gap_event_cb (disc addr_A (-60) adv_mfg8) globals_init;
   r2 ← gap_event_cb (disc addr_A (-58) adv_svc2) r1.1;
   r3 ← gap_event_cb (disc addr_A (-58) adv_svc2) r2.1;
   Some (length r1.2, length r2.2, length r3.2))
  = Some (0%nat, 1%nat, 0%nat).
Proof. by vm_compute. Qed.

(** The company id matters to the report: with manufacturer data of another
    company the same three events log nothing and leave the index at -1. *)
Lemma merge_not_logged_other_company :
  (r1 ← gap_event_cb (disc addr_A (-60) adv_mfg_other) globals_init;
   r2 ← gap_event_cb (disc addr_A (-58) adv_svc2) r1.1;
   r3 ← gap_event_cb (disc addr_A (-58) adv_svc2) r2.1;
   Some (r1.2, r2.2, r3.2, g_latest_index r3.1))
  = Some ([], [], [], -1).
Proof. by vm_compute. Qed.

(** ** The derived device id *)

Lemma land_shiftl8_byte a b : 0 <= b < 256 -> Z.land (Z.shiftl a 8) b = 0.
Proof.
  intros Hb. apply Z.bits_inj'. intros n Hn.
  rewrite Z.land_spec, Z.bits_0.
  destruct (Z.lt_ge_cases n 8) as [Hlt|Hge].
  - by rewrite Z.shiftl_spec_low.
  - replace b with (b mod 2 ^ 8) by (apply Z.mod_small; lia).
    rewrite Z.mod_pow2_bits_high by lia. apply andb_false_r.
Qed.

Lemma lor_shiftl8_byte a b :
  0 <= b < 256 -> Z.lor (Z.shiftl a 8) b = a * 256 + b.
Proof.
  intros Hb.
  rewrite <- Z.lxor_lor by (by apply land_shiftl8_byte).
  rewrite <- Z.add_nocarry_lxor by (by apply land_shiftl8_byte).
  by rewrite Z.shiftl_mul_pow2.
Qed.

(** With at least eight manufacturer bytes, [update_device_id] sets the id to
    byte 6 times 256 plus byte 7. *)
Lemma update_device_id_big_endian d :
  have_mfg d = true -> 8 <= mfg_len d ->
  is_byte (mfg d !!! 6%nat) -> is_byte (mfg d !!! 7%nat) ->
  have_device_id (update_device_id d) = true /\
  device_id (update_device_id d) = (mfg d !!! 6%nat) * 256 + mfg d !!! 7%nat.
Proof.
  unfold is_byte. intros Hm Hlen H6 H7. unfold update_device_id.
  rewrite Hm. replace (8 <=? mfg_len d) with true by (symmetry; by apply Z.leb_le).
  cbn [andb have_device_id device_id set_device_id]. split; [done|].
  rewrite (u16_small (mfg d !!! 6%nat)), (u16_small (mfg d !!! 7%nat)) by lia.
  rewrite Z.shiftl_mul_pow2 by lia.
  rewrite (u16_small (_ * 2 ^ 8)) by lia.
  rewrite <- Z.shiftl_mul_pow2 by lia.
  rewrite lor_shiftl8_byte by lia. apply u16_small. lia.
Qed.

(** With fewer than eight manufacturer bytes, [update_device_id] leaves the
    record as it is: a flag that was set stays set. *)
Lemma update_device_id_short d :
  mfg_len d < 8 -> update_device_id d = d.
Proof.
  intros Hlen. unfold update_device_id.
  replace (8 <=? mfg_len d) with false by (symmetry; apply Z.leb_gt; lia).
  by rewrite andb_false_r.
Qed.

(** What an event that reaches a slot does to the derived id: recomputed
    from bytes 6 and 7 when the record is merged and holds at least eight
    manufacturer bytes after the event, and otherwise left as it was, flag
    included. *)
Lemma gap_event_cb_device_id desc g ex tr :
  wf_desc desc -> length (g_devices g) = 12%nat ->
  adv_extract (data desc) (length_data desc) [] = Some (ex, tr) ->
  has_mfg ex = true \/ has_svc ex = true ->
  let r := cache_find_or_alloc (take 6 (addr_val desc)) (g_devices g) in
  0 <= r.1 ->
  let d3 := disc_record desc ex (dev r.2 r.1) in
  exists g' fx,
    gap_event_cb (BLE_GAP_EVENT_DISC desc) g = Some (g', fx) /\
    (merged d3 = true -> 8 <= mfg_len d3 ->
     is_byte (mfg d3 !!! 6%nat) -> is_byte (mfg d3 !!! 7%nat) ->
     have_device_id (dev (g_devices g') r.1) = true /\
     device_id (dev (g_devices g') r.1)
       = (mfg d3 !!! 6%nat) * 256 + mfg d3 !!! 7%nat) /\
    (merged d3 = false \/ mfg_len d3 < 8 ->
     have_device_id (dev (g_devices g') r.1) = have_device_id (dev r.2 r.1) /\
     device_id (dev (g_devices g') r.1) = device_id (dev r.2 r.1)).
Proof.
  intros Hwf Hlen Hex Hf. cbv zeta. intros Hidx.
  destruct (gap_event_cb_ingest desc g ex tr Hwf Hlen Hex Hf Hidx)
    as (g' & Hcb & Hd & _).
  eexists g', _. split; [exact Hcb|]. rewrite Hd.
  set (d := dev (cache_find_or_alloc (take 6 (addr_val desc)) (g_devices g)).2
                (cache_find_or_alloc (take 6 (addr_val desc)) (g_devices g)).1).
  assert (Hkeep : have_device_id (disc_record desc ex d) = have_device_id d /\
                  device_id (disc_record desc ex d) = device_id d).
  { unfold disc_record. by destruct (has_mfg ex && _), (has_svc ex && _). }
  split.
  - intros Hm Hl H6 H7. rewrite Hm. apply update_device_id_big_endian; try done.
    unfold merged in Hm. by destruct (have_mfg (disc_record desc ex d)).
  - intros [Hm|Hl].
    + by rewrite Hm.
    + destruct (merged (disc_record desc ex d)); [|done].
      by rewrite (update_device_id_short _ Hl).
Qed.

(** C3, at the input where the code departs from the claim. Manufacturer data
    of eight bytes and service data complete a reading with id 0x1234; a later
    event for the same address with two manufacturer bytes leaves
    [have_device_id] set and the id 0x1234 in place although the payload now
    has two bytes, and [LATEST_FOR] 0x1234 still answers with that record. *)
Theorem device_id_stale_after_short_payload :
  Forall wf_input run_short_payload
  /\
  (g ← run run_completed globals_init;
   Some (have_device_id (dev (g_devices g) 0), device_id (dev (g_devices g) 0),
         mfg_len (dev (g_devices g) 0)))
  = Some (true, 0x1234, 8)
  /\
  (g ← run run_short_payload globals_init;
   Some (have_device_id (dev (g_devices g) 0), device_id (dev (g_devices g) 0),
         mfg_len (dev (g_devices g) 0),
         reply_of (handle_call platform_ok
                     (term_binary [OPCODE_LATEST_FOR; 0x12; 0x34]) g)))
  = Some (true, 0x1234, 2,
          [0x00; 0x00; 0x11; 0x22; 0x33; 0x44; 0x55; 0xC7;
           0x02; 0xAA; 0xBB; 0x02; 0x69; 0x09]).
Proof.
  split; [|by vm_compute].
  unfold run_short_payload, run_completed. cbn [app].
  repeat constructor; unfold is_byte; cbn; lia.
Qed.

(** ** The company-id gate *)

(** [gap_event_cb] moves [g_latest_index] only to a record that passes the
    merged test, company id included. *)
Lemma gap_event_cb_promotes_merged desc g g' fx :
  wf_desc desc -> length (g_devices g) = 12%nat ->
  gap_event_cb (BLE_GAP_EVENT_DISC desc) g = Some (g', fx) ->
  g_latest_index g' <> g_latest_index g ->
  merged (dev (g_devices g') (g_latest_index g')) = true.
Proof.
  intros Hwf Hlen Hcb Hne.
  destruct (gap_event_cb_disc desc g Hwf) as (ex & tr & Hex & _ & Hcb').
  rewrite Hcb in Hcb'. injection Hcb' as Hstep.
  assert (Hg : g' = (disc_step desc ex g).1) by (by rewrite <- Hstep).
  destruct (has_mfg ex || has_svc ex) eqn:Hf.
  - apply orb_true_iff in Hf.
    destruct (Z.lt_ge_cases
                (cache_find_or_alloc (take 6 (addr_val desc)) (g_devices g)).1 0)
      as [Hneg|Hidx].
    + exfalso. apply Hne. rewrite Hg. unfold disc_step.
      replace (negb (has_mfg ex) && negb (has_svc ex)) with false
        by (destruct Hf as [-> | ->]; by rewrite ?andb_false_r).
      destruct (cache_find_or_alloc _ _) as [idx ds]. cbn [fst] in Hneg.
      by replace (0 <=? idx) with false by (symmetry; apply Z.leb_gt; lia).
    + destruct (gap_event_cb_ingest desc g ex tr Hwf Hlen Hex Hf Hidx)
        as (g2 & Hcb2 & Hd & _ & _ & Hli & _).
      rewrite Hcb in Hcb2. injection Hcb2 as -> _.
      destruct (merged (disc_record desc ex _)) eqn:Hm; [|congruence].
      rewrite Hli, Hd. by rewrite update_device_id_merged.
  - exfalso. apply Hne. rewrite Hg.
    apply orb_false_iff in Hf as [Hm Hs]. unfold disc_step. by rewrite Hm, Hs.
Qed.

(** [LATEST_FOR] answers only with a record that is in use and passes the
    merged test, company id included, when the request is served. *)
Lemma latest_for_returns_merged env b1 b2 body g :
  g_ble_started g = true -> length (g_devices g) = 12%nat ->
  let r := handle_call env (term_binary (OPCODE_LATEST_FOR :: b1 :: b2 :: body)) g in
  reply_of r = [0x01; 0x43]
  \/ exists i, 0 <= i < MAX_DEVICES /\
       reply_of r = reply_latest (dev (g_devices (globals_of r)) i) /\
       in_use (dev (g_devices (globals_of r)) i) = true /\
       merged (dev (g_devices (globals_of r)) i) = true /\
       device_id (dev (g_devices (globals_of r)) i) = wanted_id b1 b2.
Proof.
  intros Hs Hlen. cbv zeta. rewrite handle_call_latest_for by done. cbv zeta.
  unfold reply_of, globals_of. cbn [fst snd g_devices set_devices].
  destruct (latest_for_scan_spec (wanted_id b1 b2) (Z.to_nat MAX_DEVICES)
              (g_devices g) 0) as (_ & _ & Hr).
  { done. } { rewrite Hlen. done. }
  destruct Hr as [[-> _]|(Hr & Hm & Hup & _)]; [by left|].
  right. exists (latest_for_scan (wanted_id b1 b2) (g_devices g) 0
                   (Z.to_nat MAX_DEVICES)).1.
  replace (0 + Z.of_nat (Z.to_nat MAX_DEVICES)) with MAX_DEVICES in Hr by done.
  split; [done|].
  replace (_ <? 0) with false by (symmetry; apply Z.ltb_ge; lia).
  split; [done|]. rewrite Hup.
  unfold id_matches in Hm. rewrite !andb_true_iff in Hm.
  destruct Hm as (((Hu & Hmg) & _) & Hid). apply Z.eqb_eq in Hid.
  rewrite update_device_id_merged.
  by destruct (update_device_id_fields (dev (g_devices g)
       (latest_for_scan (wanted_id b1 b2) (g_devices g) 0 (Z.to_nat MAX_DEVICES)).1))
    as (_ & -> & _).
Qed.

(** C2, at the input where the code departs from the claim. Address A
    completes a reading and becomes the latest; a later event for A carries
    manufacturer data of another company, which overwrites the manufacturer
    half. The record then fails the merged test, [g_latest_index] still points
    at it, and [LATEST] answers with it, the foreign manufacturer bytes
    included; [LATEST_FOR] does not. *)
Theorem latest_returns_overwritten_record :
  Forall wf_input run_other_company
  /\
  (g ← run run_completed globals_init;
   Some (g_latest_index g, merged (dev (g_devices g) 0)))
  = Some (0, true)
  /\
  (g ← run run_other_company globals_init;
   Some (g_latest_index g,
         is_switchbot_mfg (mfg (dev (g_devices g) 0)) (mfg_len (dev (g_devices g) 0)),
         merged (dev (g_devices g) 0),
         reply_of (handle_call platform_ok (term_binary [OPCODE_LATEST]) g),
         reply_of (handle_call platform_ok
                     (term_binary [OPCODE_LATEST_FOR; 0x12; 0x34]) g)))
  = Some (0, false, false,
          [0x00; 0x00; 0x11; 0x22; 0x33; 0x44; 0x55; 0xC7;
           0x02; 0xAA; 0xBB; 0x04; 0x4C; 0x00; 0x10; 0x05],
          [0x01; 0x43]).
Proof.
  split; [|by vm_compute].
  unfold run_other_company, run_completed. cbn [app].
  repeat constructor; unfold is_byte; cbn; lia.
Qed.

(** ** Capacity *)



Lemma add_slot_full tbl a :
  zlen tbl = MAX_DEVICES -> add_slot tbl a = tbl.
Proof. intros H. unfold add_slot. repeat case_decide; try done. lia. Qed.

Lemma add_slot_elem tbl a x : x ∈ add_slot tbl a -> x ∈ tbl \/ x = a.
Proof.
  unfold add_slot. repeat case_decide; try (by left).
  intros [Hx|Hx]%elem_of_app; [by left|]. right.
  by apply list_elem_of_singleton in Hx.
Qed.






(** The table holds only addresses that were seen. *)
Lemma foldl_add_slot_elem l : forall tbl x,
  x ∈ foldl add_slot tbl l -> x ∈ tbl \/ x ∈ l.
Proof.
  induction l as [|a l IH]; intros tbl x Hx; [by left|].
  cbn [foldl] in Hx. destruct (IH _ _ Hx) as [H|H].
  - destruct (add_slot_elem _ _ _ H) as [?| ->]; [by left|].
    right. by apply elem_of_cons; left.
  - right. by apply elem_of_cons; right.
Qed.


Lemma holds_init : holds (g_devices globals_init) [].
Proof.
  unfold holds. cbn [g_devices globals_init length].
  split; [done|]. split; [done|]. split; [constructor|].
  split; [by intros a Ha%elem_of_nil|].
  intros j Hj. unfold dev. rewrite lookup_total_replicate_2 by (unfold MAX_DEVICES in *; lia).
  split; [by rewrite bool_decide_false by lia|]. by intros a Ha.
Qed.

Lemma holds_same_keys ds ds' tbl :
  holds ds tbl -> length ds' = length ds ->
  (forall j, 0 <= j < MAX_DEVICES ->
     in_use (dev ds' j) = in_use (dev ds j) /\ addr (dev ds' j) = addr (dev ds j)) ->
  holds ds' tbl.
Proof.
  intros (Hl & Hn & Hnd & Hnorm & Hslots) Hlen Hkeys.
  split; [congruence|]. repeat split; try done.
  - destruct (Hkeys j H) as [-> _]. by apply Hslots.
  - intros a Ha. destruct (Hkeys j H) as [_ ->]. by apply Hslots.
Qed.

Lemma holds_match ds tbl a j :
  holds ds tbl -> take 6 a = a -> 0 <= j < MAX_DEVICES ->
  in_use (dev ds j) && memcmp6 (addr (dev ds j)) a = true
  <-> tbl !! Z.to_nat j = Some a.
Proof.
  intros (Hl & Hn & Hnd & Hnorm & Hslots) Ha Hj.
  destruct (Hslots j Hj) as [Hu Haddr]. split.
  - intros [Hin Hm]%andb_true_iff. rewrite Hu in Hin.
    apply bool_decide_eq_true in Hin.
    destruct (lookup_lt_is_Some_2 tbl (Z.to_nat j)) as [a' Ha']; [lia|].
    rewrite Ha'. f_equal. rewrite (Haddr a' Ha') in Hm.
    unfold memcmp6 in Hm. apply bool_decide_eq_true in Hm.
    rewrite Ha in Hm. rewrite Hnorm in Hm; [done|].
    by apply list_elem_of_lookup_2 in Ha'.
  - intros Hlook. apply andb_true_iff. split.
    + rewrite Hu. apply bool_decide_eq_true. apply lookup_lt_Some in Hlook. lia.
    + rewrite (Haddr a Hlook). unfold memcmp6. by apply bool_decide_eq_true.
Qed.

Lemma holds_elem_slot ds tbl a :
  holds ds tbl -> a ∈ tbl ->
  exists j, 0 <= j < MAX_DEVICES /\ tbl !! Z.to_nat j = Some a.
Proof.
  intros (Hl & Hn & _) [k Hk]%list_elem_of_lookup_1.
  exists (Z.of_nat k). rewrite Nat2Z.id. split; [|done].
  apply lookup_lt_Some in Hk. lia.
Qed.

(** [cache_find_or_alloc] on an array that holds [tbl]. *)
Lemma holds_find_or_alloc ds tbl a :
  holds ds tbl -> take 6 a = a ->
  let r := cache_find_or_alloc a ds in
  holds r.2 (add_slot tbl a) /\
  (r.1 < 0 -> r.2 = ds /\ (a ∉ tbl) /\ zlen tbl = MAX_DEVICES) /\
  (a ∈ tbl -> 0 <= r.1 < MAX_DEVICES /\ tbl !! Z.to_nat r.1 = Some a /\ r.2 = ds).
Proof.
  intros Hh Ha. cbv zeta.
  pose proof Hh as (Hl & Hn & Hnd & Hnorm & Hslots).
  pose proof (cache_find_or_alloc_spec a ds) as Hspec.
  destruct (cache_find_or_alloc a ds) as [idx ds']. cbn [fst snd].
  destruct Hspec as [(-> & -> & Hall)
                    |[(Hr & -> & Hu & Hm & _)|(Hr & -> & Hfree & Hbefore & Hno)]].
  - assert (Hfull : zlen tbl = MAX_DEVICES).
    { destruct (Hall (MAX_DEVICES - 1)) as [Hu _]; [unfold MAX_DEVICES; lia|].
      destruct (Hslots (MAX_DEVICES - 1)) as [Hb _]; [unfold MAX_DEVICES; lia|].
      rewrite Hu in Hb. symmetry in Hb. apply bool_decide_eq_true in Hb.
      unfold MAX_DEVICES in *. lia. }
    assert (Hnotin : a ∉ tbl).
    { intros Hin. destruct (holds_elem_slot ds tbl a Hh Hin) as (j & Hj & Hlook).
      apply (holds_match ds tbl a j Hh Ha Hj) in Hlook.
      destruct (Hall j Hj) as [Hu Hm]. by rewrite Hu, Hm in Hlook. }
    rewrite add_slot_full by done. split; [done|]. split; [done|]. done.
  - assert (Hlook : tbl !! Z.to_nat idx = Some a).
    { apply (holds_match ds tbl a idx Hh Ha Hr). by rewrite Hu, Hm. }
    assert (Hin : a ∈ tbl) by (by apply list_elem_of_lookup_2 in Hlook).
    unfold add_slot. rewrite decide_True by done.
    split; [done|]. split; [lia|]. done.
  - assert (Hnotin : a ∉ tbl).
    { intros Hin. destruct (holds_elem_slot ds tbl a Hh Hin) as (j & Hj & Hlook).
      apply (holds_match ds tbl a j Hh Ha Hj) in Hlook. by rewrite Hno in Hlook. }
    assert (Hidx : idx = zlen tbl).
    { destruct (Hslots idx Hr) as [Hb _]. rewrite Hfree in Hb. symmetry in Hb.
      apply bool_decide_eq_false in Hb.
      destruct (decide (idx = zlen tbl)) as [|Hne]; [done|]. exfalso.
      destruct (Hslots (zlen tbl)) as [Hb' _]; [lia|].
      rewrite Hbefore in Hb' by lia. symmetry in Hb'.
      apply bool_decide_eq_true in Hb'. lia. }
    unfold add_slot. rewrite decide_False by done. rewrite decide_True by lia.
    split; [|split; [lia|done]].
    split; [by rewrite dev_set_length|].
    split; [rewrite length_app; cbn [length]; lia|].
    split; [apply NoDup_app; repeat split; try done;
            [intros x Hx Hx'%list_elem_of_singleton; by subst|apply NoDup_singleton]|].
    split.
    { intros x [Hx|Hx%list_elem_of_singleton]%elem_of_app; [by apply Hnorm|by subst]. }
    intros j Hj. rewrite length_app. cbn [length].
    destruct (decide (j = idx)) as [->|Hne].
    + rewrite dev_set_same by (unfold MAX_DEVICES in *; lia).
      cbn [in_use addr set_in_use_addr]. split.
      * symmetry. apply bool_decide_eq_true. lia.
      * intros x Hx. rewrite Hidx, Nat2Z.id in Hx.
        rewrite lookup_app_r, Nat.sub_diag in Hx by lia.
        injection Hx as <-. done.
    + rewrite dev_set_other by lia.
      destruct (Hslots j Hj) as [Hb Haddr]. split.
      * rewrite Hb. apply bool_decide_ext. lia.
      * intros x Hx. apply Haddr.
        destruct (decide (j < zlen tbl)) as [Hlt|Hge].
        -- by rewrite lookup_app_l in Hx by lia.
        -- apply lookup_lt_Some in Hx. rewrite length_app in Hx.
           cbn [length] in Hx. lia.
Qed.

Lemma latest_for_scan_keys wanted ds :
  length ds = 12%nat ->
  let r := latest_for_scan wanted ds 0 (Z.to_nat MAX_DEVICES) in
  length r.2 = 12%nat /\
  forall j, 0 <= j ->
    in_use (dev r.2 j) = in_use (dev ds j) /\ addr (dev r.2 j) = addr (dev ds j).
Proof.
  intros Hlen. cbv zeta.
  destruct (latest_for_scan_spec wanted (Z.to_nat MAX_DEVICES) ds 0)
    as (Hl & Hd & _); [done|by rewrite Hlen|].
  split; [congruence|]. intros j Hj.
  destruct (Hd j Hj) as [-> | ->]; [done|].
  by destruct (update_device_id_fields (dev ds j)) as (-> & -> & _).
Qed.

Lemma handle_call_keys env req g :
  length (g_devices g) = 12%nat ->
  let g' := globals_of (handle_call env req g) in
  length (g_devices g') = 12%nat /\
  forall j, 0 <= j ->
    in_use (dev (g_devices g') j) = in_use (dev (g_devices g) j) /\
    addr (dev (g_devices g') j) = addr (dev (g_devices g) j).
Proof.
  intros Hlen. cbv zeta.
  destruct req as [bin|]; [|done].
  destruct bin as [|op body]; [done|].
  hc_cons. unfold globals_of.
  repeat case_match; cbn [fst snd g_devices set_devices set_started]; try done;
  match goal with
  | H : latest_for_scan ?w _ _ _ = (_, ?ds) |- _ =>
      pose proof (latest_for_scan_keys w (g_devices g) Hlen) as Hk;
      cbv zeta in Hk; rewrite H in Hk; exact Hk
  end.
Qed.

Lemma carries_field_extract desc ex tr :
  adv_extract (data desc) (length_data desc) [] = Some (ex, tr) ->
  carries_field desc = has_mfg ex || has_svc ex.
Proof. intros H. unfold carries_field. by rewrite H. Qed.

(** A discovery event keeps the table, extended by the event's address when
    the event carries a field. *)
Lemma gap_event_cb_holds desc g tbl :
  wf_desc desc -> holds (g_devices g) tbl ->
  exists g' fx,
    gap_event_cb (BLE_GAP_EVENT_DISC desc) g = Some (g', fx) /\
    holds (g_devices g')
      (if carries_field desc then add_slot tbl (take 6 (addr_val desc)) else tbl).
Proof.
  intros Hwf Hh.
  destruct (gap_event_cb_disc desc g Hwf) as (ex & tr & Hex & _ & Hcb).
  exists (disc_step desc ex g).1, (disc_step desc ex g).2.
  split; [by destruct (disc_step desc ex g)|].
  rewrite (carries_field_extract desc ex tr Hex). unfold disc_step.
  destruct (has_mfg ex) eqn:Hm, (has_svc ex) eqn:Hs; cbn [negb andb orb]; try done.
  all: pose proof (holds_find_or_alloc (g_devices g) tbl (take 6 (addr_val desc)) Hh)
         as (Hh' & _); [by rewrite take_take|];
       pose proof (cache_find_or_alloc_spec (take 6 (addr_val desc)) (g_devices g))
         as Hspec;
       destruct (cache_find_or_alloc _ _) as [idx ds]; cbn [fst snd] in *;
       destruct (0 <=? idx) eqn:Hidx; [|done];
       apply Z.leb_le in Hidx;
       assert (Hlt : idx < MAX_DEVICES)
         by (destruct Hspec as [(? & _)|[(? & _)|(? & _)]]; lia);
       pose proof Hh' as (Hl & _);
       pose proof (disc_update_spec desc ex idx (set_devices g ds)) as Hup;
       cbv zeta in Hup; cbn [g_devices set_devices] in Hup;
       destruct Hup as (Hd & Ho & Hle & _); [unfold MAX_DEVICES in *; lia|];
       apply (holds_same_keys ds); [done|done|];
       intros j Hj; destruct (decide (j = idx)) as [->|Hne];
       [ rewrite Hd;
         destruct (disc_record_keys desc ex (dev ds idx)) as (Hka & Hku & _);
         destruct (merged _);
         [ destruct (update_device_id_fields (disc_record desc ex (dev ds idx)))
             as (-> & -> & _); by rewrite Hka, Hku
         | by rewrite Hka, Hku ]
       | by rewrite Ho by lia ].
Qed.

Lemma step_holds i g tbl :
  wf_input i -> holds (g_devices g) tbl ->
  exists g' out fx,
    step i g = Some (g', out, fx) /\
    holds (g_devices g')
      (match ingested_addr i with Some a => add_slot tbl a | None => tbl end).
Proof.
  intros Hwf Hh. destruct i as [event|env req]; cbn [step ingested_addr].
  - destruct event as [desc| |].
    + destruct (gap_event_cb_holds desc g tbl Hwf Hh) as (g' & fx & -> & Hh').
      exists g', None, fx. split; [done|]. by destruct (carries_field desc).
    + by exists g, None, start_scan.
    + by exists g, None, [].
  - pose proof Hh as (Hl & _).
    pose proof (handle_call_keys env req g Hl) as Hk. cbv zeta in Hk.
    unfold globals_of in Hk.
    destruct (handle_call env req g) as [[reply g'] fx]. cbn [fst snd] in Hk.
    exists g', (Some reply), fx. split; [done|].
    destruct Hk as [Hl' Hk]. apply (holds_same_keys (g_devices g)); [done|congruence|].
    intros j Hj. apply Hk. lia.
Qed.

(** Every run of well-formed inputs returns, and the array then holds the
    table of the addresses ingested. *)
Lemma run_holds ins : forall g tbl,
  Forall wf_input ins -> holds (g_devices g) tbl ->
  exists g',
    run ins g = Some g' /\
    holds (g_devices g') (foldl add_slot tbl (ingested_addrs ins)).
Proof.
  induction ins as [|i ins IH]; intros g tbl Hwf Hh.
  - by exists g.
  - apply Forall_cons in Hwf as [Hi Hins].
    destruct (step_holds i g tbl Hi Hh) as (g1 & out & fx & Hstep & Hh1).
    destruct (IH g1 _ Hins Hh1) as (g' & Hrun & Hh').
    exists g'. cbn [run]. rewrite Hstep. split; [done|].
    unfold ingested_addrs. cbn [omap list_omap].
    by destruct (ingested_addr i).
Qed.




(** A thirteenth address after [sample_fill] is dropped, and a known one is
    still served. *)
Lemma thirteenth_address_dropped_sample :
  gap_event_cb (disc (sample_addr 12) (-40) adv_mfg8) sample_full
    = Some (sample_full, [])
  /\ (r ← gap_event_cb (disc (sample_addr 3) (-40) adv_mfg8) sample_full;
      Some (rssi (dev (g_devices sample_full) 3), rssi (dev (g_devices r.1) 3),
            have_mfg (dev (g_devices r.1) 3), g_latest_index r.1))
     = Some (-60, -40, true, 3).
Proof. by vm_compute. Qed.

(** ** Reachable states *)

(** Every run of well-formed inputs from the initial globals returns. *)
Lemma run_total ins :
  Forall wf_input ins -> exists g, run ins globals_init = Some g.
Proof.
  intros Hwf.
  destruct (run_holds ins globals_init [] Hwf holds_init) as (g & Hrun & _).
  by exists g.
Qed.

(** A reachable state has its twelve slots, filled from slot 0 with distinct
    addresses. *)
Lemma reachable_holds g :
  reachable g -> exists tbl, holds (g_devices g) tbl.
Proof.
  intros (ins & Hwf & Hrun).
  destruct (run_holds ins globals_init [] Hwf holds_init) as (g' & Hrun' & Hh).
  assert (g' = g) as -> by congruence. by eexists.
Qed.

Lemma reachable_length g : reachable g -> length (g_devices g) = 12%nat.
Proof. intros [tbl (Hl & _)]%reachable_holds. exact Hl. Qed.

(** * Further properties of the driver *)

(** ** What one discovery event changes *)

(** A well-formed discovery event either leaves the globals as they are, or
    rewrites one slot, found or freshly allocated, and nothing else. *)
Lemma gap_event_cb_frame desc g :
  wf_desc desc -> length (g_devices g) = 12%nat ->
  exists ex tr g' fx,
    adv_extract (data desc) (length_data desc) [] = Some (ex, tr) /\
    adv_in_bounds (length_data desc) ex /\
    gap_event_cb (BLE_GAP_EVENT_DISC desc) g = Some (g', fx) /\
    (g' = g \/
     exists idx d0,
       0 <= idx < MAX_DEVICES /\
       (has_mfg ex = true \/ has_svc ex = true) /\
       (d0 = dev (g_devices g) idx /\ in_use d0 = true
        \/ in_use (dev (g_devices g) idx) = false /\
           d0 = set_in_use_addr zero_device (take 6 (addr_val desc))) /\
       dev (g_devices g') idx
         = (if merged (disc_record desc ex d0)
            then update_device_id (disc_record desc ex d0)
            else disc_record desc ex d0) /\
       (forall j, 0 <= j -> j <> idx ->
          dev (g_devices g') j = dev (g_devices g) j) /\
       length (g_devices g') = 12%nat /\
       g_latest_index g'
         = (if merged (disc_record desc ex d0) then idx else g_latest_index g) /\
       g_ble_started g' = g_ble_started g).
Proof.
  intros Hwf Hlen.
  destruct (gap_event_cb_disc desc g Hwf) as (ex & tr & Hex & Hin & Hcb).
  destruct (has_mfg ex || has_svc ex) eqn:Hf.
  - apply orb_true_iff in Hf.
    destruct (Z.lt_ge_cases
                (cache_find_or_alloc (take 6 (addr_val desc)) (g_devices g)).1 0)
      as [Hneg|Hidx].
    + exists ex, tr, g, []. split; [done|]. split; [done|]. split; [|by left].
      rewrite Hcb. f_equal. unfold disc_step.
      replace (negb (has_mfg ex) && negb (has_svc ex)) with false
        by (destruct Hf as [-> | ->]; by rewrite ?andb_false_r).
      pose proof (cache_find_or_alloc_spec (take 6 (addr_val desc)) (g_devices g))
        as Hspec.
      destruct (cache_find_or_alloc _ _) as [idx ds]. cbn [fst] in Hneg.
      replace (0 <=? idx) with false by (symmetry; apply Z.leb_gt; lia).
      destruct Hspec as [(_ & -> & _)|[(? & _)|(? & _)]]; try lia.
      by rewrite set_devices_id.
    + destruct (gap_event_cb_ingest desc g ex tr Hwf Hlen Hex Hf Hidx)
        as (g' & Hcb' & Hd & Ho & Hl & Hli & Hst).
      eexists ex, tr, g', _. split; [done|]. split; [done|]. split; [exact Hcb'|].
      right.
      pose proof (cache_find_or_alloc_spec (take 6 (addr_val desc)) (g_devices g))
        as Hspec.
      destruct (cache_find_or_alloc _ _) as [idx ds]. cbn [fst snd] in *.
      exists idx, (dev ds idx).
      destruct Hspec as [(-> & _)|[(Hr & -> & Hu & _)|(Hr & -> & Hfree & _)]];
        [lia| |].
      * split; [lia|]. split; [done|]. split; [by left|]. done.
      * split; [lia|]. split; [done|]. split.
        { right. split; [done|]. rewrite dev_set_same, take_take by
            (unfold MAX_DEVICES in *; lia). done. }
        done.
  - apply orb_false_iff in Hf as [Hm Hs].
    exists ex, tr, g, []. split; [done|]. split; [done|]. split; [|by left].
    rewrite Hcb. unfold disc_step. by rewrite Hm, Hs.
Qed.

(** ** What a port call changes *)

Lemma handle_call_frame env req g :
  length (g_devices g) = 12%nat ->
  let g' := globals_of (handle_call env req g) in
  length (g_devices g') = 12%nat /\
  g_latest_index g' = g_latest_index g /\
  (g_ble_started g = true -> g_ble_started g' = true) /\
  forall j, 0 <= j ->
    dev (g_devices g') j = dev (g_devices g) j
    \/ dev (g_devices g') j = update_device_id (dev (g_devices g) j).
Proof.
  intros Hlen. cbv zeta.
  split; [by apply handle_call_keys|].
  split; [|split; [by apply handle_call_started|]].
  - destruct req as [bin|]; [|done]. destruct bin as [|op body]; [done|].
    hc_cons. unfold globals_of.
    repeat case_match; cbn [fst snd g_latest_index set_devices set_started]; done.
  - intros j Hj.
    destruct req as [bin|]; [|by left]. destruct bin as [|op body]; [by left|].
    hc_cons. unfold globals_of.
    repeat case_match; cbn [fst snd g_devices set_devices set_started];
      try (by left).
    all: match goal with
    | H : latest_for_scan ?w _ _ _ = (_, ?ds) |- _ =>
        destruct (latest_for_scan_spec w (Z.to_nat MAX_DEVICES) (g_devices g) 0)
          as (_ & Hd & _); [done|by rewrite Hlen|];
        rewrite H in Hd; cbn [fst snd] in Hd; exact (Hd j Hj)
    end.
Qed.

(** ** The records stay well formed *)

Lemma zero_device_wf : wf_device zero_device.
Proof.
  unfold wf_device, MAX_BLE_DATA, bytes.
  cbn [zero_device addr mfg svc mfg_len svc_len rssi device_id].
  rewrite !length_replicate.
  repeat split; try done; try lia; by apply Forall_replicate.
Qed.

Lemma fresh_device_wf a :
  length a = 6%nat -> wf_device (set_in_use_addr zero_device (take 6 a)).
Proof.
  intros Ha. destruct zero_device_wf as (_ & H).
  split; [|exact H]. cbn [addr set_in_use_addr]. rewrite length_take. lia.
Qed.

Lemma field_bytes_length buf p n :
  0 <= p -> 0 <= n -> p + n <= zlen buf ->
  length (field_bytes buf (Some p) n) = Z.to_nat n.
Proof.
  intros. unfold field_bytes. rewrite length_take, length_drop. lia.
Qed.

Lemma field_bytes_bytes buf src n : bytes buf -> bytes (field_bytes buf src n).
Proof.
  intros Hb. unfold field_bytes, bytes in *. destruct src; [|constructor].
  by apply Forall_take, Forall_drop.
Qed.

Lemma memcpy_length dst src :
  (length src <= length dst)%nat -> length (memcpy dst src) = length dst.
Proof. intros. unfold memcpy. rewrite length_app, length_drop. lia. Qed.

Lemma memcpy_bytes dst src : bytes dst -> bytes src -> bytes (memcpy dst src).
Proof.
  intros Hd Hs. unfold memcpy, bytes in *. apply Forall_app. split; [done|].
  by apply Forall_drop.
Qed.

(** The bytes just copied are the first bytes of the array. *)
Lemma memcpy_take dst src : take (length src) (memcpy dst src) = src.
Proof. unfold memcpy. by rewrite take_app_length. Qed.

Lemma u16_range x : 0 <= u16 x < 65536.
Proof. unfold u16. apply Z.mod_pos_bound. lia. Qed.

Lemma update_device_id_wf d : wf_device d -> wf_device (update_device_id d).
Proof.
  intros (Ha & Hm & Hs & Hml & Hsl & Hbm & Hbs & Hr & Hid).
  unfold update_device_id. destruct (have_mfg d && (8 <=? mfg_len d)).
  - unfold wf_device.
    cbn [addr mfg svc mfg_len svc_len rssi device_id set_device_id].
    set (x := Z.lor _ _). pose proof (u16_range x).
    repeat split; try done; lia.
  - done.
Qed.

Lemma disc_record_wf desc ex d :
  wf_desc desc -> adv_in_bounds (length_data desc) ex ->
  wf_device d -> wf_device (disc_record desc ex d).
Proof.
  intros (_ & Hrssi & Hb & Hlen & Hle) [Him His]
    (Ha & Hm & Hs & Hml & Hsl & Hbm & Hbs & Hr & Hid).
  unfold disc_record.
  assert (H1 : wf_device
    (if has_mfg ex && (adv_mfg_len ex <=? MAX_BLE_DATA)
     then set_mfg (set_rssi d (desc_rssi desc)) (adv_mfg_len ex)
            (memcpy (mfg (set_rssi d (desc_rssi desc)))
               (field_bytes (data desc) (adv_mfg ex) (adv_mfg_len ex)))
     else set_rssi d (desc_rssi desc))).
  { destruct (has_mfg ex && (adv_mfg_len ex <=? MAX_BLE_DATA)) eqn:Hc.
    - apply andb_true_iff in Hc as [Hh Hcap]. apply Z.leb_le in Hcap.
      destruct (Him Hh) as (p & Hp & ? & ? & ?). rewrite Hp.
      unfold wf_device, MAX_BLE_DATA in *.
      cbn [addr mfg svc mfg_len svc_len rssi device_id set_mfg set_rssi].
      split_and!; try done; try lia.
      all: first
        [ rewrite memcpy_length; [done|rewrite field_bytes_length by lia; lia]
        | apply memcpy_bytes; [done|by apply field_bytes_bytes] ].
    - unfold wf_device, MAX_BLE_DATA in *.
      cbn [addr mfg svc mfg_len svc_len rssi device_id set_rssi].
      split_and!; try done; lia. }
  destruct H1 as (Ha1 & Hm1 & Hs1 & Hml1 & Hsl1 & Hbm1 & Hbs1 & Hr1 & Hid1).
  destruct (has_svc ex && (adv_svc_len ex <=? MAX_BLE_DATA)) eqn:Hc.
  - apply andb_true_iff in Hc as [Hh Hcap]. apply Z.leb_le in Hcap.
    destruct (His Hh) as (p & Hp & ? & ? & ?). rewrite Hp.
    unfold wf_device, MAX_BLE_DATA in *.
    cbn [addr mfg svc mfg_len svc_len rssi device_id set_svc].
    split_and!; try done; try lia.
    all: first
      [ rewrite memcpy_length; [done|rewrite field_bytes_length by lia; lia]
      | apply memcpy_bytes; [done|by apply field_bytes_bytes] ].
  - unfold wf_device, MAX_BLE_DATA in *. split_and!; try done; lia.
Qed.

(** Flags that are set stay set through the stores of one event. *)
Lemma disc_record_flags desc ex d :
  (have_mfg d = true -> have_mfg (disc_record desc ex d) = true) /\
  (have_svc d = true -> have_svc (disc_record desc ex d) = true) /\
  have_device_id (disc_record desc ex d) = have_device_id d.
Proof.
  unfold disc_record.
  by destruct (has_mfg ex && _), (has_svc ex && _).
Qed.

Lemma update_device_id_flag d :
  have_device_id d = true -> have_device_id (update_device_id d) = true.
Proof.
  intros H. unfold update_device_id. by destruct (have_mfg d && _).
Qed.

Lemma update_device_id_zero : update_device_id zero_device = zero_device.
Proof. reflexivity. Qed.

Lemma merged_halves d :
  merged d = true -> have_mfg d = true /\ have_svc d = true.
Proof.
  unfold merged. intros [[? ?]%andb_true_iff _]%andb_true_iff. done.
Qed.

(** ** The invariant of the cache *)

Lemma cache_inv_init : cache_inv globals_init.
Proof.
  unfold cache_inv. cbn [g_devices g_latest_index globals_init].
  assert (Hz : forall j, 0 <= j < MAX_DEVICES ->
                dev (replicate (Z.to_nat MAX_DEVICES) zero_device) j = zero_device).
  { intros j Hj. unfold dev. apply lookup_total_replicate_2.
    unfold MAX_DEVICES in *. lia. }
  split; [done|]. split; [|split; [|split; [|split]]].
  - intros j Hj. rewrite Hz by done. apply zero_device_wf.
  - intros j Hj _. by apply Hz.
  - unfold MAX_DEVICES. lia.
  - lia.
  - intros j Hj. by rewrite Hz.
Qed.

Lemma grows_refl g : grows g g.
Proof. split; [|done]. intros j Hj. done. Qed.

Lemma grows_trans g1 g2 g3 : grows g1 g2 -> grows g2 g3 -> grows g1 g3.
Proof.
  intros (Hs1 & Hl1 & Hb1) (Hs2 & Hl2 & Hb2). split; [|split; auto].
  intros j Hj. destruct (Hs1 j Hj) as (Hu1 & Hm1 & Hv1 & Hd1).
  destruct (Hs2 j Hj) as (Hu2 & Hm2 & Hv2 & Hd2).
  split; [|split; [auto|split; auto]].
  intros Hu. destruct (Hu1 Hu) as [Hu' Ha]. destruct (Hu2 Hu') as [? Ha'].
  split; [done|congruence].
Qed.

Lemma cache_inv_event desc g g' fx :
  wf_desc desc -> cache_inv g ->
  gap_event_cb (BLE_GAP_EVENT_DISC desc) g = Some (g', fx) ->
  cache_inv g' /\ grows g g'.
Proof.
  intros Hwf (Hlen & Hdev & Hfree & Hrange & Hlat & Hmrg) Hcb.
  destruct (gap_event_cb_frame desc g Hwf Hlen)
    as (ex & tr & g2 & fx2 & Hex & Hin & Hcb2 & Hcases).
  assert (g2 = g') as -> by congruence.
  destruct Hcases as [->|(idx & d0 & Hidx & Hf & Hd0 & Hd & Ho & Hl & Hli & Hst)].
  { split; [done|apply grows_refl]. }
  set (d3 := disc_record desc ex d0) in *.
  pose proof Hwf as (Hal & _).
  assert (Hd0wf : wf_device d0).
  { destruct Hd0 as [[-> _]|[_ ->]]; [by apply Hdev|by apply fresh_device_wf]. }
  assert (Hd0use : in_use d0 = true) by (by destruct Hd0 as [[_ ?]|[_ ->]]).
  assert (Hd3wf : wf_device d3) by (by apply disc_record_wf).
  destruct (disc_record_keys desc ex d0) as (Hka & Hku & _).
  destruct (disc_record_flags desc ex d0) as (Hfm & Hfs & Hfd).
  fold d3 in Hka, Hku, Hfm, Hfs, Hfd.
  assert (Hnew : wf_device (dev (g_devices g') idx) /\
                 in_use (dev (g_devices g') idx) = true /\
                 addr (dev (g_devices g') idx) = addr d0 /\
                 merged (dev (g_devices g') idx) = merged d3 /\
                 have_mfg (dev (g_devices g') idx) = have_mfg d3 /\
                 have_svc (dev (g_devices g') idx) = have_svc d3 /\
                 (have_device_id d3 = true ->
                    have_device_id (dev (g_devices g') idx) = true)).
  { rewrite Hd. destruct (merged d3) eqn:Hm.
    - destruct (update_device_id_fields d3)
        as (-> & -> & _ & -> & _ & _ & -> & _).
      rewrite update_device_id_merged, Hm, Hku, Hka.
      split_and!; try done; [by apply update_device_id_wf|].
      apply update_device_id_flag.
    - rewrite Hm, Hku, Hka. by split_and!. }
  destruct Hnew as (Hnwf & Hnuse & Hnaddr & Hnm & Hnhm & Hnhs & Hnd).
  split.
  - split; [done|]. split; [|split; [|split; [|split]]].
    + intros j Hj. destruct (decide (j = idx)) as [->|Hne]; [done|].
      rewrite Ho by lia. by apply Hdev.
    + intros j Hj. destruct (decide (j = idx)) as [->|Hne]; [congruence|].
      rewrite Ho by lia. by apply Hfree.
    + rewrite Hli. destruct (merged d3); lia.
    + rewrite Hli. destruct (merged d3) eqn:Hm.
      * intros _. rewrite Hnhm, Hnhs. by destruct (merged_halves d3 Hm).
      * intros Hge. destruct (Hlat Hge) as (Hu & Hhm & Hhs).
        destruct (decide (g_latest_index g = idx)) as [Heq|Hne].
        -- rewrite Heq in *. rewrite Hnhm, Hnhs.
           destruct Hd0 as [[-> _]|[Hfr _]]; [|congruence].
           split; [done|]. split; [by apply Hfm|by apply Hfs].
        -- rewrite Ho by lia. done.
    + intros j Hj Hm. rewrite Hli.
      destruct (decide (j = idx)) as [->|Hne].
      * rewrite Hnm in Hm. rewrite Hm. lia.
      * rewrite Ho in Hm by lia. pose proof (Hmrg j Hj Hm).
        destruct (merged d3); lia.
  - split; [|split].
    + intros j Hj. destruct (decide (j = idx)) as [->|Hne].
      * destruct Hd0 as [[-> _]|[Hfr _]].
        -- rewrite Hnhm, Hnhs. split_and!; [by intros _|exact Hfm|exact Hfs|].
           intros Hid. apply Hnd. by rewrite Hfd.
        -- rewrite (Hfree idx Hidx Hfr). by split_and!.
      * rewrite Ho by lia. by split_and!.
    + intros Hge. rewrite Hli. destruct (merged d3); lia.
    + by rewrite Hst.
Qed.

Lemma cache_inv_call env req g :
  cache_inv g ->
  cache_inv (globals_of (handle_call env req g)) /\
  grows g (globals_of (handle_call env req g)).
Proof.
  intros (Hlen & Hdev & Hfree & Hrange & Hlat & Hmrg).
  destruct (handle_call_frame env req g Hlen) as (Hl & Hli & Hst & Hd).
  set (g' := globals_of (handle_call env req g)) in *.
  assert (Hsame : forall j, 0 <= j < MAX_DEVICES ->
    wf_device (dev (g_devices g') j) /\
    in_use (dev (g_devices g') j) = in_use (dev (g_devices g) j) /\
    addr (dev (g_devices g') j) = addr (dev (g_devices g) j) /\
    merged (dev (g_devices g') j) = merged (dev (g_devices g) j) /\
    have_mfg (dev (g_devices g') j) = have_mfg (dev (g_devices g) j) /\
    have_svc (dev (g_devices g') j) = have_svc (dev (g_devices g) j) /\
    (have_device_id (dev (g_devices g) j) = true ->
       have_device_id (dev (g_devices g') j) = true) /\
    (dev (g_devices g) j = zero_device -> dev (g_devices g') j = zero_device)).
  { intros j Hj. destruct (Hd j) as [-> | ->]; [lia| |].
    - split_and!; try done. by apply Hdev.
    - destruct (update_device_id_fields (dev (g_devices g) j))
        as (-> & -> & _ & -> & _ & _ & -> & _).
      rewrite update_device_id_merged.
      split_and!; try done.
      + by apply update_device_id_wf, Hdev.
      + apply update_device_id_flag.
      + intros ->. apply update_device_id_zero. }
  split.
  - split; [done|]. split; [|split; [|split; [|split]]].
    + intros j Hj. by apply Hsame.
    + intros j Hj Hu. destruct (Hsame j Hj) as (_ & Hu' & _ & _ & _ & _ & _ & Hz).
      apply Hz, Hfree; congruence.
    + by rewrite Hli.
    + rewrite Hli. intros Hge. destruct (Hlat Hge) as (Hu & Hhm & Hhs).
      destruct (Hsame (g_latest_index g)) as (_ & -> & _ & _ & -> & -> & _); [lia|].
      done.
    + intros j Hj Hm. rewrite Hli. apply (Hmrg j Hj).
      destruct (Hsame j Hj) as (_ & _ & _ & <- & _). done.
  - split; [|split; [by rewrite Hli|done]].
    intros j Hj.
    destruct (Hsame j Hj) as (_ & -> & -> & _ & -> & -> & Hfd & _).
    by split_and!.
Qed.

Lemma cache_inv_step i g :
  wf_input i -> cache_inv g ->
  exists g' out fx, step i g = Some (g', out, fx) /\ cache_inv g' /\ grows g g'.
Proof.
  intros Hwf Hinv. destruct i as [event|env req]; cbn [step].
  - destruct event as [desc| |].
    + pose proof Hinv as (Hlen & _).
      destruct (gap_event_cb_frame desc g Hwf Hlen)
        as (ex & tr & g' & fx & _ & _ & Hcb & _).
      rewrite Hcb. exists g', None, fx. split; [done|].
      by apply (cache_inv_event desc g g' fx).
    + exists g, None, start_scan. split; [done|]. split; [done|apply grows_refl].
    + exists g, None, []. split; [done|]. split; [done|apply grows_refl].
  - pose proof (cache_inv_call env req g Hinv) as Hc. unfold globals_of in Hc.
    destruct (handle_call env req g) as [[reply g'] fx]. cbn [fst snd] in Hc.
    by exists g', (Some reply), fx.
Qed.

Lemma cache_inv_run ins : forall g,
  Forall wf_input ins -> cache_inv g ->
  exists g', run ins g = Some g' /\ cache_inv g' /\ grows g g'.
Proof.
  induction ins as [|i ins IH]; intros g Hwf Hinv.
  - exists g. split; [done|]. split; [done|apply grows_refl].
  - apply Forall_cons in Hwf as [Hi Hins].
    destruct (cache_inv_step i g Hi Hinv) as (g1 & out & fx & Hstep & Hinv1 & Hg1).
    destruct (IH g1 Hins Hinv1) as (g' & Hrun & Hinv' & Hg').
    exists g'. cbn [run]. rewrite Hstep. split; [done|]. split; [done|].
    by apply (grows_trans g g1 g').
Qed.

Lemma reachable_cache_inv g : reachable g -> cache_inv g.
Proof.
  intros (ins & Hwf & Hrun).
  destruct (cache_inv_run ins globals_init Hwf cache_inv_init)
    as (g' & Hrun' & Hinv & _).
  congruence.
Qed.

(** ** The manufacturer field of the parser *)

Lemma ad_field_mfg off s out :
  has_mfg (ad_field off s out) = has_mfg out || ad_is_mfg s /\
  adv_mfg (ad_field off s out)
    = (if ad_is_mfg s then Some off else adv_mfg out) /\
  adv_mfg_len (ad_field off s out)
    = (if ad_is_mfg s then zlen (ad_value s) else adv_mfg_len out).
Proof.
  unfold ad_field. destruct (ad_is_target_svc s), (ad_is_mfg s); cbn;
    by rewrite ?orb_true_r, ?orb_false_r.
Qed.

Lemma ad_fields_has_mfg ss : forall i out,
  has_mfg (ad_fields i ss out) = has_mfg out || existsb ad_is_mfg ss.
Proof.
  induction ss as [|s ss IH]; intros i out; cbn [ad_fields existsb].
  - by rewrite orb_false_r.
  - rewrite IH. destruct (ad_field_mfg (i + 2) s out) as (-> & _).
    by rewrite orb_assoc.
Qed.

Lemma ad_fields_mfg_unchanged ss : forall i out,
  Forall (fun s => ad_is_mfg s = false) ss ->
  adv_mfg (ad_fields i ss out) = adv_mfg out /\
  adv_mfg_len (ad_fields i ss out) = adv_mfg_len out.
Proof.
  induction ss as [|s ss IH]; intros i out Hss; [done|].
  apply Forall_cons in Hss as [Hs Hss]. cbn [ad_fields].
  destruct (IH (i + 2 + zlen (ad_value s)) (ad_field (i + 2) s out) Hss) as [-> ->].
  destruct (ad_field_mfg (i + 2) s out) as (_ & -> & ->). by rewrite Hs.
Qed.

Lemma ad_fields_mfg_last pre s post i out :
  ad_is_mfg s = true ->
  Forall (fun x => ad_is_mfg x = false) post ->
  adv_mfg (ad_fields i (pre ++ s :: post) out)
    = Some (i + zlen (ad_encode_all pre) + 2) /\
  adv_mfg_len (ad_fields i (pre ++ s :: post) out) = zlen (ad_value s).
Proof.
  intros Hs Hpost. rewrite ad_fields_app. cbn [ad_fields].
  destruct (ad_fields_mfg_unchanged post
              (i + zlen (ad_encode_all pre) + 2 + zlen (ad_value s))
              (ad_field (i + zlen (ad_encode_all pre) + 2) s (ad_fields i pre out))
              Hpost) as [-> ->].
  destruct (ad_field_mfg (i + zlen (ad_encode_all pre) + 2) s (ad_fields i pre out))
    as (_ & -> & ->).
  by rewrite Hs.
Qed.

(** X1. The parser reports a manufacturer payload exactly when a complete
    structure of the buffer has type 0xFF and a value of at least two bytes;
    the payload is then the whole value of the last such structure, company
    id included, and earlier ones in the same buffer are overwritten. *)
Theorem adv_extract_manufacturer_last_wins data data_len :
  bytes data -> 0 <= data_len <= 255 -> data_len <= zlen data ->
  exists out tr,
    adv_extract data data_len [] = Some (out, tr) /\
    forall ss tail,
      take (Z.to_nat data_len) data = ad_encode_all ss ++ tail ->
      ad_stops tail ->
      (has_mfg out = true <->
         exists s, s ∈ ss /\ ad_type s = 0xFF /\ 2 <= zlen (ad_value s)) /\
      (has_mfg out = true ->
         exists pre s post p,
           ss = pre ++ s :: post /\ ad_is_mfg s = true /\
           Forall (fun x => ad_is_mfg x = false) post /\
           adv_mfg out = Some p /\
           adv_mfg_len out = zlen (ad_value s) /\
           slice data p (adv_mfg_len out) = Some (ad_value s)).
Proof.
  intros Hb Hlen Hle.
  destruct (adv_extract_ok data data_len Hb Hlen Hle) as (out & tr & Heq & _ & _).
  exists out, tr. split; [done|].
  intros ss tail Hbuf Hstop.
  destruct (adv_extract_structs data data_len ss tail Hb Hlen Hle Hbuf Hstop)
    as (tr2 & Heq2 & _).
  assert (out = ad_fields 0 ss adv_extract_init) as -> by congruence.
  assert (Hspec : forall s, ad_is_mfg s = true <->
                   ad_type s = 0xFF /\ 2 <= zlen (ad_value s)).
  { intros s. unfold ad_is_mfg.
    by rewrite andb_true_iff, Z.eqb_eq, Z.leb_le. }
  split.
  - rewrite ad_fields_has_mfg. cbn [adv_extract_init has_mfg orb].
    rewrite existsb_exists. split; intros (s & Hs & Ht); exists s.
    + split; [by apply list_elem_of_In|by apply Hspec].
    + split; [by apply list_elem_of_In|by apply Hspec].
  - intros Hm. rewrite ad_fields_has_mfg in Hm.
    cbn [adv_extract_init has_mfg orb] in Hm.
    destruct (existsb_last_split _ _ Hm) as (pre & s & post & -> & Hs & Hpost).
    destruct (ad_fields_mfg_last pre s post 0 adv_extract_init Hs Hpost) as [Hp Hl].
    exists pre, s, post, (0 + zlen (ad_encode_all pre) + 2).
    repeat split; try done.
    rewrite Hl. rewrite ad_encode_all_app, ad_encode_all_cons in Hbuf.
    rewrite <- !(assoc_L (++)) in Hbuf.
    pose proof (slice_structure data data_len _ s _ 0 Hbuf) as Hsl.
    rewrite Z.sub_0_r, drop_0 in Hsl.
    replace (0 + zlen (ad_encode_all pre) + 2)
      with (zlen (ad_encode_all pre) + 2 + Z.of_nat 0) by lia.
    apply Hsl. lia.
Qed.

Lemma adv_extract_manufacturer_last_wins_witness :
  exists out tr,
    adv_extract [0x03; 0xFF; 0x4C; 0x00; 0x03; 0xFF; 0x69; 0x09] 8 []
      = Some (out, tr) /\
    forall ss tail,
      take (Z.to_nat 8) [0x03; 0xFF; 0x4C; 0x00; 0x03; 0xFF; 0x69; 0x09]
        = ad_encode_all ss ++ tail ->
      ad_stops tail ->
      (has_mfg out = true <->
         exists s, s ∈ ss /\ ad_type s = 0xFF /\ 2 <= zlen (ad_value s)) /\
      (has_mfg out = true ->
         exists pre s post p,
           ss = pre ++ s :: post /\ ad_is_mfg s = true /\
           Forall (fun x => ad_is_mfg x = false) post /\
           adv_mfg out = Some p /\
           adv_mfg_len out = zlen (ad_value s) /\
           slice [0x03; 0xFF; 0x4C; 0x00; 0x03; 0xFF; 0x69; 0x09] p
                 (adv_mfg_len out) = Some (ad_value s)).
Proof.
  apply (adv_extract_manufacturer_last_wins
           [0x03; 0xFF; 0x4C; 0x00; 0x03; 0xFF; 0x69; 0x09] 8).
  - repeat constructor; unfold is_byte; lia.
  - lia.
  - cbn; lia.
Defined.

(** Two computations that agree step by step agree as a whole. *)
Lemma rd_bind_agree {A B} (m1 m2 : rd A) (k1 k2 : A -> rd B) tr :
  m1 tr = m2 tr ->
  (forall a tr', m1 tr = Some (a, tr') -> k1 a tr' = k2 a tr') ->
  rd_bind m1 k1 tr = rd_bind m2 k2 tr.
Proof.
  intros Hm Hk. unfold rd_bind. rewrite <- Hm.
  destruct (m1 tr) as [[a tr']|]; [by apply Hk|done].
Qed.

Lemma load_inv data i tr b tr' :
  load data i tr = Some (b, tr') -> data !! Z.to_nat i = Some b.
Proof.
  unfold load. case_bool_decide; [|done].
  destruct (data !! Z.to_nat i) as [b'|]; [|done]. by intros [= -> _].
Qed.

Section agree.
Variables (data1 data2 : list Z) (data_len : Z).
Hypothesis data_len_u8 : 0 <= data_len <= 255.
Hypothesis data1_bytes : bytes data1.
Hypothesis agree : forall k,
  0 <= k < data_len -> data1 !! Z.to_nat k = data2 !! Z.to_nat k.

Lemma load_agree i tr :
  0 <= i < data_len -> load data1 i tr = load data2 i tr.
Proof using agree. intros Hi. unfold load. by rewrite (agree i Hi). Qed.

(** The structure at [i] with length byte [len] lies below [data_len]: its
    reads are of bytes on which the buffers agree. *)
Lemma adv_structure_agree i len out tr :
  0 <= i -> 1 <= len < 256 -> i + len < data_len ->
  adv_structure data1 i len out tr = adv_structure data2 i len out tr.
Proof using data_len_u8 agree.
  intros Hi Hl Hend. unfold adv_structure.
  apply rd_bind_agree; [apply load_agree; lia|].
  intros type tr1 _. cbv zeta.
  destruct ((type =? 0x16) && (2 <=? u8 (len - 1))) eqn:Hc; [|done].
  apply andb_true_iff in Hc as [_ Hc]. apply Z.leb_le in Hc.
  rewrite u8_small in Hc by lia.
  apply rd_bind_agree; [apply load_agree; lia|].
  intros v0 tr2 _. destruct (v0 =? SWITCHBOT_SVC_UUID16_LE0); [|done].
  apply rd_bind_agree; [apply load_agree; lia|]. done.
Qed.

Lemma adv_loop_agree fuel : forall i out tr,
  0 <= i ->
  adv_loop fuel data1 data_len i out tr = adv_loop fuel data2 data_len i out tr.
Proof using data_len_u8 data1_bytes agree.
  induction fuel as [|fuel IH]; intros i out tr Hi; cbn [adv_loop]; [done|].
  destruct (i <? data_len) eqn:Hlt; [|done]. apply Z.ltb_lt in Hlt.
  apply rd_bind_agree; [apply load_agree; lia|].
  intros len tr1 Hload. apply load_inv in Hload.
  assert (Hb : is_byte len) by (by eapply Forall_lookup_1).
  unfold is_byte in Hb.
  destruct (len =? 0) eqn:Hz; [done|]. apply Z.eqb_neq in Hz.
  destruct (u16 i + u16 len >=? u16 data_len) eqn:Hge; [done|].
  rewrite Z.geb_leb in Hge. apply Z.leb_gt in Hge.
  rewrite !u16_small in Hge by lia.
  apply rd_bind_agree; [apply adv_structure_agree; lia|].
  intros out' tr2 _. apply IH. unfold u8. apply Z.mod_pos_bound. lia.
Qed.

End agree.

(** X2. The parser looks at the first [data_len] bytes only: two buffers
    that agree there give the same fields and the same sequence of reads,
    every read below [data_len], whatever follows in either buffer. *)
Theorem adv_extract_ignores_bytes_past_length data1 data2 data_len :
  bytes data1 -> 0 <= data_len <= 255 -> data_len <= zlen data1 ->
  take (Z.to_nat data_len) data1 = take (Z.to_nat data_len) data2 ->
  exists out tr,
    adv_extract data1 data_len [] = Some (out, tr) /\
    adv_extract data2 data_len [] = Some (out, tr) /\
    Forall (fun j => 0 <= j < data_len) tr.
Proof.
  intros Hb1 Hlen Hle1 Htake.
  destruct (adv_extract_ok data1 data_len Hb1 Hlen Hle1) as (out & tr & Heq & Htr & _).
  exists out, tr. split; [done|]. split; [|done].
  rewrite <- Heq. symmetry. unfold adv_extract.
  apply adv_loop_agree; [done|done| |lia].
  intros k Hk.
  rewrite <- (lookup_take_lt data1 (Z.to_nat data_len)) by lia.
  rewrite <- (lookup_take_lt data2 (Z.to_nat data_len)) by lia.
  by rewrite Htake.
Qed.

Lemma adv_extract_ignores_bytes_past_length_witness :
  exists out tr,
    adv_extract [0x03; 0xFF; 0x69; 0x09; 0x05; 0x16] 4 [] = Some (out, tr) /\
    adv_extract [0x03; 0xFF; 0x69; 0x09; 0x00] 4 [] = Some (out, tr) /\
    Forall (fun j => 0 <= j < 4) tr.
Proof.
  apply (adv_extract_ignores_bytes_past_length
           [0x03; 0xFF; 0x69; 0x09; 0x05; 0x16] [0x03; 0xFF; 0x69; 0x09; 0x00] 4).
  - repeat constructor; unfold is_byte; lia.
  - lia.
  - cbn; lia.
  - reflexivity.
Defined.

(** ** Invariants of reachable states *)

Lemma run_completed_wf : Forall wf_input run_completed.
Proof.
  unfold run_completed. repeat constructor; unfold is_byte; cbn; lia.
Qed.

Lemma sample_completed_reachable : reachable sample_completed.
Proof.
  exists run_completed. split; [apply run_completed_wf|]. by vm_compute.
Qed.

(** The address array of a record after a run is all zero, or the address of
    an event of the run. *)
Lemma run_addr_from_event ins g :
  Forall wf_input ins -> run ins globals_init = Some g ->
  forall j, 0 <= j < MAX_DEVICES ->
    addr (dev (g_devices g) j) = replicate 6 0 \/
    exists desc,
      in_event (BLE_GAP_EVENT_DISC desc) ∈ ins /\
      addr (dev (g_devices g) j) = addr_val desc.
Proof.
  intros Hwf Hrun j Hj.
  destruct (run_holds ins globals_init [] Hwf holds_init) as (g' & Hrun' & Hh).
  assert (g' = g) as -> by congruence.
  destruct Hh as (_ & _ & _ & _ & Hslots).
  destruct (Hslots j Hj) as [Huse Haddr].
  destruct (decide (j < zlen (foldl add_slot [] (ingested_addrs ins)))) as [Hlt|Hge].
  - right.
    destruct (lookup_lt_is_Some_2 (foldl add_slot [] (ingested_addrs ins))
                (Z.to_nat j)) as [a Ha]; [lia|].
    rewrite (Haddr a Ha).
    apply list_elem_of_lookup_2 in Ha.
    apply foldl_add_slot_elem in Ha as [Ha|Ha]; [by apply elem_of_nil in Ha|].
    apply list_elem_of_omap in Ha as (i & Hi & Hia).
    rewrite Forall_forall in Hwf. specialize (Hwf i Hi).
    destruct i as [[desc| |]|]; cbn [ingested_addr] in Hia; try done.
    destruct (carries_field desc); [|done]. injection Hia as <-.
    exists desc. split; [done|].
    destruct Hwf as (Hal & _). apply take_ge. lia.
  - left. rewrite bool_decide_false in Huse by done.
    assert (Hreach : reachable g) by (by exists ins).
    destruct (reachable_cache_inv g Hreach) as (_ & _ & Hfree & _).
    by rewrite (Hfree j Hj Huse).
Qed.

(** X3. In every reachable state the table has its twelve records, each
    with arrays of 6, 31 and 31 entries; the stored manufacturer and service
    lengths are at most 31, so no copy into or out of a record runs past its
    array; the manufacturer and service arrays hold bytes, the rssi a signed
    byte, the id 16 bits. The address array is all zero or the address of an
    event received; it holds bytes whenever the addresses of the events
    received did. *)
Theorem reachable_records_bounded g :
  reachable g ->
  length (g_devices g) = 12%nat /\
  (forall j, 0 <= j < MAX_DEVICES ->
    length (addr (dev (g_devices g) j)) = 6%nat /\
    length (mfg (dev (g_devices g) j)) = 31%nat /\
    length (svc (dev (g_devices g) j)) = 31%nat /\
    0 <= mfg_len (dev (g_devices g) j) <= MAX_BLE_DATA /\
    0 <= svc_len (dev (g_devices g) j) <= MAX_BLE_DATA /\
    bytes (mfg (dev (g_devices g) j)) /\ bytes (svc (dev (g_devices g) j)) /\
    -128 <= rssi (dev (g_devices g) j) <= 127 /\
    0 <= device_id (dev (g_devices g) j) < 65536) /\
  (forall ins,
     Forall wf_input ins -> run ins globals_init = Some g ->
     (forall j, 0 <= j < MAX_DEVICES ->
        addr (dev (g_devices g) j) = replicate 6 0 \/
        exists desc,
          in_event (BLE_GAP_EVENT_DISC desc) ∈ ins /\
          addr (dev (g_devices g) j) = addr_val desc) /\
     ((forall desc, in_event (BLE_GAP_EVENT_DISC desc) ∈ ins ->
         bytes (addr_val desc)) ->
      forall j, 0 <= j < MAX_DEVICES -> bytes (addr (dev (g_devices g) j)))).
Proof.
  intros Hreach.
  pose proof (reachable_cache_inv g Hreach) as (Hlen & Hdev & _).
  split; [done|]. split; [intros j Hj; exact (Hdev j Hj)|].
  intros ins Hwf Hrun.
  pose proof (run_addr_from_event ins g Hwf Hrun) as Haddr.
  split; [exact Haddr|].
  intros Hbytes j Hj.
  destruct (Haddr j Hj) as [->|(desc & Hin & ->)].
  - by apply Forall_replicate.
  - by apply Hbytes.
Qed.

Lemma reachable_records_bounded_witness :
  length (g_devices sample_completed) = 12%nat /\
  (forall j, 0 <= j < MAX_DEVICES ->
    length (addr (dev (g_devices sample_completed) j)) = 6%nat /\
    length (mfg (dev (g_devices sample_completed) j)) = 31%nat /\
    length (svc (dev (g_devices sample_completed) j)) = 31%nat /\
    0 <= mfg_len (dev (g_devices sample_completed) j) <= MAX_BLE_DATA /\
    0 <= svc_len (dev (g_devices sample_completed) j) <= MAX_BLE_DATA /\
    bytes (mfg (dev (g_devices sample_completed) j)) /\
    bytes (svc (dev (g_devices sample_completed) j)) /\
    -128 <= rssi (dev (g_devices sample_completed) j) <= 127 /\
    0 <= device_id (dev (g_devices sample_completed) j) < 65536) /\
  (forall j, 0 <= j < MAX_DEVICES ->
     bytes (addr (dev (g_devices sample_completed) j))).
Proof.
  destruct (reachable_records_bounded sample_completed sample_completed_reachable)
    as (Hlen & Hrec & Haddr).
  split; [exact Hlen|]. split; [exact Hrec|].
  destruct (Haddr run_completed run_completed_wf) as [_ Hbytes]; [by vm_compute|].
  apply Hbytes. intros desc Hin. unfold run_completed, radio_start in Hin.
  apply elem_of_cons in Hin as [Hin|Hin]; [done|].
  apply elem_of_cons in Hin as [Hin|Hin].
  { injection Hin as ->. repeat constructor; unfold is_byte; lia. }
  apply elem_of_cons in Hin as [Hin|Hin].
  { injection Hin as ->. repeat constructor; unfold is_byte; lia. }
  by apply elem_of_nil in Hin.
Defined.

(** X4. In every reachable state [g_latest_index] is -1 or a slot number;
    when it is a slot number the record there is in use and has both halves
    (it may have stopped passing the company-id test); and a record that
    passes the merged test never coexists with the index -1. *)
Theorem reachable_latest_index_valid g :
  reachable g ->
  -1 <= g_latest_index g < MAX_DEVICES /\
  (0 <= g_latest_index g ->
     in_use (dev (g_devices g) (g_latest_index g)) = true /\
     have_mfg (dev (g_devices g) (g_latest_index g)) = true /\
     have_svc (dev (g_devices g) (g_latest_index g)) = true) /\
  (forall j, 0 <= j < MAX_DEVICES ->
     merged (dev (g_devices g) j) = true -> 0 <= g_latest_index g) /\
  (forall j, 0 <= j < MAX_DEVICES ->
     in_use (dev (g_devices g) j) = false -> dev (g_devices g) j = zero_device).
Proof.
  intros (_ & _ & Hfree & Hrange & Hlat & Hmrg)%reachable_cache_inv. done.
Qed.

Lemma reachable_latest_index_valid_witness :
  -1 <= g_latest_index sample_completed < MAX_DEVICES /\
  (0 <= g_latest_index sample_completed ->
     in_use (dev (g_devices sample_completed) (g_latest_index sample_completed))
       = true /\
     have_mfg (dev (g_devices sample_completed) (g_latest_index sample_completed))
       = true /\
     have_svc (dev (g_devices sample_completed) (g_latest_index sample_completed))
       = true) /\
  (forall j, 0 <= j < MAX_DEVICES ->
     merged (dev (g_devices sample_completed) j) = true ->
     0 <= g_latest_index sample_completed) /\
  (forall j, 0 <= j < MAX_DEVICES ->
     in_use (dev (g_devices sample_completed) j) = false ->
     dev (g_devices sample_completed) j = zero_device).
Proof.
  apply (reachable_latest_index_valid sample_completed).
  apply sample_completed_reachable.
Defined.

(** X5. In a reachable, started state, whenever [LATEST_FOR] finds a record,
    [LATEST] has one to give too: it answers with a snapshot, not with the
    no-data code 0x41. *)
Theorem latest_for_found_implies_latest env b1 b2 body body' g :
  reachable g -> g_ble_started g = true ->
  reply_of (handle_call env (term_binary (OPCODE_LATEST_FOR :: b1 :: b2 :: body)) g)
    <> [0x01; 0x43] ->
  0 <= g_latest_index g /\
  reply_of (handle_call env (term_binary (OPCODE_LATEST :: body')) g)
    = reply_latest (dev (g_devices g) (g_latest_index g)).
Proof.
  intros Hr Hs Hfound.
  pose proof (reachable_cache_inv g Hr) as (Hlen & _ & _ & _ & _ & Hmrg).
  assert (Hidx : 0 <= g_latest_index g).
  { rewrite handle_call_latest_for in Hfound by done. cbv zeta in Hfound.
    unfold reply_of in Hfound. cbn [fst snd] in Hfound.
    destruct (latest_for_scan_spec (wanted_id b1 b2) (Z.to_nat MAX_DEVICES)
                (g_devices g) 0) as (_ & _ & Hsc); [done|by rewrite Hlen|].
    destruct Hsc as [[Hneg _]|(Hrange & Hm & _)].
    - rewrite Hneg in Hfound. done.
    - apply (Hmrg _ Hrange). unfold id_matches in Hm.
      rewrite !andb_true_iff in Hm. tauto. }
  split; [done|]. rewrite handle_call_latest by done. unfold reply_of. cbn [fst snd].
  by replace (g_latest_index g <? 0) with false by (symmetry; apply Z.ltb_ge; lia).
Qed.

Lemma latest_for_found_implies_latest_witness :
  0 <= g_latest_index sample_completed /\
  reply_of (handle_call platform_ok (term_binary (OPCODE_LATEST :: []))
              sample_completed)
    = reply_latest (dev (g_devices sample_completed)
                        (g_latest_index sample_completed)).
Proof.
  apply (latest_for_found_implies_latest platform_ok 0x12 0x34 [] []
           sample_completed).
  - apply sample_completed_reachable.
  - reflexivity.
  - by vm_compute.
Defined.

(** X6. Nothing is freed or forgotten. From a reachable state, every run of
    well-formed events and calls returns, and afterwards every slot that was
    in use is still in use with the same address, every flag that was set
    ([have_mfg], [have_svc], [have_device_id]) is still set, a latest index
    that was set is still set, and the started flag is still set. *)
Theorem nothing_freed_or_forgotten g ins :
  reachable g -> Forall wf_input ins ->
  exists g', run ins g = Some g' /\ reachable g' /\ grows g g'.
Proof.
  intros Hr Hwf.
  destruct (cache_inv_run ins g Hwf (reachable_cache_inv g Hr))
    as (g' & Hrun & _ & Hg).
  exists g'. split; [done|]. split; [|done].
  destruct Hr as (ins0 & Hwf0 & Hrun0). exists (ins0 ++ ins).
  split; [by apply Forall_app|].
  clear -Hrun0 Hrun. revert Hrun0. generalize globals_init.
  induction ins0 as [|i ins0 IH]; intros g0; cbn [run app].
  - by intros [= ->].
  - destruct (step i g0) as [[[g1 out] fx]|]; [|done]. apply IH.
Qed.

Lemma nothing_freed_or_forgotten_witness :
  exists g',
    run [in_event (disc addr_A (-57) adv_mfg2);
         in_call platform_ok (term_binary [OPCODE_BLE_STOP])] sample_completed
      = Some g' /\
    reachable g' /\ grows sample_completed g'.
Proof.
  apply (nothing_freed_or_forgotten sample_completed).
  - apply sample_completed_reachable.
  - repeat constructor; unfold is_byte; cbn; lia.
Defined.

(** ** Slots and arrival order *)

(** X7. Slots are handed out in the order addresses first arrive. After a
    run from the initial state, the table of the first twelve distinct
    ingested addresses, in arrival order, is what the slots hold: slot [j] is
    in use exactly when [j] is below the size of the table and then holds its
    [j]-th address; so the slots in use are the first ones and no two of them
    hold the same address. *)
Theorem slots_in_arrival_order ins g :
  Forall wf_input ins -> run ins globals_init = Some g ->
  let tbl := foldl add_slot [] (ingested_addrs ins) in
  NoDup tbl /\ zlen tbl <= MAX_DEVICES /\
  (forall j, 0 <= j < MAX_DEVICES ->
     in_use (dev (g_devices g) j) = bool_decide (j < zlen tbl)) /\
  (forall j a, 0 <= j -> tbl !! Z.to_nat j = Some a ->
     addr (dev (g_devices g) j) = a) /\
  (forall i j, 0 <= i < MAX_DEVICES -> 0 <= j < MAX_DEVICES ->
     in_use (dev (g_devices g) i) = true -> in_use (dev (g_devices g) j) = true ->
     addr (dev (g_devices g) i) = addr (dev (g_devices g) j) -> i = j).
Proof.
  intros Hwf Hrun. cbv zeta.
  destruct (run_holds ins globals_init [] Hwf holds_init) as (g' & Hrun' & Hh).
  assert (g' = g) as -> by congruence.
  set (tbl := foldl add_slot [] (ingested_addrs ins)) in *.
  destruct Hh as (_ & Hn & Hnd & _ & Hslots).
  split; [done|]. split; [done|]. split; [|split].
  - intros j Hj. by apply Hslots.
  - intros j a Hj Hlook. apply Hslots; [|done].
    apply lookup_lt_Some in Hlook. lia.
  - intros i j Hi Hj Hui Huj Haddr.
    destruct (Hslots i Hi) as [Hbi Hai]. destruct (Hslots j Hj) as [Hbj Haj].
    rewrite Hui in Hbi. rewrite Huj in Hbj. symmetry in Hbi, Hbj.
    apply bool_decide_eq_true in Hbi, Hbj.
    destruct (lookup_lt_is_Some_2 tbl (Z.to_nat i)) as [a Ha]; [lia|].
    destruct (lookup_lt_is_Some_2 tbl (Z.to_nat j)) as [b Hb]; [lia|].
    assert (a = b) as -> by (rewrite <- (Hai a Ha), <- (Haj b Hb); done).
    assert (Z.to_nat i = Z.to_nat j) by (by apply (NoDup_lookup tbl _ _ b)).
    lia.
Qed.

Lemma slots_in_arrival_order_witness :
  let tbl := foldl add_slot [] (ingested_addrs run_completed) in
  NoDup tbl /\ zlen tbl <= MAX_DEVICES /\
  (forall j, 0 <= j < MAX_DEVICES ->
     in_use (dev (g_devices sample_completed) j) = bool_decide (j < zlen tbl)) /\
  (forall j a, 0 <= j -> tbl !! Z.to_nat j = Some a ->
     addr (dev (g_devices sample_completed) j) = a) /\
  (forall i j, 0 <= i < MAX_DEVICES -> 0 <= j < MAX_DEVICES ->
     in_use (dev (g_devices sample_completed) i) = true ->
     in_use (dev (g_devices sample_completed) j) = true ->
     addr (dev (g_devices sample_completed) i)
       = addr (dev (g_devices sample_completed) j) -> i = j).
Proof.
  apply (slots_in_arrival_order run_completed sample_completed).
  - apply run_completed_wf.
  - by vm_compute.
Defined.

(** ** What an event stores *)

Lemma disc_record_payloads desc ex d :
  let d3 := disc_record desc ex d in
  (has_mfg ex = true -> adv_mfg_len ex <= MAX_BLE_DATA ->
     have_mfg d3 = true /\ mfg_len d3 = adv_mfg_len ex /\
     mfg d3 = memcpy (mfg d) (field_bytes (data desc) (adv_mfg ex) (adv_mfg_len ex)))
  /\ (has_mfg ex = false \/ MAX_BLE_DATA < adv_mfg_len ex ->
     have_mfg d3 = have_mfg d /\ mfg_len d3 = mfg_len d /\ mfg d3 = mfg d)
  /\ (has_svc ex = true -> adv_svc_len ex <= MAX_BLE_DATA ->
     have_svc d3 = true /\ svc_len d3 = adv_svc_len ex /\
     svc d3 = memcpy (svc d) (field_bytes (data desc) (adv_svc ex) (adv_svc_len ex)))
  /\ (has_svc ex = false \/ MAX_BLE_DATA < adv_svc_len ex ->
     have_svc d3 = have_svc d /\ svc_len d3 = svc_len d /\ svc d3 = svc d).
Proof.
  cbv zeta. unfold disc_record.
  destruct (has_mfg ex) eqn:Hm, (has_svc ex) eqn:Hs; cbn [andb];
    destruct (adv_mfg_len ex <=? MAX_BLE_DATA) eqn:Hcm;
    destruct (adv_svc_len ex <=? MAX_BLE_DATA) eqn:Hcs;
    try apply Z.leb_le in Hcm; try apply Z.leb_gt in Hcm;
    try apply Z.leb_le in Hcs; try apply Z.leb_gt in Hcs;
    cbn [have_mfg have_svc mfg mfg_len svc svc_len set_mfg set_svc set_rssi];
    split_and!; try done; try (intros; lia); try (intros [?|?]; done || lia).
Qed.

(** X8. What a discovery event stores in its slot. The rssi is the event's.
    A manufacturer payload of at most 31 bytes is stored whole: the flag is
    set, the length is the payload's, and the first [mfg_len] bytes of the
    array are exactly the bytes of the payload in the event's buffer, with
    no byte of an earlier, longer payload among them. A payload longer than
    31 bytes, or an event without one, leaves the manufacturer half as it
    was. The same holds of the service payload. *)
Theorem ingest_stores_payload desc g ex tr :
  wf_desc desc -> length (g_devices g) = 12%nat ->
  adv_extract (data desc) (length_data desc) [] = Some (ex, tr) ->
  has_mfg ex = true \/ has_svc ex = true ->
  let r := cache_find_or_alloc (take 6 (addr_val desc)) (g_devices g) in
  0 <= r.1 ->
  exists g' fx,
    gap_event_cb (BLE_GAP_EVENT_DISC desc) g = Some (g', fx) /\
    let d := dev r.2 r.1 in
    let d' := dev (g_devices g') r.1 in
    rssi d' = desc_rssi desc /\
    (has_mfg ex = true -> adv_mfg_len ex <= MAX_BLE_DATA ->
       have_mfg d' = true /\ mfg_len d' = adv_mfg_len ex /\
       exists p, adv_mfg ex = Some p /\
         slice (data desc) p (adv_mfg_len ex)
           = Some (take (Z.to_nat (mfg_len d')) (mfg d')))
    /\ (has_mfg ex = false \/ MAX_BLE_DATA < adv_mfg_len ex ->
       have_mfg d' = have_mfg d /\ mfg_len d' = mfg_len d /\ mfg d' = mfg d)
    /\ (has_svc ex = true -> adv_svc_len ex <= MAX_BLE_DATA ->
       have_svc d' = true /\ svc_len d' = adv_svc_len ex /\
       exists p, adv_svc ex = Some p /\
         slice (data desc) p (adv_svc_len ex)
           = Some (take (Z.to_nat (svc_len d')) (svc d')))
    /\ (has_svc ex = false \/ MAX_BLE_DATA < adv_svc_len ex ->
       have_svc d' = have_svc d /\ svc_len d' = svc_len d /\ svc d' = svc d).
Proof.
  intros Hwf Hlen Hex Hf. cbv zeta. intros Hidx.
  destruct (gap_event_cb_ingest desc g ex tr Hwf Hlen Hex Hf Hidx)
    as (g' & Hcb & Hd & _).
  eexists g', _. split; [exact Hcb|].
  set (d := dev (cache_find_or_alloc (take 6 (addr_val desc)) (g_devices g)).2
                (cache_find_or_alloc (take 6 (addr_val desc)) (g_devices g)).1)
    in *.
  set (d3 := disc_record desc ex d) in *.
  assert (Hsame : rssi (dev (g_devices g') (cache_find_or_alloc
                     (take 6 (addr_val desc)) (g_devices g)).1) = rssi d3 /\
                  have_mfg (dev (g_devices g') (cache_find_or_alloc
                     (take 6 (addr_val desc)) (g_devices g)).1) = have_mfg d3 /\
                  mfg_len (dev (g_devices g') (cache_find_or_alloc
                     (take 6 (addr_val desc)) (g_devices g)).1) = mfg_len d3 /\
                  mfg (dev (g_devices g') (cache_find_or_alloc
                     (take 6 (addr_val desc)) (g_devices g)).1) = mfg d3 /\
                  have_svc (dev (g_devices g') (cache_find_or_alloc
                     (take 6 (addr_val desc)) (g_devices g)).1) = have_svc d3 /\
                  svc_len (dev (g_devices g') (cache_find_or_alloc
                     (take 6 (addr_val desc)) (g_devices g)).1) = svc_len d3 /\
                  svc (dev (g_devices g') (cache_find_or_alloc
                     (take 6 (addr_val desc)) (g_devices g)).1) = svc d3).
  { rewrite Hd. destruct (merged d3); [|done].
    by destruct (update_device_id_fields d3)
      as (_ & _ & -> & -> & -> & -> & -> & -> & ->). }
  destruct Hsame as (-> & -> & -> & -> & -> & -> & ->).
  pose proof Hwf as (_ & _ & Hb & Hdl & Hle).
  destruct (adv_extract_ok _ _ Hb Hdl Hle) as (ex' & tr' & Hex' & _ & [Him His]).
  assert (ex' = ex) as -> by congruence.
  destruct (disc_record_payloads desc ex d) as (Hm1 & Hm2 & Hs1 & Hs2).
  fold d3 in Hm1, Hm2, Hs1, Hs2.
  split; [by destruct (disc_record_keys desc ex d) as (_ & _ & ?)|].
  split; [|split; [done|split; [|done]]].
  - intros Hh Hcap. destruct (Hm1 Hh Hcap) as (-> & -> & ->).
    split; [done|]. split; [done|].
    destruct (Him Hh) as (p & Hp & ? & ? & ?). exists p. split; [done|].
    rewrite Hp. unfold slice. rewrite bool_decide_true by lia. f_equal.
    change (take (Z.to_nat (adv_mfg_len ex)) (drop (Z.to_nat p) (data desc)))
      with (field_bytes (data desc) (Some p) (adv_mfg_len ex)).
    symmetry.
    rewrite <- (field_bytes_length (data desc) p (adv_mfg_len ex)) at 1 by lia.
    apply memcpy_take.
  - intros Hh Hcap. destruct (Hs1 Hh Hcap) as (-> & -> & ->).
    split; [done|]. split; [done|].
    destruct (His Hh) as (p & Hp & ? & ? & ?). exists p. split; [done|].
    rewrite Hp. unfold slice. rewrite bool_decide_true by lia. f_equal.
    change (take (Z.to_nat (adv_svc_len ex)) (drop (Z.to_nat p) (data desc)))
      with (field_bytes (data desc) (Some p) (adv_svc_len ex)).
    symmetry.
    rewrite <- (field_bytes_length (data desc) p (adv_svc_len ex)) at 1 by lia.
    apply memcpy_take.
Qed.

Lemma desc_of_mfg8_wf : wf_desc (desc_of addr_A (-60) adv_mfg8).
Proof. repeat split; try (cbn; lia). repeat constructor; unfold is_byte; lia. Qed.

Lemma ingest_stores_payload_witness :
  let desc := desc_of addr_A (-60) adv_mfg8 in
  let r := cache_find_or_alloc (take 6 (addr_val desc)) (g_devices globals_init) in
  exists g' fx,
    gap_event_cb (BLE_GAP_EVENT_DISC desc) globals_init = Some (g', fx) /\
    let d := dev r.2 r.1 in
    let d' := dev (g_devices g') r.1 in
    rssi d' = desc_rssi desc /\
    (has_mfg ex_mfg8 = true -> adv_mfg_len ex_mfg8 <= MAX_BLE_DATA ->
       have_mfg d' = true /\ mfg_len d' = adv_mfg_len ex_mfg8 /\
       exists p, adv_mfg ex_mfg8 = Some p /\
         slice (data desc) p (adv_mfg_len ex_mfg8)
           = Some (take (Z.to_nat (mfg_len d')) (mfg d')))
    /\ (has_mfg ex_mfg8 = false \/ MAX_BLE_DATA < adv_mfg_len ex_mfg8 ->
       have_mfg d' = have_mfg d /\ mfg_len d' = mfg_len d /\ mfg d' = mfg d)
    /\ (has_svc ex_mfg8 = true -> adv_svc_len ex_mfg8 <= MAX_BLE_DATA ->
       have_svc d' = true /\ svc_len d' = adv_svc_len ex_mfg8 /\
       exists p, adv_svc ex_mfg8 = Some p /\
         slice (data desc) p (adv_svc_len ex_mfg8)
           = Some (take (Z.to_nat (svc_len d')) (svc d')))
    /\ (has_svc ex_mfg8 = false \/ MAX_BLE_DATA < adv_svc_len ex_mfg8 ->
       have_svc d' = have_svc d /\ svc_len d' = svc_len d /\ svc d' = svc d).
Proof.
  apply (ingest_stores_payload (desc_of addr_A (-60) adv_mfg8) globals_init
           ex_mfg8 [0; 1]).
  - apply desc_of_mfg8_wf.
  - reflexivity.
  - reflexivity.
  - by left.
  - by vm_compute.
Defined.

(** ** From two advertisements to a [LATEST] reply *)

Lemma reply_latest_update d : reply_latest (update_device_id d) = reply_latest d.
Proof.
  unfold reply_latest.
  by destruct (update_device_id_fields d)
    as (-> & _ & -> & _ & -> & -> & _ & -> & ->).
Qed.




(** ** What port calls leave alone *)

(** X10. A port call never rewrites a reading. Whatever the request, the
    latest index and, in every record, the address, the in-use flag, the
    rssi and both payloads with their flags and lengths are as before, so
    every snapshot reads the same; requests other than [RADIO_START] and
    [LATEST_FOR] leave the globals untouched altogether. *)
Theorem port_calls_leave_readings env req g :
  length (g_devices g) = 12%nat ->
  g_latest_index (globals_of (handle_call env req g)) = g_latest_index g /\
  (forall j, 0 <= j ->
     let d := dev (g_devices g) j in
     let d' := dev (g_devices (globals_of (handle_call env req g))) j in
     addr d' = addr d /\ in_use d' = in_use d /\ rssi d' = rssi d /\
     have_mfg d' = have_mfg d /\ mfg_len d' = mfg_len d /\ mfg d' = mfg d /\
     have_svc d' = have_svc d /\ svc_len d' = svc_len d /\ svc d' = svc d /\
     reply_latest d' = reply_latest d) /\
  (forall op body,
     req = term_binary (op :: body) ->
     op <> OPCODE_BLE_START -> op <> OPCODE_LATEST_FOR ->
     globals_of (handle_call env req g) = g).
Proof.
  intros Hlen.
  destruct (handle_call_frame env req g Hlen) as (_ & Hli & _ & Hd).
  split; [done|]. split.
  - intros j Hj. cbv zeta. destruct (Hd j Hj) as [-> | ->]; [done|].
    rewrite reply_latest_update.
    by destruct (update_device_id_fields (dev (g_devices g) j))
      as (-> & -> & -> & -> & -> & -> & -> & -> & ->).
  - intros op body -> Hns Hnl. hc_cons. unfold globals_of.
    rewrite (proj2 (Z.eqb_neq op OPCODE_BLE_START)) by done.
    rewrite (proj2 (Z.eqb_neq op OPCODE_LATEST_FOR)) by done.
    repeat case_match; done.
Qed.

Lemma port_calls_leave_readings_witness :
  g_latest_index (globals_of (handle_call platform_ok
     (term_binary [OPCODE_LATEST_FOR; 0x12; 0x34]) sample_completed))
    = g_latest_index sample_completed /\
  (forall j, 0 <= j ->
     let d := dev (g_devices sample_completed) j in
     let d' := dev (g_devices (globals_of (handle_call platform_ok
                 (term_binary [OPCODE_LATEST_FOR; 0x12; 0x34]) sample_completed))) j in
     addr d' = addr d /\ in_use d' = in_use d /\ rssi d' = rssi d /\
     have_mfg d' = have_mfg d /\ mfg_len d' = mfg_len d /\ mfg d' = mfg d /\
     have_svc d' = have_svc d /\ svc_len d' = svc_len d /\ svc d' = svc d /\
     reply_latest d' = reply_latest d) /\
  (forall op body,
     term_binary [OPCODE_LATEST_FOR; 0x12; 0x34] = term_binary (op :: body) ->
     op <> OPCODE_BLE_START -> op <> OPCODE_LATEST_FOR ->
     globals_of (handle_call platform_ok
       (term_binary [OPCODE_LATEST_FOR; 0x12; 0x34]) sample_completed)
       = sample_completed).
Proof.
  apply (port_calls_leave_readings platform_ok
           (term_binary [OPCODE_LATEST_FOR; 0x12; 0x34]) sample_completed).
  reflexivity.
Defined.

(** X11. [RADIO_START] brings the stack up at most once and fails cleanly.
    Its reply is success or code 0x30. On 0x30 the globals are untouched, the
    port is still not started and [nimble_port_init] was not called, so the
    request can be repeated. [nimble_port_init] is called exactly when the
    port was not started and the reply is success; flash is erased only when
    the first [nvs_flash_init] asked for it. On a started port the request
    only issues a new discovery and changes nothing. *)
Theorem radio_start_once env body g :
  let r := handle_call env (term_binary (OPCODE_BLE_START :: body)) g in
  (reply_of r = [0x00; 0x01] \/ reply_of r = [0x01; 0x30]) /\
  (reply_of r = [0x01; 0x30] ->
     globals_of r = g /\ g_ble_started g = false /\ nimble_port_init ∉ r.2) /\
  (reply_of r = [0x00; 0x01] -> g_ble_started (globals_of r) = true) /\
  (nimble_port_init ∈ r.2 <->
     g_ble_started g = false /\ reply_of r = [0x00; 0x01]) /\
  (nvs_flash_erase ∈ r.2 ->
     g_ble_started g = false /\ needs_erase (nvs_flash_init_1 env) = true) /\
  (g_ble_started g = true -> r = ([0x00; 0x01], g, [ble_gap_disc])).
Proof.
  cbv zeta. hc_cons; hc_opcode. unfold reply_of, globals_of.
  destruct (g_ble_started g) eqn:Hs; cbn [negb fst snd].
  { unfold start_scan.
    rewrite !elem_of_cons, !elem_of_nil. intuition (congruence || done). }
  destruct (needs_erase (nvs_flash_init_1 env)) eqn:He;
    [destruct (is_ok (nvs_flash_init_2 env)) eqn:Hok
    |destruct (is_ok (nvs_flash_init_1 env)) eqn:Hok];
    cbn [negb fst snd app set_started g_ble_started make_error
         make_ok_with_payload Z.ltb Z.compare take Z.to_nat Pos.to_nat
         Pos.iter_op Init.Nat.add];
    rewrite ?elem_of_cons, ?elem_of_nil; intuition (congruence || done).
Qed.

(** ** The wire format of a snapshot *)

Lemma u8_signed_inj x y :
  -128 <= x <= 127 -> -128 <= y <= 127 -> u8 x = u8 y -> x = y.
Proof.
  unfold u8. intros Hx Hy H.
  assert (Hd : (x - y) mod 256 = 0).
  { rewrite Zminus_mod, H, Z.sub_diag. done. }
  apply Z.mod_divide in Hd; [|lia]. destruct Hd as [k Hk]. lia.
Qed.

(** X12. The reply that carries a snapshot can be read back unambiguously.
    For records as the cache holds them, the reply has
    [10 + svc_len + mfg_len] bytes, at most 72, and two records with the same
    reply have the same address, rssi, service payload and manufacturer
    payload. *)
Theorem reply_latest_unambiguous d1 d2 :
  wf_device d1 -> wf_device d2 ->
  zlen (reply_latest d1) = 10 + svc_len d1 + mfg_len d1 /\
  zlen (reply_latest d1) <= 72 /\
  (reply_latest d1 = reply_latest d2 ->
     addr d1 = addr d2 /\ rssi d1 = rssi d2 /\
     svc_len d1 = svc_len d2 /\
     take (Z.to_nat (svc_len d1)) (svc d1) = take (Z.to_nat (svc_len d2)) (svc d2) /\
     mfg_len d1 = mfg_len d2 /\
     take (Z.to_nat (mfg_len d1)) (mfg d1) = take (Z.to_nat (mfg_len d2)) (mfg d2)).
Proof.
  intros (Ha1 & Hm1 & Hs1 & Hml1 & Hsl1 & _ & _ & Hr1 & _)
         (Ha2 & Hm2 & Hs2 & Hml2 & Hsl2 & _ & _ & Hr2 & _).
  unfold MAX_BLE_DATA in *.
  assert (Hlen : zlen (reply_latest d1) = 10 + svc_len d1 + mfg_len d1).
  { unfold reply_latest. rewrite !length_app, !length_take. cbn [length]. lia. }
  split; [done|]. split; [lia|].
  unfold reply_latest. intros H.
  rewrite (take_ge (addr d1)), (take_ge (addr d2)) in H by lia.
  apply app_inv_head in H.
  apply app_inj_1 in H as [Haddr H]; [|congruence].
  cbn [app] in H. injection H as Hrssi Hsl H.
  apply app_inj_1 in H as [Hsvc H]; [|rewrite !length_take; lia].
  cbn [app] in H. injection H as Hml Hmfg.
  split_and!; try done. by apply u8_signed_inj.
Qed.

Lemma reply_latest_unambiguous_witness :
  zlen (reply_latest (dev (g_devices sample_completed) 0))
    = 10 + svc_len (dev (g_devices sample_completed) 0)
         + mfg_len (dev (g_devices sample_completed) 0) /\
  zlen (reply_latest (dev (g_devices sample_completed) 0)) <= 72 /\
  (reply_latest (dev (g_devices sample_completed) 0) = reply_latest zero_device ->
     addr (dev (g_devices sample_completed) 0) = addr zero_device /\
     rssi (dev (g_devices sample_completed) 0) = rssi zero_device /\
     svc_len (dev (g_devices sample_completed) 0) = svc_len zero_device /\
     take (Z.to_nat (svc_len (dev (g_devices sample_completed) 0)))
          (svc (dev (g_devices sample_completed) 0))
       = take (Z.to_nat (svc_len zero_device)) (svc zero_device) /\
     mfg_len (dev (g_devices sample_completed) 0) = mfg_len zero_device /\
     take (Z.to_nat (mfg_len (dev (g_devices sample_completed) 0)))
          (mfg (dev (g_devices sample_completed) 0))
       = take (Z.to_nat (mfg_len zero_device)) (mfg zero_device)).
Proof.
  apply (reply_latest_unambiguous (dev (g_devices sample_completed) 0) zero_device).
  - apply (reachable_cache_inv sample_completed sample_completed_reachable).
    unfold MAX_DEVICES. lia.
  - apply zero_device_wf.
Defined.

(** ** Which slot [LATEST_FOR] answers with *)

Lemma wanted_id_big_endian b1 b2 :
  is_byte b1 -> is_byte b2 -> wanted_id b1 b2 = b1 * 256 + b2.
Proof.
  unfold wanted_id, is_byte, u16. intros H1 H2.
  rewrite (Z.mod_small b1), (Z.mod_small b2) by lia.
  rewrite Z.shiftl_mul_pow2 by lia.
  rewrite (Z.mod_small (b1 * 2 ^ 8)) by lia.
  rewrite <- Z.shiftl_mul_pow2 by lia.
  rewrite lor_shiftl8_byte by done.
  apply Z.mod_small. lia.
Qed.

(** The scan stops at its match: slots before the start and slots after the
    match are as they were. *)
Lemma latest_for_scan_break wanted n : forall ds i,
  0 <= i ->
  let r := latest_for_scan wanted ds i n in
  (r.1 = -1 \/ i <= r.1) /\
  forall j, 0 <= j -> j < i \/ (0 <= r.1 /\ r.1 < j) -> dev r.2 j = dev ds j.
Proof.
  induction n as [|n IH]; intros ds i Hi; cbn [latest_for_scan].
  { cbn. split; [by left|done]. }
  assert (Hskip : forall ds',
    (forall j, 0 <= j -> j <> i -> dev ds' j = dev ds j) ->
    let r := latest_for_scan wanted ds' (i + 1) n in
    (r.1 = -1 \/ i <= r.1) /\
    forall j, 0 <= j -> j < i \/ (0 <= r.1 /\ r.1 < j) -> dev r.2 j = dev ds j).
  { intros ds' Hds'. cbv zeta.
    destruct (IH ds' (i + 1) ltac:(lia)) as [Hr Hj].
    split; [lia|]. intros j Hj0 Hcase.
    rewrite Hj by lia. apply Hds'; lia. }
  cbv zeta.
  destruct (negb (in_use (dev ds i))); [by apply Hskip|].
  destruct (negb (have_mfg (dev ds i)) || negb (have_svc (dev ds i)));
    [by apply Hskip|].
  destruct (negb (is_switchbot_mfg _ _)); [by apply Hskip|].
  cbv zeta.
  destruct (have_device_id _ && _).
  - cbn [fst snd]. split; [right; lia|].
    intros j Hj0 Hcase. apply dev_set_other; lia.
  - apply Hskip. intros j Hj0 Hne. apply dev_set_other; lia.
Qed.

(** X13. [LATEST_FOR] answers with the lowest matching slot and stops there.
    The two bytes after the opcode are the wanted id, high byte first. If
    slot [k] matches it and no slot below [k] does, the reply is the
    snapshot of slot [k], that slot's device id is refreshed, and every slot
    above [k] is left exactly as it was. *)
Theorem latest_for_first_match env b1 b2 body g k :
  g_ble_started g = true -> length (g_devices g) = 12%nat ->
  is_byte b1 -> is_byte b2 ->
  0 <= k < MAX_DEVICES ->
  id_matches (b1 * 256 + b2) (dev (g_devices g) k) = true ->
  (forall j, 0 <= j < k ->
     id_matches (b1 * 256 + b2) (dev (g_devices g) j) = false) ->
  let r := handle_call env (term_binary (OPCODE_LATEST_FOR :: b1 :: b2 :: body)) g in
  reply_of r = reply_latest (dev (g_devices g) k) /\
  dev (g_devices (globals_of r)) k = update_device_id (dev (g_devices g) k) /\
  forall j, k < j -> dev (g_devices (globals_of r)) j = dev (g_devices g) j.
Proof.
  intros Hs Hlen Hb1 Hb2 Hk Hyes Hno. cbv zeta.
  rewrite handle_call_latest_for by done. cbv zeta.
  rewrite wanted_id_big_endian by done.
  unfold reply_of, globals_of. cbn [fst snd g_devices set_devices].
  unfold MAX_DEVICES in *.
  destruct (latest_for_scan_spec (b1 * 256 + b2) (Z.to_nat 12) (g_devices g) 0)
    as (_ & _ & Hr); [lia|lia|].
  destruct (latest_for_scan_break (b1 * 256 + b2) (Z.to_nat 12) (g_devices g) 0)
    as [_ Hafter]; [lia|].
  destruct (latest_for_scan _ _ _ _) as [found ds]. cbn [fst snd] in *.
  destruct Hr as [[-> Hnone] | (Hrange & Hm & Hupd & Hbefore)].
  { rewrite Hnone in Hyes by lia. done. }
  assert (found = k) as ->.
  { destruct (Z.lt_trichotomy found k) as [Hlt | [-> | Hgt]]; [|done|].
    - rewrite Hno in Hm by lia. done.
    - rewrite Hbefore in Hyes by lia. done. }
  replace (k <? 0) with false by (symmetry; apply Z.ltb_ge; lia).
  rewrite Hupd, reply_latest_update.
  split_and!; [done|done|]. intros j Hj. apply Hafter; lia.
Qed.

Lemma latest_for_first_match_witness :
  let r := handle_call platform_ok
             (term_binary (OPCODE_LATEST_FOR :: 0x12 :: 0x34 :: []))
             sample_completed in
  reply_of r = reply_latest (dev (g_devices sample_completed) 0) /\
  dev (g_devices (globals_of r)) 0
    = update_device_id (dev (g_devices sample_completed) 0) /\
  forall j, 0 < j ->
    dev (g_devices (globals_of r)) j = dev (g_devices sample_completed) j.
Proof.
  apply (latest_for_first_match platform_ok 0x12 0x34 [] sample_completed 0).
  - reflexivity.
  - reflexivity.
  - unfold is_byte. lia.
  - unfold is_byte. lia.
  - unfold MAX_DEVICES. lia.
  - reflexivity.
  - intros j Hj. lia.
Defined.

(** ** The native handler *)

Lemma native_handler_continue env mailbox g :
  (sample_app_port_native_handler env mailbox g).1.1.1.1 = NativeContinue.
Proof.
  destruct mailbox as [|[pid ref req|] mailbox']; cbn; [done| |done].
  by destruct (handle_call env req g) as [[reply g'] fx].
Qed.

(** X14. Draining the mailbox. Each invocation removes one message, if there
    is one, and never ends the port. After [n] invocations the mailbox has
    lost its first [n] messages; exactly the calls among them were answered,
    once each, in order, to the pid and with the reference of the call, with
    a success or an error envelope; every other message was dropped without
    a reply. The cache keeps its twelve records and its latest index, and a
    started port stays started. *)
Theorem native_handler_drains env n mailbox g :
  length (g_devices g) = 12%nat ->
  let r := native_handler_iter env n mailbox g in
  (sample_app_port_native_handler env mailbox g).1.1.1.1 = NativeContinue /\
  r.1.1 = drop n mailbox /\
  map (fun s => (to_pid s, to_ref s)) r.2 = callers (take n mailbox) /\
  Forall (fun s => is_success (reply_term s) \/ is_error (reply_term s)) r.2 /\
  length (g_devices r.1.2) = 12%nat /\
  g_latest_index r.1.2 = g_latest_index g /\
  (g_ble_started g = true -> g_ble_started r.1.2 = true).
Proof.
  intros Hlen. cbv zeta. split; [apply native_handler_continue|].
  revert mailbox g Hlen.
  induction n as [|n IH]; intros mailbox g Hlen; cbn [native_handler_iter].
  { cbn [fst snd]. rewrite drop_0, take_0. by split_and!. }
  destruct mailbox as [|[pid ref req|] mailbox'];
    cbn [sample_app_port_native_handler].
  - specialize (IH [] g Hlen).
    destruct (native_handler_iter env n [] g) as [[mb'' g''] sent'].
    cbn [fst snd app] in *. rewrite drop_nil, take_nil in *. exact IH.
  - pose proof (handle_call_frame env req g Hlen) as (Hl' & Hli' & Hs' & _).
    pose proof (handle_call_envelope env req g) as Henv.
    unfold globals_of, reply_of in *.
    destruct (handle_call env req g) as [[reply g'] fx]. cbn [fst snd] in *.
    specialize (IH mailbox' g' Hl').
    destruct (native_handler_iter env n mailbox' g') as [[mb'' g''] sent'].
    cbn [fst snd app map] in *.
    destruct IH as (Hd & Hc & Hf & Hl'' & Hli'' & Hs'').
    split_and!; [done|by rewrite Hc| |done|congruence|auto].
    constructor; done.
  - specialize (IH mailbox' g Hlen).
    destruct (native_handler_iter env n mailbox' g) as [[mb'' g''] sent'].
    cbn [fst snd app] in *. exact IH.
Qed.

Lemma native_handler_drains_witness :
  let mailbox := [GenCallMessage 7 1 (term_binary [OPCODE_PING]);
                  GenOtherMessage;
                  GenCallMessage 8 2 (term_binary [OPCODE_LATEST])] in
  let r := native_handler_iter platform_ok 2 mailbox globals_init in
  (sample_app_port_native_handler platform_ok mailbox globals_init).1.1.1.1
    = NativeContinue /\
  r.1.1 = drop 2 mailbox /\
  map (fun s => (to_pid s, to_ref s)) r.2 = callers (take 2 mailbox) /\
  Forall (fun s => is_success (reply_term s) \/ is_error (reply_term s)) r.2 /\
  length (g_devices r.1.2) = 12%nat /\
  g_latest_index r.1.2 = g_latest_index globals_init /\
  (g_ble_started globals_init = true -> g_ble_started r.1.2 = true).
Proof.
  apply (native_handler_drains platform_ok 2
           [GenCallMessage 7 1 (term_binary [OPCODE_PING]);
            GenOtherMessage;
            GenCallMessage 8 2 (term_binary [OPCODE_LATEST])] globals_init).
  reflexivity.
Defined.

(** ** What reaches the outside *)

(** The effects of a discovery event, in terms of the cache before and
    after. *)
Lemma gap_event_cb_effects desc g g' fx :
  wf_desc desc -> cache_inv g ->
  gap_event_cb (BLE_GAP_EVENT_DISC desc) g = Some (g', fx) ->
  (g' = g /\ fx = []) \/
  exists idx,
    0 <= idx < MAX_DEVICES /\
    (forall j, 0 <= j -> j <> idx -> dev (g_devices g') j = dev (g_devices g) j) /\
    g_latest_index g'
      = (if merged (dev (g_devices g') idx) then idx else g_latest_index g) /\
    fx = (if negb (merged (dev (g_devices g) idx)) && merged (dev (g_devices g') idx)
          then [LOG_MERGED (dev (g_devices g') idx)] else []).
Proof.
  intros Hwf (Hlen & _ & Hfree & _) Hcb.
  destruct (gap_event_cb_disc desc g Hwf) as (ex & tr & Hex & Hin & Hcb').
  destruct (has_mfg ex || has_svc ex) eqn:Hf.
  - apply orb_true_iff in Hf.
    destruct (Z.lt_ge_cases
                (cache_find_or_alloc (take 6 (addr_val desc)) (g_devices g)).1 0)
      as [Hneg|Hidx].
    + left. rewrite Hcb in Hcb'. injection Hcb' as Hstep.
      assert (Hgf : (g', fx) = (g, [])); [|by injection Hgf].
      rewrite Hstep. unfold disc_step.
      replace (negb (has_mfg ex) && negb (has_svc ex)) with false
        by (destruct Hf as [-> | ->]; by rewrite ?andb_false_r).
      pose proof (cache_find_or_alloc_spec (take 6 (addr_val desc)) (g_devices g))
        as Hspec.
      destruct (cache_find_or_alloc _ _) as [idx ds]. cbn [fst] in Hneg.
      replace (0 <=? idx) with false by (symmetry; apply Z.leb_gt; lia).
      destruct Hspec as [(_ & -> & _)|[(? & _)|(? & _)]]; try lia.
      by rewrite set_devices_id.
    + destruct (gap_event_cb_ingest desc g ex tr Hwf Hlen Hex Hf Hidx)
        as (g2 & Hcb2 & Hd & Ho & Hl & Hli & Hst).
      rewrite Hcb in Hcb2. injection Hcb2 as <- Hfx.
      right.
      pose proof (cache_find_or_alloc_spec (take 6 (addr_val desc)) (g_devices g))
        as Hspec.
      destruct (cache_find_or_alloc _ _) as [idx ds]. cbn [fst snd] in *.
      exists idx.
      assert (Hm : merged (dev (g_devices g') idx)
                   = merged (disc_record desc ex (dev ds idx))).
      { rewrite Hd. destruct (merged (disc_record _ _ _)) eqn:Hmm; [|done].
        by rewrite update_device_id_merged. }
      assert (Hold : merged (dev ds idx) = merged (dev (g_devices g) idx)).
      { destruct Hspec as [(-> & _)|[(Hr & -> & _)|(Hr & -> & Hu & _)]];
          [lia|done|].
        rewrite dev_set_same by (unfold MAX_DEVICES in *; lia).
        rewrite (Hfree idx Hr Hu). done. }
      assert (Hrange : 0 <= idx < MAX_DEVICES).
      { destruct Hspec as [(-> & _)|[(Hr & _)|(Hr & _)]]; [lia|done|done]. }
      split; [done|]. split; [done|]. split; [by rewrite Hli, Hm|].
      rewrite Hfx, Hold, Hm, Hd.
      destruct (merged (disc_record desc ex (dev ds idx)));
        [done|by rewrite !andb_false_r].
  - apply orb_false_iff in Hf as [Hm Hs]. left.
    rewrite Hcb in Hcb'. injection Hcb' as Hstep.
    assert (Hgf : (g', fx) = (g, [])); [|by injection Hgf].
    rewrite Hstep. unfold disc_step. by rewrite Hm, Hs.
Qed.

(** X15. The [MERGED] log line marks a transition. In a reachable state an
    event produces no effect, or restarts discovery (a completed discovery,
    which changes nothing else), or logs one [MERGED] line; the line shows
    the record the latest index points to after the event, which is merged
    now and was not before. Conversely a record that was not merged before
    the event and is merged after it is logged. *)
Theorem merged_logged_on_transition event g g' fx :
  wf_event event -> reachable g ->
  gap_event_cb event g = Some (g', fx) ->
  (fx = [] \/
   (event = BLE_GAP_EVENT_DISC_COMPLETE /\ fx = [ble_gap_disc] /\ g' = g) \/
   (0 <= g_latest_index g' < MAX_DEVICES /\
    fx = [LOG_MERGED (dev (g_devices g') (g_latest_index g'))] /\
    merged (dev (g_devices g) (g_latest_index g')) = false /\
    merged (dev (g_devices g') (g_latest_index g')) = true)) /\
  (forall j, 0 <= j < MAX_DEVICES ->
     merged (dev (g_devices g) j) = false ->
     merged (dev (g_devices g') j) = true ->
     fx = [LOG_MERGED (dev (g_devices g') j)]).
Proof.
  intros Hwf Hreach Hcb. apply reachable_cache_inv in Hreach.
  destruct event as [desc| |]; cbn [gap_event_cb wf_event] in *.
  - destruct (gap_event_cb_effects desc g g' fx Hwf Hreach Hcb)
      as [[-> ->]|(idx & Hidx & Ho & Hli & Hfx)].
    { split; [by left|congruence]. }
    destruct (merged (dev (g_devices g') idx)) eqn:Hnew.
    + destruct (merged (dev (g_devices g) idx)) eqn:Hold; cbn [negb andb] in Hfx.
      * subst fx. split; [by left|].
        intros j Hj H0 H1. destruct (decide (j = idx)) as [->|Hne]; [congruence|].
        rewrite Ho in H1 by lia. congruence.
      * split; [right; right; rewrite Hli; split_and!; try done; lia|].
        intros j Hj H0 H1. destruct (decide (j = idx)) as [->|Hne]; [done|].
        rewrite Ho in H1 by lia. congruence.
    + rewrite andb_false_r in Hfx. subst fx. split; [by left|].
      intros j Hj H0 H1. destruct (decide (j = idx)) as [->|Hne]; [congruence|].
      rewrite Ho in H1 by lia. congruence.
  - injection Hcb as <- <-. split; [right; left; by split_and!|congruence].
  - injection Hcb as <- <-. split; [by left|congruence].
Qed.

Lemma sample_half_reachable : reachable sample_half.
Proof.
  exists (take 2 run_completed). split; [|by vm_compute].
  apply Forall_take, run_completed_wf.
Qed.

Lemma merged_logged_on_transition_witness :
  let fx := [LOG_MERGED (dev (g_devices sample_completed) 0)] in
  (fx = [] \/
   (disc addr_A (-58) adv_svc2 = BLE_GAP_EVENT_DISC_COMPLETE /\
    fx = [ble_gap_disc] /\ sample_completed = sample_half) \/
   (0 <= g_latest_index sample_completed < MAX_DEVICES /\
    fx = [LOG_MERGED (dev (g_devices sample_completed)
                          (g_latest_index sample_completed))] /\
    merged (dev (g_devices sample_half) (g_latest_index sample_completed)) = false /\
    merged (dev (g_devices sample_completed) (g_latest_index sample_completed))
      = true)) /\
  (forall j, 0 <= j < MAX_DEVICES ->
     merged (dev (g_devices sample_half) j) = false ->
     merged (dev (g_devices sample_completed) j) = true ->
     fx = [LOG_MERGED (dev (g_devices sample_completed) j)]).
Proof.
  apply (merged_logged_on_transition (disc addr_A (-58) adv_svc2)
           sample_half sample_completed
           [LOG_MERGED (dev (g_devices sample_completed) 0)]).
  - repeat constructor; unfold is_byte; cbn; lia.
  - apply sample_half_reachable.
  - by vm_compute.
Defined.

(** X16. Port calls reach the radio and flash only through [RADIO_START]
    and [RADIO_STOP]. Every other request, malformed ones included, has no
    effect outside the driver. [RADIO_STOP] cancels discovery exactly when
    the port is started, and leaves the globals as they are: the port stays
    started and the cache keeps its records. No call logs a [MERGED] line. *)
Theorem calls_reach_radio_only_by_start_stop env req g :
  let r := handle_call env req g in
  (r.2 <> [] ->
     exists body,
       req = term_binary (OPCODE_BLE_START :: body) \/
       (req = term_binary (OPCODE_BLE_STOP :: body) /\ g_ble_started g = true)) /\
  (forall body, req = term_binary (OPCODE_BLE_STOP :: body) ->
     globals_of r = g /\
     (g_ble_started g = true ->
        reply_of r = [0x00; 0x01] /\ r.2 = [ble_gap_disc_cancel]) /\
     (g_ble_started g = false -> reply_of r = [0x01; 0x32] /\ r.2 = [])) /\
  (forall d, LOG_MERGED d ∉ r.2).
Proof.
  cbv zeta. destruct req as [bin|].
  2:{ cbn. split_and!; [done|done|]. intros d H. by apply elem_of_nil in H. }
  destruct bin as [|op body].
  { cbn. split_and!; [done|done|]. intros d H. by apply elem_of_nil in H. }
  hc_cons. unfold reply_of, globals_of.
  destruct (op =? OPCODE_PING) eqn:E1.
  { apply Z.eqb_eq in E1 as ->. cbn [fst snd]. split_and!; [done|done|].
    intros d H. by apply elem_of_nil in H. }
  destruct (op =? OPCODE_ECHO) eqn:E2.
  { apply Z.eqb_eq in E2 as ->. cbn [fst snd]. split_and!; [done|done|].
    intros d H. by apply elem_of_nil in H. }
  destruct (op =? OPCODE_BLE_START) eqn:E3.
  { apply Z.eqb_eq in E3 as ->. split_and!.
    - intros _. exists body. by left.
    - intros body' [=].
    - intros d. unfold start_scan. repeat case_match; cbn [fst snd app];
        rewrite ?elem_of_cons, ?elem_of_nil; intuition congruence. }
  destruct (op =? OPCODE_BLE_STOP) eqn:E4.
  { apply Z.eqb_eq in E4 as ->.
    destruct (g_ble_started g) eqn:Hs; cbn [negb fst snd]; split_and!.
    - intros _. exists body. by right.
    - intros body' _. by split_and!.
    - intros d. unfold stop_scan.
      rewrite ?elem_of_cons, ?elem_of_nil. intuition congruence.
    - done.
    - intros body' _. by split_and!.
    - intros d H. by apply elem_of_nil in H. }
  assert (Hfx : forall body', term_binary (op :: body)
                  <> term_binary (OPCODE_BLE_STOP :: body')).
  { intros body' [= -> _]. done. }
  destruct (op =? OPCODE_LATEST) eqn:E5.
  { repeat case_match; cbn [fst snd]; split_and!; try done;
      try (intros body' Hreq; by apply Hfx in Hreq);
      intros d Hd; by apply elem_of_nil in Hd. }
  destruct (op =? OPCODE_LATEST_FOR) eqn:E6.
  { repeat case_match; cbn [fst snd]; split_and!; try done;
      try (intros body' Hreq; by apply Hfx in Hreq);
      intros d Hd; by apply elem_of_nil in Hd. }
  cbn [fst snd]. split_and!; [done| |].
  - intros body' H. by apply Hfx in H.
  - intros d H. by apply elem_of_nil in H.
Qed.
